(** * Shallow embedding of the PM5 Bluetooth telemetry code

    Sources: [parsers.js] (src/unnamed/part_001, lines 1-170), the
    [PM5Device] class of [src/src/device.js] and its variants
    (src/unnamed/part_002, src/unnamed/part_003).

    Conventions of the embedding:
    - a [DataView] is the list of its bytes ([Byte.byte]);
    - a thrown JavaScript exception is the [Throw] branch of [result];
    - JavaScript numbers that the code only ever holds as small integers
      (byte and word reads, sums of shifted bytes, all below 2^53, hence
      exact as doubles) are [Z]; numbers obtained by a multiplication with
      a decimal scale factor are IEEE binary64 values ([PrimFloat.float]),
      computed with the same round-to-nearest multiplication as
      JavaScript's [*]. *)

From Stdlib Require Import ZArith List String Ascii Bool Lia.
From Stdlib Require Import Floats Uint63.
Import ListNotations.

#[local] Set Warnings "-inexact-float,-register-all".

Open Scope Z_scope.

(** ** JavaScript values and exceptions *)

Inductive JSError : Type :=
  (** [RangeError] thrown by a [DataView] getter read out of bounds *)
  | RangeError (offset : Z)
  (** [new Error(`Invalid data length for <what>: <actual>, expected <expected>`)] *)
  | LengthError (what : string) (actual expected : Z)
  (** [TypeError] from a property access on [undefined] *)
  | TypeError (what : string)
  (** [new Error('Hex string must have even number of characters')] *)
  | OddHexError
  (** [new Error(message)] with any other message *)
  | ErrorMsg (message : string)
  (** a rejected promise of the Web Bluetooth transport *)
  | TransportError (what : string).

Inductive result (A : Type) : Type :=
  | Ok (a : A)
  | Throw (e : JSError).
Arguments Ok {A} a.
Arguments Throw {A} e.

Definition bind {A B : Type} (r : result A) (k : A -> result B) : result B :=
  match r with
  | Ok a => k a
  | Throw e => Throw e
  end.

Notation "'let*' x := r 'in' k" := (bind r (fun x => k))
  (at level 200, x name, r at level 100, k at level 200).

Definition is_ok {A : Type} (r : result A) : bool :=
  match r with Ok _ => true | Throw _ => false end.

(** ** DataView *)

Definition DataView := list Byte.byte.

Definition byteLength (dv : DataView) : Z := Z.of_nat (List.length dv).

Definition byte_val (b : Byte.byte) : Z := Z.of_N (Byte.to_N b).

(** [dataView.getUint8(offset)] *)
Definition getUint8 (dv : DataView) (offset : Z) : result Z :=
  if (0 <=? offset) && (offset <? byteLength dv) then
    match nth_error dv (Z.to_nat offset) with
    | Some b => Ok (byte_val b)
    | None => Throw (RangeError offset)
    end
  else Throw (RangeError offset).

(** [dataView.getUint16(offset, true)]: little endian *)
Definition getUint16LE (dv : DataView) (offset : Z) : result Z :=
  if (0 <=? offset) && (offset + 2 <=? byteLength dv) then
    let* lo := getUint8 dv offset in
    let* hi := getUint8 dv (offset + 1) in
    Ok (lo + hi * 256)
  else Throw (RangeError offset).

(** ECMAScript [ToInt32] and the [<<] operator on numbers. *)
Definition ToInt32 (x : Z) : Z :=
  let m := x mod 2 ^ 32 in
  if 2 ^ 31 <=? m then m - 2 ^ 32 else m.

Definition js_shl (x n : Z) : Z :=
  ToInt32 (Z.shiftl (ToInt32 x) (n mod 32)).

(** [readInt16LE] (parsers.js) *)
Definition readInt16LE (dv : DataView) (offset : Z) : result Z :=
  getUint16LE dv offset.

(** [readInt24LE] (parsers.js):
    [getUint8(o) + (getUint8(o+1) << 8) + (getUint8(o+2) << 16)] *)
Definition readInt24LE (dv : DataView) (offset : Z) : result Z :=
  let* b0 := getUint8 dv offset in
  let* b1 := getUint8 dv (offset + 1) in
  let* b2 := getUint8 dv (offset + 2) in
  Ok (b0 + js_shl b1 8 + js_shl b2 16).

(** A JavaScript number holding a small non-negative integer. *)
Definition num (z : Z) : float := PrimFloat.of_uint63 (Uint63.of_Z z).

(** The decimal literals of parsers.js, as the nearest binary64 values. *)
Definition c0_1 : float := 0.1%float.
Definition c0_01 : float := 0.01%float.
Definition c0_001 : float := 0.001%float.

(** [x * k] for an integer [x] and a scale literal [k] *)
Definition scale (x : Z) (k : float) : float := (num x * k)%float.

(** ** Records returned by the parsers *)

Record GeneralStatus : Type := {
  gs_elapsed_time : float;
  gs_distance : float;
  gs_workout_type : Z;
  gs_interval_type : Z;
  gs_workout_state : Z;
  gs_rowing_state : Z;
  gs_stroke_state : Z;
  gs_total_work_distance : Z;
  gs_workout_duration : Z;
  gs_workout_duration_type : Z;
  gs_drag_factor : Z
}.

Record AdditionalStatus : Type := {
  as_elapsed_time : float;
  as_speed : float;
  as_stroke_rate : Z;
  as_heart_rate : Z;
  as_current_pace : float;
  as_average_pace : float;
  as_rest_distance : Z;
  as_rest_time : float
}.

Record StrokeData : Type := {
  sd_elapsed_time : float;
  sd_distance : float;
  sd_drive_length : float;
  sd_drive_time : float;
  sd_stroke_recovery_time : float;
  sd_stroke_distance : float;
  sd_peak_drive_force : float;
  sd_average_drive_force : float;
  sd_work_per_stroke : float;
  sd_stroke_count : Z
}.

Record SplitData : Type := {
  sp_elapsed_time : float;
  sp_distance : float;
  sp_split_time : float;
  sp_split_distance : float;
  sp_rest_time : Z;
  sp_rest_distance : Z;
  sp_split_type : Z;
  sp_split_number : Z
}.

(** ** Parsers (parsers.js) *)

Definition mux_offset (isMultiplexed : bool) : Z :=
  if isMultiplexed then 1 else 0.

(** [parseGeneralStatus(dataView, isMultiplexed)] *)
Definition parseGeneralStatus (dv : DataView) (isMultiplexed : bool)
  : result GeneralStatus :=
  let offset := mux_offset isMultiplexed in
  if byteLength dv <? 19 + offset then
    Throw (LengthError "general status" (byteLength dv) (19 + offset))
  else
    let* t := readInt24LE dv (offset + 0) in
    let* d := readInt24LE dv (offset + 3) in
    let* wt := getUint8 dv (offset + 6) in
    let* it := getUint8 dv (offset + 7) in
    let* ws := getUint8 dv (offset + 8) in
    let* rs := getUint8 dv (offset + 9) in
    let* ss := getUint8 dv (offset + 10) in
    let* twd := readInt24LE dv (offset + 11) in
    let* wd := readInt24LE dv (offset + 14) in
    let* wdt := getUint8 dv (offset + 17) in
    let* df := getUint8 dv (offset + 18) in
    Ok {| gs_elapsed_time := scale t c0_01;
          gs_distance := scale d c0_1;
          gs_workout_type := wt;
          gs_interval_type := it;
          gs_workout_state := ws;
          gs_rowing_state := rs;
          gs_stroke_state := ss;
          gs_total_work_distance := twd;
          gs_workout_duration := wd;
          gs_workout_duration_type := wdt;
          gs_drag_factor := df |}.

(** [parseAdditionalStatus(dataView, isMultiplexed)] *)
Definition parseAdditionalStatus (dv : DataView) (isMultiplexed : bool)
  : result AdditionalStatus :=
  let offset := mux_offset isMultiplexed in
  if byteLength dv <? 16 + offset then
    Throw (LengthError "additional status" (byteLength dv) (16 + offset))
  else
    let* t := readInt24LE dv (offset + 0) in
    let* sp := readInt16LE dv (offset + 3) in
    let* sr := getUint8 dv (offset + 5) in
    let* hr := getUint8 dv (offset + 6) in
    let* cp := readInt16LE dv (offset + 7) in
    let* ap := readInt16LE dv (offset + 9) in
    let* rd := readInt16LE dv (offset + 11) in
    let* rt := readInt24LE dv (offset + 13) in
    Ok {| as_elapsed_time := scale t c0_01;
          as_speed := scale sp c0_001;
          as_stroke_rate := sr;
          as_heart_rate := hr;
          as_current_pace := scale cp c0_01;
          as_average_pace := scale ap c0_01;
          as_rest_distance := rd;
          as_rest_time := scale rt c0_01 |}.

(** [parseStrokeData(dataView, isMultiplexed)] *)
Definition parseStrokeData (dv : DataView) (isMultiplexed : bool)
  : result StrokeData :=
  let offset := mux_offset isMultiplexed in
  if byteLength dv <? 20 + offset then
    Throw (LengthError "stroke data" (byteLength dv) (20 + offset))
  else
    let* t := readInt24LE dv (offset + 0) in
    let* d := readInt24LE dv (offset + 3) in
    let* dl := getUint8 dv (offset + 6) in
    let* dt := getUint8 dv (offset + 7) in
    let* srt := readInt16LE dv (offset + 8) in
    let* sdist := readInt16LE dv (offset + 10) in
    let* pdf := readInt16LE dv (offset + 12) in
    let* adf := readInt16LE dv (offset + 14) in
    let* wps := readInt16LE dv (offset + 16) in
    let* sc := readInt16LE dv (offset + 18) in
    Ok {| sd_elapsed_time := scale t c0_01;
          sd_distance := scale d c0_1;
          sd_drive_length := scale dl c0_01;
          sd_drive_time := scale dt c0_01;
          sd_stroke_recovery_time := scale srt c0_01;
          sd_stroke_distance := scale sdist c0_01;
          sd_peak_drive_force := scale pdf c0_1;
          sd_average_drive_force := scale adf c0_1;
          sd_work_per_stroke := scale wps c0_1;
          sd_stroke_count := sc |}.

(** [parseSplitIntervalData(dataView, isMultiplexed)] *)
Definition parseSplitIntervalData (dv : DataView) (isMultiplexed : bool)
  : result SplitData :=
  let offset := mux_offset isMultiplexed in
  if byteLength dv <? 18 + offset then
    Throw (LengthError "split data" (byteLength dv) (18 + offset))
  else
    let* t := readInt24LE dv (offset + 0) in
    let* d := readInt24LE dv (offset + 3) in
    let* st := readInt24LE dv (offset + 6) in
    let* sdist := readInt24LE dv (offset + 9) in
    let* rt := readInt16LE dv (offset + 12) in
    let* rd := readInt16LE dv (offset + 14) in
    let* sty := getUint8 dv (offset + 16) in
    let* sn := getUint8 dv (offset + 17) in
    Ok {| sp_elapsed_time := scale t c0_01;
          sp_distance := scale d c0_1;
          sp_split_time := scale st c0_1;
          sp_split_distance := scale sdist c0_1;
          sp_rest_time := rt;
          sp_rest_distance := rd;
          sp_split_type := sty;
          sp_split_number := sn |}.

(** The object returned by [parseMultiplexedData]: its [type] tag with
    its [data]; the [unknown] object carries [uuid] and [data: null]
    ([None]). *)
Inductive Multiplexed : Type :=
  | MGeneralStatus (data : GeneralStatus)
  | MAdditionalStatus (data : AdditionalStatus)
  | MStrokeData (data : StrokeData)
  | MSplitData (data : SplitData)
  | MUnknown (uuid : Z) (data : option DataView).

Definition map_result {A B : Type} (f : A -> B) (r : result A) : result B :=
  let* a := r in Ok (f a).

(** [parseMultiplexedData(dataView)] *)
Definition parseMultiplexedData (dv : DataView) : result Multiplexed :=
  let* uuid := getUint8 dv 0 in
  if uuid =? 0x31 then map_result MGeneralStatus (parseGeneralStatus dv true)
  else if uuid =? 0x32 then map_result MAdditionalStatus (parseAdditionalStatus dv true)
  else if uuid =? 0x35 then map_result MStrokeData (parseStrokeData dv true)
  else if uuid =? 0x37 then map_result MSplitData (parseSplitIntervalData dv true)
  else Ok (MUnknown uuid None).

(** The four record decoders behind one entry point. *)
Inductive RecordKind : Type :=
  | KGeneralStatus | KAdditionalStatus | KStrokeData | KSplitData.

Inductive TelemetryRecord : Type :=
  | RGeneralStatus (r : GeneralStatus)
  | RAdditionalStatus (r : AdditionalStatus)
  | RStrokeData (r : StrokeData)
  | RSplitData (r : SplitData).

Definition decode (k : RecordKind) (dv : DataView) (isMultiplexed : bool)
  : result TelemetryRecord :=
  match k with
  | KGeneralStatus => map_result RGeneralStatus (parseGeneralStatus dv isMultiplexed)
  | KAdditionalStatus => map_result RAdditionalStatus (parseAdditionalStatus dv isMultiplexed)
  | KStrokeData => map_result RStrokeData (parseStrokeData dv isMultiplexed)
  | KSplitData => map_result RSplitData (parseSplitIntervalData dv isMultiplexed)
  end.

(** The length constants and error texts of the four parsers. *)
Definition min_length (k : RecordKind) : Z :=
  match k with
  | KGeneralStatus => 19 | KAdditionalStatus => 16
  | KStrokeData => 20 | KSplitData => 18
  end.

Definition record_name (k : RecordKind) : string :=
  match k with
  | KGeneralStatus => "general status" | KAdditionalStatus => "additional status"
  | KStrokeData => "stroke data" | KSplitData => "split data"
  end.

(** ** The [PM5Device] session

    The class of src/unnamed/part_002; its [handleDisconnected] and
    [startRowingDataNotifications] are those of src/src/device.js line for
    line, and it adds the control characteristics, the generic
    [subscribeToCharacteristic] / [unsubscribeFromCharacteristic] pair and
    [discoverNotifyCapableCharacteristics]. An [async] method runs in
    segments: synchronously up to its first [await], and each later segment
    when the awaited promise settles, on the world as it is by then. The
    Web Bluetooth side the code talks to (the PM5, the link, the GATT
    objects of each connection, their listeners and notification state) is
    part of the world. *)

(** The UUIDs of constants.js (that file is not among the sources; the
    code only compares them with [===] and passes them to the transport). *)
Definition GENERAL_STATUS : string := "general_status".
Definition ADDITIONAL_STATUS : string := "additional_status".
Definition STROKE_DATA : string := "stroke_data".
Definition SPLIT_INTERVAL_DATA : string := "split_interval_data".
Definition CONTROL_RECEIVE : string := "control_receive".
Definition CONTROL_TRANSMIT : string := "control_transmit".
Definition INFORMATION_SERVICE : string := "information_service".
Definition CONTROL_SERVICE : string := "control_service".
Definition ROWING_SERVICE : string := "rowing_service".

(** The functions passed to [characteristic.addEventListener]: the four
    arrow functions of [startRowingDataNotifications], the one of
    [startControlRxNotifications] and the [handler] of
    [subscribeToCharacteristic] (which captures the [uuid]). *)
Inductive Handler : Type :=
  | HGeneralStatus | HAdditionalStatus | HStrokeData | HSplitData
  | HControlRx
  | HCharacteristic (uuid : string).

(** Each evaluation of an arrow function creates a new function object:
    [l_id] is that object's identity, which [removeEventListener] uses. *)
Record Listener : Type := { l_id : nat; l_handler : Handler }.

(** The callbacks the consumer assigned ([onX = ...]; [false] is [null]). *)
Record Callbacks : Type := {
  onDisconnected : bool;
  onWorkoutData : bool;
  onStrokeData : bool;
  onSplitData : bool;
  onControlRxData : bool;
  onCharacteristicData : bool
}.

(** What the consumer receives, through the callbacks. *)
Inductive ConsumerEvent : Type :=
  | Disconnected
  | WorkoutData (r : TelemetryRecord)
  | StrokeDataEvent (r : StrokeData)
  | SplitDataEvent (r : SplitData)
  | ControlRxData (bytes : DataView)
  | CharacteristicData (uuid : string) (bytes : DataView).

(** Observable effects: a callback invocation, a [console.error] or
    [console.warn] line reporting an error, a [console.warn] line with a
    fixed message, or bytes the PM5 accepted on the transmit
    characteristic. *)
Inductive Output : Type :=
  | Emit (e : ConsumerEvent)
  | ConsoleError (e : JSError)
  | ConsoleWarn (message : string)
  | TxWrite (bytes : list Z).

(** A [BluetoothRemoteGATTCharacteristic] object: its [uuid] and the
    connection whose GATT objects it belongs to. Each connection has its
    own objects; those of an earlier connection no longer represent a
    characteristic of the device. *)
Record Characteristic : Type := { ch_uuid : string; ch_conn : nat }.

(** The PM5 on the other end: whether [gatt.connect()] reaches it; its
    primary services in order, each with its answer to
    [getCharacteristics()] (the characteristics' UUIDs with their [notify]
    property, or a rejection); the UUIDs of [DEVICE_INFO_CHARACTERISTICS]
    with its answer to reading each (the text read is not modelled); and
    its answer to a write on the transmit characteristic. The
    characteristics the code fetches by UUID from a service it holds exist
    on the PM5. *)
Record Peripheral : Type := {
  in_range : bool;
  gatt_table : list (string * result (list (string * bool)));
  info_replies : list (string * result unit);
  write_reply : result unit
}.

(** The value an [async] method resolves to ([notifyChars] for the
    discovery). *)
Inductive Ret : Type := RetUndefined | RetTrue | RetChars (cs : list Characteristic).

Record World : Type := {
  (* fields of the PM5Device object *)
  isConnected : bool;
  server : bool;                        (* this.server !== null *)
  services : list string;               (* keys of this.services *)
  characteristics : list string;        (* keys of this.characteristics *)
  notifyCapableCharacteristics : list Characteristic;
  activeCharacteristicSubscription : option (Characteristic * nat);  (* characteristic, handler *)
  (* the Web Bluetooth side *)
  link_up : bool;                       (* the device's gatt.connected *)
  connection : nat;                     (* connections lost so far *)
  char_listeners : list (string * Listener);  (* on the current objects, registration order *)
  notifying : list string;              (* current characteristics with notifications on *)
  next_id : nat;                        (* next fresh function object *)
  peripheral : Peripheral
}.

Definition set_listeners (w : World) (ls : list (string * Listener)) (nid : nat) : World :=
  {| isConnected := isConnected w; server := server w; services := services w;
     characteristics := characteristics w;
     notifyCapableCharacteristics := notifyCapableCharacteristics w;
     activeCharacteristicSubscription := activeCharacteristicSubscription w;
     link_up := link_up w; connection := connection w; char_listeners := ls;
     notifying := notifying w; next_id := nid; peripheral := peripheral w |}.

Definition set_notifying (w : World) (ns : list string) : World :=
  {| isConnected := isConnected w; server := server w; services := services w;
     characteristics := characteristics w;
     notifyCapableCharacteristics := notifyCapableCharacteristics w;
     activeCharacteristicSubscription := activeCharacteristicSubscription w;
     link_up := link_up w; connection := connection w;
     char_listeners := char_listeners w; notifying := ns; next_id := next_id w;
     peripheral := peripheral w |}.

Definition set_active (w : World) (a : option (Characteristic * nat)) : World :=
  {| isConnected := isConnected w; server := server w; services := services w;
     characteristics := characteristics w;
     notifyCapableCharacteristics := notifyCapableCharacteristics w;
     activeCharacteristicSubscription := a;
     link_up := link_up w; connection := connection w;
     char_listeners := char_listeners w; notifying := notifying w; next_id := next_id w;
     peripheral := peripheral w |}.

Definition set_notifyCapable (w : World) (cs : list Characteristic) : World :=
  {| isConnected := isConnected w; server := server w; services := services w;
     characteristics := characteristics w;
     notifyCapableCharacteristics := cs;
     activeCharacteristicSubscription := activeCharacteristicSubscription w;
     link_up := link_up w; connection := connection w;
     char_listeners := char_listeners w; notifying := notifying w; next_id := next_id w;
     peripheral := peripheral w |}.

(** Assignments to [isConnected], [server], [services] and
    [characteristics]. *)
Definition set_fields (w : World) (isC srv : bool) (svcs chars : list string) : World :=
  {| isConnected := isC; server := srv; services := svcs; characteristics := chars;
     notifyCapableCharacteristics := notifyCapableCharacteristics w;
     activeCharacteristicSubscription := activeCharacteristicSubscription w;
     link_up := link_up w; connection := connection w;
     char_listeners := char_listeners w; notifying := notifying w; next_id := next_id w;
     peripheral := peripheral w |}.

(** The transport brings the link up. *)
Definition set_link_up (w : World) : World :=
  {| isConnected := isConnected w; server := server w; services := services w;
     characteristics := characteristics w;
     notifyCapableCharacteristics := notifyCapableCharacteristics w;
     activeCharacteristicSubscription := activeCharacteristicSubscription w;
     link_up := true; connection := connection w;
     char_listeners := char_listeners w; notifying := notifying w; next_id := next_id w;
     peripheral := peripheral w |}.

(** The transport loses the link: the GATT objects of the connection stop
    representing the device, and their listeners and notifications go
    with them. *)
Definition drop_link (w : World) : World :=
  {| isConnected := isConnected w; server := server w; services := services w;
     characteristics := characteristics w;
     notifyCapableCharacteristics := notifyCapableCharacteristics w;
     activeCharacteristicSubscription := activeCharacteristicSubscription w;
     link_up := false; connection := S (connection w);
     char_listeners := []; notifying := []; next_id := next_id w;
     peripheral := peripheral w |}.

Definition mem (s : string) (l : list string) : bool :=
  existsb (String.eqb s) l.

(** A characteristic object still represents the device's characteristic. *)
Definition live (w : World) (ch : Characteristic) : bool :=
  Nat.eqb (ch_conn ch) (connection w).

(** [ch.addEventListener('characteristicvaluechanged', f)] for a freshly
    created function [f]; on an object of an earlier connection the
    listener is never reached by a notification. *)
Definition addEventListener (w : World) (ch : Characteristic) (h : Handler) : World * nat :=
  let id := next_id w in
  if live w ch then
    (set_listeners w (char_listeners w ++ [(ch_uuid ch, {| l_id := id; l_handler := h |})])
       (S id), id)
  else (set_listeners w (char_listeners w) (S id), id).

(** [ch.removeEventListener('characteristicvaluechanged', f)] *)
Definition removeEventListener (w : World) (ch : Characteristic) (id : nat) : World :=
  if live w ch then
    set_listeners w
      (filter (fun p => negb (String.eqb (fst p) (ch_uuid ch) && Nat.eqb (l_id (snd p)) id))
         (char_listeners w))
      (next_id w)
  else w.

(** The body of one notification listener (device.js lines 201-271, the
    RX listener of [startControlRxNotifications] and the [handler] of
    [subscribeToCharacteristic]): decode, hand the record to the callback
    if one is set, and on a thrown error only [console.error]. *)
Definition run_handler (cb : Callbacks) (h : Handler) (bytes : DataView) : list Output :=
  match h with
  | HGeneralStatus =>
      match parseGeneralStatus bytes false with
      | Ok d => if onWorkoutData cb then [Emit (WorkoutData (RGeneralStatus d))] else []
      | Throw e => [ConsoleError e]
      end
  | HAdditionalStatus =>
      match parseAdditionalStatus bytes false with
      | Ok d => if onWorkoutData cb then [Emit (WorkoutData (RAdditionalStatus d))] else []
      | Throw e => [ConsoleError e]
      end
  | HStrokeData =>
      match parseStrokeData bytes false with
      | Ok d => if onStrokeData cb then [Emit (StrokeDataEvent d)] else []
      | Throw e => [ConsoleError e]
      end
  | HSplitData =>
      match parseSplitIntervalData bytes false with
      | Ok d => if onSplitData cb then [Emit (SplitDataEvent d)] else []
      | Throw e => [ConsoleError e]
      end
  | HControlRx =>
      if onControlRxData cb then [Emit (ControlRxData bytes)]
      else [ConsoleWarn "onControlRxData handler not set!"]
  | HCharacteristic u =>
      if onCharacteristicData cb then [Emit (CharacteristicData u bytes)] else []
  end.

Definition listeners_on (w : World) (c : string) : list Listener :=
  map snd (filter (fun p => String.eqb (fst p) c) (char_listeners w)).

(** *** A resumption monad for the [async] methods

    A method started on a world runs its first segment and either settles
    ([Done]) or suspends at an [await] ([Await k]): [k] is the next
    segment, run on the world found when the awaited promise settles. *)

Inductive Res (A : Type) : Type :=
  | Done (r : result A)
  | Await (k : World -> World * list Output * Res A).
Arguments Done {A} r.
Arguments Await {A} k.

(** Induction on the segments of a suspended method. *)
Fixpoint Res_rect' {A : Type} (P : Res A -> Type)
  (Hd : forall r, P (Done r))
  (Ha : forall k, (forall w, P (snd (k w))) -> P (Await k)) (r : Res A) : P r :=
  match r with
  | Done x => Hd x
  | Await k =>
      Ha k (fun w => match k w as p return P (snd p) with
                     | (_, r1) => Res_rect' P Hd Ha r1
                     end)
  end.

Definition Async (A : Type) : Type := World -> World * list Output * Res A.

Fixpoint bindRes {A B : Type} (r : Res A) (k : A -> Async B) (w : World)
  : World * list Output * Res B :=
  match r with
  | Done (Ok a) => k a w
  | Done (Throw e) => (w, [], Done (Throw e))
  | Await c =>
      (w, [], Await (fun w' =>
         let '(w1, o1, r1) := c w' in
         let '(w2, o2, r2) := bindRes r1 k w1 in (w2, o1 ++ o2, r2)))
  end.

Definition abind {A B : Type} (m : Async A) (k : A -> Async B) : Async B :=
  fun w =>
    let '(w1, o1, r1) := m w in
    let '(w2, o2, r2) := bindRes r1 k w1 in (w2, o1 ++ o2, r2).

Notation "x <- m ;; k" := (abind m (fun x => k))
  (at level 61, m at next level, right associativity).
Notation "m ;;; k" := (abind m (fun _ => k))
  (at level 61, right associativity).

Definition ret {A : Type} (a : A) : Async A := fun w => (w, [], Done (Ok a)).
Definition get : Async World := fun w => (w, [], Done (Ok w)).
Definition modify (f : World -> World) : Async unit := fun w => (f w, [], Done (Ok tt)).
Definition emit (o : list Output) : Async unit := fun w => (w, o, Done (Ok tt)).
Definition throw {A : Type} (e : JSError) : Async A := fun w => (w, [], Done (Throw e)).

(** [await p] on a promise [p] that is already settled with [r]: the
    method still gives up control until the next turn. *)
Definition settled {A : Type} (r : result A) : Res A := Await (fun w => (w, [], Done r)).

Definition rejected {A : Type} (e : JSError) : Async A := fun w => (w, [], settled (Throw e)).

Fixpoint catchRes {A : Type} (r : Res A) (h : JSError -> Async A) (w : World)
  : World * list Output * Res A :=
  match r with
  | Done (Ok a) => (w, [], Done (Ok a))
  | Done (Throw e) => h e w
  | Await c =>
      (w, [], Await (fun w' =>
         let '(w1, o1, r1) := c w' in
         let '(w2, o2, r2) := catchRes r1 h w1 in (w2, o1 ++ o2, r2)))
  end.

(** [try { m } catch (error) { h(error) }] *)
Definition try_catch {A : Type} (m : Async A) (h : JSError -> Async A) : Async A :=
  fun w =>
    let '(w1, o1, r1) := m w in
    let '(w2, o2, r2) := catchRes r1 h w1 in (w2, o1 ++ o2, r2).

(** [catch (error) { console.error(...); throw error; }] *)
Definition log_rethrow {A : Type} (e : JSError) : Async A :=
  emit [ConsoleError e] ;;; throw e.

(** [await this.f()] for an [async] method [f] of the class: the caller
    resumes one turn after [f]'s promise settles. *)
Fixpoint tick {A : Type} (r : Res A) : Res A :=
  match r with
  | Done x => settled x
  | Await c => Await (fun w => let '(w1, o1, r1) := c w in (w1, o1, tick r1))
  end.

Definition await_call {A : Type} (m : Async A) : Async A :=
  fun w => let '(w1, o1, r1) := m w in (w1, o1, tick r1).

(** A GATT request on an object of connection [g] (the server, a service
    or a characteristic). Rejected with a [NetworkError] when the link is
    down and with an [InvalidStateError] when the object belongs to an
    earlier connection; otherwise the request goes out, and [complete]
    runs when the PM5 answers, unless the connection is gone by then: the
    transport then rejects the pending request with a [NetworkError]. *)
Definition gatt {A : Type} (g : nat) (complete : World -> World * list Output * result A)
  : Async A :=
  fun w =>
    if negb (link_up w) then (w, [], settled (Throw (TransportError "NetworkError")))
    else if negb (Nat.eqb g (connection w))
    then (w, [], settled (Throw (TransportError "InvalidStateError")))
    else
      (w, [], Await (fun w' =>
         if link_up w' && Nat.eqb (connection w') g then
           let '(w1, o1, r) := complete w' in (w1, o1, Done r)
         else (w', [], Done (Throw (TransportError "NetworkError"))))).

(** *** Sequential execution

    A method runs to completion with nothing else happening in between:
    each suspended segment resumes at once. *)

Definition M (A : Type) : Type := World -> World * list Output * result A.

Fixpoint finish {A : Type} (r : Res A) (w : World) : World * list Output * result A :=
  match r with
  | Done x => (w, [], x)
  | Await c =>
      let '(w1, o1, r1) := c w in
      let '(w2, o2, x) := finish r1 w1 in (w2, o1 ++ o2, x)
  end.

Definition exec {A : Type} (m : Async A) : M A :=
  fun w =>
    let '(w1, o1, r1) := m w in
    let '(w2, o2, x) := finish r1 w1 in (w2, o1 ++ o2, x).

(** Sequential composition and [catch] of whole executions. *)
Definition mbind {A B : Type} (m : M A) (k : A -> M B) : M B :=
  fun w =>
    match m w with
    | (w1, o1, Ok a) => let '(w2, o2, r) := k a w1 in (w2, o1 ++ o2, r)
    | (w1, o1, Throw e) => (w1, o1, Throw e)
    end.

Definition mcatch {A : Type} (m : M A) (h : JSError -> M A) : M A :=
  fun w =>
    match m w with
    | (w1, o1, Throw e) => let '(w2, o2, r) := h e w1 in (w2, o1 ++ o2, r)
    | res => res
    end.

(** Invariants of segments: [quiet R Po r] says that every segment the
    suspended method [r] may still run relates the world before and after
    it by [R] and outputs a list satisfying [Po]; [quietA R Po m] says the
    same of every segment of [m], started on any world. *)
Inductive quiet {A : Type} (R : World -> World -> Prop) (Po : list Output -> Prop)
  : Res A -> Prop :=
  | quiet_done (r : result A) : quiet R Po (Done r)
  | quiet_await (k : World -> World * list Output * Res A) :
      (forall w, R w (fst (fst (k w))) /\ Po (snd (fst (k w))) /\ quiet R Po (snd (k w))) ->
      quiet R Po (Await k).

Definition quietA {A : Type} (R : World -> World -> Prop) (Po : list Output -> Prop)
  (m : Async A) : Prop :=
  forall w, R w (fst (fst (m w))) /\ Po (snd (fst (m w))) /\ quiet R Po (snd (m w)).

(** *** The Web Bluetooth calls *)

(** [this.server.getPrimaryService(uuid)], its result stored as
    [this.services.<key>]; a [TypeError] when [this.server] is [null], a
    [NotFoundError] when the PM5 has no such service. *)
Definition getPrimaryService (key uuid : string) : Async unit :=
  w <- get ;;
  if server w then
    gatt (connection w) (fun w =>
      if mem uuid (map fst (gatt_table (peripheral w))) then
        (set_fields w (isConnected w) (server w)
           (if mem key (services w) then services w else services w ++ [key])
           (characteristics w), [], Ok tt)
      else (w, [], Throw (TransportError "NotFoundError")))
  else throw (TypeError "this.server is null").

(** [this.services.<key>.getCharacteristic(uuid)]: a [TypeError] when
    [this.services.<key>] is [undefined]. *)
Definition getCharacteristic (key uuid : string) : Async Characteristic :=
  w <- get ;;
  if mem key (services w) then
    gatt (connection w) (fun w => (w, [], Ok {| ch_uuid := uuid; ch_conn := connection w |}))
  else throw (TypeError ("this.services." ++ key ++ " is undefined")).

(** [ch.startNotifications()] *)
Definition startNotifications (ch : Characteristic) : Async unit :=
  gatt (ch_conn ch) (fun w =>
    (set_notifying w (if mem (ch_uuid ch) (notifying w) then notifying w
                      else ch_uuid ch :: notifying w), [], Ok tt)).

(** [ch.stopNotifications()]: rejected with an [InvalidStateError] when
    [ch] no longer represents the device's characteristic. *)
Definition stopNotifications (ch : Characteristic) : Async unit :=
  fun w =>
    if live w ch then
      (set_notifying w (filter (fun x => negb (String.eqb (ch_uuid ch) x)) (notifying w)),
       [], settled (Ok tt))
    else (w, [], settled (Throw (TransportError "InvalidStateError"))).

(** [ch.readValue()], answered with [reply]. *)
Definition readValue (ch : Characteristic) (reply : result unit) : Async unit :=
  gatt (ch_conn ch) (fun w => (w, [], reply)).

(** [ch.writeValue(bytes)]: more than 512 bytes are rejected with an
    [InvalidModificationError] before anything is sent; otherwise the PM5
    answers the write. *)
Definition writeValue (ch : Characteristic) (bytes : list Z) : Async unit :=
  if Nat.ltb 512 (List.length bytes) then rejected (TransportError "InvalidModificationError")
  else
    gatt (ch_conn ch) (fun w =>
      match write_reply (peripheral w) with
      | Ok _ => (w, [TxWrite bytes], Ok tt)
      | Throw e => (w, [], Throw e)
      end).

Definition addListener (ch : Characteristic) (h : Handler) : Async nat :=
  fun w => let '(w1, id) := addEventListener w ch h in (w1, [], Done (Ok id)).

(** *** The methods *)

(** [getServices()] *)
Definition getServices : Async unit :=
  try_catch
    (getPrimaryService "information" INFORMATION_SERVICE ;;;
     getPrimaryService "control" CONTROL_SERVICE ;;;
     getPrimaryService "rowing" ROWING_SERVICE)
    log_rethrow.

(** One task of [readDeviceInformation]; a failure is only warned about. *)
Definition read_info (uuid : string) (reply : result unit) : Async unit :=
  try_catch
    (ch <- getCharacteristic "information" uuid ;;
     readValue ch reply)
    (fun e => emit [ConsoleError e]).

(** The tasks of the [Promise.all], in key order. *)
Fixpoint read_all (l : list (string * result unit)) : Async unit :=
  match l with
  | [] => ret tt
  | (uuid, reply) :: rest => read_info uuid reply ;;; read_all rest
  end.

(** [readDeviceInformation()]: the tasks are run one after the other (the
    PM5 answering them in key order); they touch only [deviceInfo], which
    is not modelled, and the console. Its own [catch] never rethrows. *)
Definition readDeviceInformation : Async unit :=
  w <- get ;;
  try_catch (await_call (read_all (info_replies (peripheral w))))
    (fun e => emit [ConsoleError e]).

(** [device.gatt.connect()]: rejected with an [AbortError] when the link
    it was called on is lost meanwhile, and with a [NetworkError] when the
    PM5 cannot be reached. *)
Definition gatt_connect : Async unit :=
  fun w =>
    (w, [], Await (fun w' =>
       if negb (Nat.eqb (connection w') (connection w))
       then (w', [], Done (Throw (TransportError "AbortError")))
       else if in_range (peripheral w') then (set_link_up w', [], Done (Ok tt))
       else (w', [], Done (Throw (TransportError "NetworkError"))))).

(** [connect()] *)
Definition connect : Async Ret :=
  try_catch
    (gatt_connect ;;;
     modify (fun w => set_fields w (isConnected w) true (services w) (characteristics w)) ;;;
     await_call getServices ;;;
     await_call readDeviceInformation ;;;
     modify (fun w => set_fields w true (server w) (services w) (characteristics w)) ;;;
     ret RetUndefined)
    log_rethrow.

(** [handleDisconnected()] *)
Definition handleDisconnected (cb : Callbacks) : Async unit :=
  modify (fun w => set_fields w false false [] []) ;;;
  if onDisconnected cb then emit [Emit Disconnected] else ret tt.

(** The transport loses the link and fires [gattserverdisconnected] at the
    device, whose one listener is the [handleDisconnected] bound in the
    constructor. *)
Definition linkLost (cb : Callbacks) : Async unit :=
  w <- get ;;
  if link_up w then modify drop_link ;;; handleDisconnected cb else ret tt.

(** [disconnect()]: [server.disconnect()] fires the same event. *)
Definition disconnect (cb : Callbacks) : Async Ret :=
  w <- get ;;
  (if server w && link_up w then linkLost cb else ret tt) ;;;
  ret RetUndefined.

(** One block of [startRowingDataNotifications]: [getCharacteristic],
    [startNotifications], [addEventListener] with a new arrow function. *)
Definition start_one (c : string) (h : Handler) : Async unit :=
  ch <- getCharacteristic "rowing" c ;;
  startNotifications ch ;;;
  _ <- addListener ch h ;;
  ret tt.

(** [startRowingDataNotifications()] (device.js lines 193-279) *)
Definition startRowingDataNotifications : Async Ret :=
  try_catch
    (start_one GENERAL_STATUS HGeneralStatus ;;;
     start_one ADDITIONAL_STATUS HAdditionalStatus ;;;
     start_one STROKE_DATA HStrokeData ;;;
     start_one SPLIT_INTERVAL_DATA HSplitData ;;;
     ret RetUndefined)
    log_rethrow.

(** One iteration of [stopRowingDataNotifications]: failures are only
    warned about; the listeners stay attached. *)
Definition stop_one (c : string) : Async unit :=
  try_catch
    (ch <- getCharacteristic "rowing" c ;;
     stopNotifications ch)
    (fun e => emit [ConsoleError e]).

Definition stopRowingDataNotifications : Async Ret :=
  try_catch
    (stop_one GENERAL_STATUS ;;; stop_one ADDITIONAL_STATUS ;;;
     stop_one STROKE_DATA ;;; stop_one SPLIT_INTERVAL_DATA ;;; ret RetUndefined)
    log_rethrow.

(** [startControlRxNotifications()] *)
Definition startControlRxNotifications : Async Ret :=
  try_catch
    (ch <- getCharacteristic "control" CONTROL_RECEIVE ;;
     startNotifications ch ;;;
     _ <- addListener ch HControlRx ;;
     ret RetTrue)
    log_rethrow.

(** [stopControlRxNotifications()] *)
Definition stopControlRxNotifications : Async Ret :=
  try_catch
    (ch <- getCharacteristic "control" CONTROL_RECEIVE ;;
     stopNotifications ch ;;;
     ret RetTrue)
    log_rethrow.

(** The notify-capable characteristics of one [getCharacteristics()]
    answer, as objects of connection [g]. *)
Fixpoint notify_chars (g : nat) (cs : list (string * bool)) : list Characteristic :=
  match cs with
  | [] => []
  | (u, notify) :: rest =>
      if notify then {| ch_uuid := u; ch_conn := g |} :: notify_chars g rest
      else notify_chars g rest
  end.

(** The [for (const service of services)] loop of the discovery over the
    service objects of connection [g]: [await service.getCharacteristics()]
    with its own [catch], which only warns. *)
Fixpoint discover_services (g : nat) (svcs : list (string * result (list (string * bool))))
  : Async (list Characteristic) :=
  match svcs with
  | [] => ret []
  | (_, reply) :: rest =>
      found <- try_catch
                 (cs <- gatt g (fun w => (w, [], reply)) ;;
                  ret (notify_chars g cs))
                 (fun e => emit [ConsoleError e] ;;; ret []) ;;
      more <- discover_services g rest ;;
      ret (found ++ more)
  end.

(** [discoverNotifyCapableCharacteristics()] *)
Definition discoverNotifyCapableCharacteristics : Async Ret :=
  try_catch
    (w <- get ;;
     if server w then
       svcs <- gatt (connection w) (fun w => (w, [], Ok (connection w, gatt_table (peripheral w)))) ;;
       notifyChars <- discover_services (fst svcs) (snd svcs) ;;
       modify (fun w => set_notifyCapable w notifyChars) ;;;
       ret (RetChars notifyChars)
     else throw (TypeError "this.server is null"))
    log_rethrow.

(** [unsubscribeFromCharacteristic()] *)
Definition unsubscribeFromCharacteristic : Async Ret :=
  w <- get ;;
  match activeCharacteristicSubscription w with
  | None => ret RetUndefined
  | Some (ch, id) =>
      try_catch
        (modify (fun w => removeEventListener w ch id) ;;;
         stopNotifications ch ;;;
         modify (fun w => set_active w None) ;;;
         ret RetUndefined)
        log_rethrow
  end.

(** [notifyCapableCharacteristics.find(c => c.uuid === uuid)] *)
Definition find_char (uuid : string) (cs : list Characteristic) : option Characteristic :=
  List.find (fun c => String.eqb (ch_uuid c) uuid) cs.

(** [subscribeToCharacteristic(uuid)] *)
Definition subscribeToCharacteristic (uuid : string) : Async Ret :=
  try_catch
    (w <- get ;;
     (match activeCharacteristicSubscription w with
      | Some _ => await_call unsubscribeFromCharacteristic ;;; ret tt
      | None => ret tt
      end) ;;;
     w1 <- get ;;
     match find_char uuid (notifyCapableCharacteristics w1) with
     | None =>
         throw (ErrorMsg ("Characteristic " ++ uuid ++ " not found in discovered characteristics"))
     | Some ch =>
         startNotifications ch ;;;
         id <- addListener ch (HCharacteristic uuid) ;;
         modify (fun w => set_active w (Some (ch, id))) ;;;
         ret RetTrue
     end)
    log_rethrow.

(** The transport delivers a notification on characteristic [c]: every
    listener registered on it runs, in registration order. *)
Definition notify (cb : Callbacks) (c : string) (bytes : DataView) : Async unit :=
  w <- get ;;
  if link_up w && mem c (notifying w) then
    emit (List.concat (map (fun l => run_handler cb (l_handler l) bytes) (listeners_on w c)))
  else ret tt.

(** *** [sendControlBytes(hexString)] *)

(** [/[0-9a-fA-F]/] *)
Definition is_hex_digit (c : ascii) : bool :=
  let n := nat_of_ascii c in
  (Nat.leb 48 n && Nat.leb n 57) || (Nat.leb 97 n && Nat.leb n 102)
  || (Nat.leb 65 n && Nat.leb n 70).

Definition hex_digit_value (c : ascii) : Z :=
  let n := Z.of_nat (nat_of_ascii c) in
  if n <=? 57 then n - 48 else if n <=? 70 then n - 55 else n - 87.

(** [hexString.replace(/[^0-9a-fA-F]/g, '')] *)
Definition cleanHex (s : string) : list ascii :=
  filter is_hex_digit (list_ascii_of_string s).

(** [parseInt(str, 16)] on a string of hex digits (the only strings the
    loop passes it): the value of the digits, [None] (NaN) when empty. *)
Definition parseInt16 (l : list ascii) : option Z :=
  match l with
  | [] => None
  | _ => Some (fold_left (fun acc c => 16 * acc + hex_digit_value c) l 0)
  end.

(** Assignment into a [Uint8Array] element. *)
Definition ToUint8 (x : option Z) : Z :=
  match x with Some z => z mod 256 | None => 0 end.

(** [for (let i = 0; i < cleanHex.length; i += 2)
       bytes[i / 2] = parseInt(cleanHex.substr(i, 2), 16);] *)
Fixpoint hexLoop (l : list ascii) : list Z :=
  match l with
  | c1 :: c2 :: rest => ToUint8 (parseInt16 [c1; c2]) :: hexLoop rest
  | [c1] => [ToUint8 (parseInt16 [c1])]
  | [] => []
  end.

Definition sendControlBytes (hexString : string) : Async Ret :=
  try_catch
    (let clean := cleanHex hexString in
     if Nat.odd (List.length clean) then throw OddHexError
     else
       let bytes := hexLoop clean in
       transmitChar <- getCharacteristic "control" CONTROL_TRANSMIT ;;
       writeValue transmitChar bytes ;;;
       ret RetTrue)
    log_rethrow.

(** *** Sessions *)

(** A call of a method by the demo, or an event of the transport. *)
Inductive Op : Type :=
  | OpConnect | OpDisconnect | OpLinkLost
  | OpStartRowing | OpStopRowing
  | OpStartControlRx | OpStopControlRx
  | OpDiscover
  | OpSubscribe (uuid : string) | OpUnsubscribe
  | OpNotify (c : string) (bytes : DataView)
  | OpSendControlBytes (hex : string).

Definition method (cb : Callbacks) (op : Op) : Async Ret :=
  match op with
  | OpConnect => connect
  | OpDisconnect => disconnect cb
  | OpLinkLost => linkLost cb ;;; ret RetUndefined
  | OpStartRowing => startRowingDataNotifications
  | OpStopRowing => stopRowingDataNotifications
  | OpStartControlRx => startControlRxNotifications
  | OpStopControlRx => stopControlRxNotifications
  | OpDiscover => discoverNotifyCapableCharacteristics
  | OpSubscribe uuid => subscribeToCharacteristic uuid
  | OpUnsubscribe => unsubscribeFromCharacteristic
  | OpNotify c bytes => notify cb c bytes ;;; ret RetUndefined
  | OpSendControlBytes hex => sendControlBytes hex
  end.

(** An operation awaited by its caller before the next one starts. *)
Definition step (cb : Callbacks) (op : Op) : M Ret := exec (method cb op).

(** A run: each operation's rejection goes to its caller, which the demo
    catches; the session goes on. *)
Fixpoint run (cb : Callbacks) (ops : list Op) (w : World) : World * list Output :=
  match ops with
  | [] => (w, [])
  | op :: rest =>
      let '(w1, o1, _) := step cb op w in
      let '(w2, o2) := run cb rest w1 in
      (w2, o1 ++ o2)
  end.

(** A PM5 with the services, characteristics and answers the code expects. *)
Definition pm5 : Peripheral :=
  {| in_range := true;
     gatt_table :=
       [(INFORMATION_SERVICE, Ok [("model_number"%string, false); ("serial_number"%string, false)]);
        (CONTROL_SERVICE, Ok [(CONTROL_RECEIVE, true); (CONTROL_TRANSMIT, false)]);
        (ROWING_SERVICE, Ok [(GENERAL_STATUS, true); (ADDITIONAL_STATUS, true);
                             (STROKE_DATA, true); (SPLIT_INTERVAL_DATA, true)])];
     info_replies := [("model_number"%string, Ok tt); ("serial_number"%string, Ok tt)];
     write_reply := Ok tt |}.

(** [new PM5Device(bluetoothDevice)] for the device [p]. *)
Definition initial_world_of (p : Peripheral) : World :=
  {| isConnected := false; server := false; services := []; characteristics := [];
     notifyCapableCharacteristics := []; activeCharacteristicSubscription := None;
     link_up := false; connection := 0; char_listeners := []; notifying := [];
     next_id := 0; peripheral := p |}.

Definition initial_world : World := initial_world_of pm5.

(** The callbacks the demo (part_001) assigns before [connect()]. *)
Definition demo_callbacks : Callbacks :=
  {| onDisconnected := true; onWorkoutData := true; onStrokeData := true;
     onSplitData := true; onControlRxData := true; onCharacteristicData := true |}.

(** *** Calls in flight

    The demo's buttons call methods without waiting for earlier calls,
    and the transport's events arrive at any time: a configuration holds
    the world and every call made so far with what remains of it. A
    scheduling step either starts a call (its first segment runs) or
    resumes the [n]-th call in flight (its next segment runs). Any order
    of resumptions is allowed, which includes every order the event loop
    can produce. *)









Definition consumer_events (os : list Output) : list ConsumerEvent :=
  flat_map (fun o => match o with Emit e => [e] | _ => [] end) os.












(** The record decoder each telemetry listener calls. *)
Definition handler_kind (h : Handler) : option RecordKind :=
  match h with
  | HGeneralStatus => Some KGeneralStatus
  | HAdditionalStatus => Some KAdditionalStatus
  | HStrokeData => Some KStrokeData
  | HSplitData => Some KSplitData
  | HControlRx | HCharacteristic _ => None
  end.

(** What one notification on [c] outputs. *)
Definition notify_outputs (cb : Callbacks) (w : World) (c : string) (bytes : DataView)
  : list Output :=
  if link_up w && mem c (notifying w) then
    List.concat (map (fun l => run_handler cb (l_handler l) bytes) (listeners_on w c))
  else [].

(** The listeners installed by [subscribeToCharacteristic], and what the
    recorded [activeCharacteristicSubscription] says they are: its handler
    while its characteristic object is live, none once the link that
    object belonged to is gone. *)
Definition is_char_handler (h : Handler) : bool :=
  match h with HCharacteristic _ => true | _ => false end.

Definition char_handlers (w : World) : list (string * Listener) :=
  filter (fun p => is_char_handler (l_handler (snd p))) (char_listeners w).

Definition recorded_handlers (w : World) : list (string * Listener) :=
  match activeCharacteristicSubscription w with
  | Some (ch, id) =>
      if live w ch then [(ch_uuid ch, {| l_id := id; l_handler := HCharacteristic (ch_uuid ch) |})]
      else []
  | None => []
  end.

(** In a sequential run the raw-data handlers attached are exactly the
    one the record names, and the recorded object belongs to the current
    connection or an earlier one. *)
Definition subscription_tracked (w : World) : Prop :=
  (char_handlers w = recorded_handlers w /\
   forall ch id, activeCharacteristicSubscription w = Some (ch, id) ->
                 (ch_conn ch <= connection w)%nat)%type.

(** Deliveries of raw characteristic data to the consumer. *)
Definition is_char_delivery (o : Output) : bool :=
  match o with Emit (CharacteristicData _ _) => true | _ => false end.

Definition char_deliveries (os : list Output) : nat :=
  List.length (filter is_char_delivery os).


(** Segments that leave the connection, the recorded subscription and the
    raw-data handlers as they are, with any outputs. *)
Definition keeps_subscription (w w' : World) : Prop :=
  (connection w' = connection w /\
   activeCharacteristicSubscription w' = activeCharacteristicSubscription w /\
   char_handlers w' = char_handlers w)%type.

Definition any_outputs (os : list Output) : Prop := True.

(** Segments that leave the listeners, the notifications, the recorded
    subscription and the connection as they are, and hand nothing to the
    consumer. *)
Definition keeps_gatt_state (w w' : World) : Prop :=
  (char_listeners w' = char_listeners w /\ notifying w' = notifying w /\
   activeCharacteristicSubscription w' = activeCharacteristicSubscription w /\
   connection w' = connection w)%type.

Definition no_consumer_events (os : list Output) : Prop := consumer_events os = [].
(** ** The command codec *)

(** Modelled from the spec: csafe.js ([CSAFECommandBuilder.build],
    [parseCSAFEResponse]), which part_003 imports, is not part of the
    repository. The spec's CommandCodec: a frame is a length byte (the
    number of command bytes), the opcode, the parameter bytes, and an
    integrity byte, here the XOR of the command bytes. Encoding rejects
    values that are not bytes; decoding reports truncation as
    [FormatError{expected, actual}] and a bad integrity byte as a checksum
    error. *)
Inductive CodecError : Type :=
  | FormatError (expected actual : Z)
  | ChecksumError
  | ByteRangeError (value : Z).

Definition is_byte (b : Z) : bool := (0 <=? b) && (b <? 256).

Definition checksum (bs : list Z) : Z := fold_left Z.lxor bs 0.

Definition encodeCommand (opcode : Z) (params : list Z) : list Z + CodecError :=
  let body := opcode :: params in
  match find (fun b => negb (is_byte b)) body with
  | Some b => inr (ByteRangeError b)
  | None =>
      if Z.of_nat (List.length body) <? 256
      then inl (Z.of_nat (List.length body) :: body ++ [checksum body])
      else inr (ByteRangeError (Z.of_nat (List.length body)))
  end.

Definition decodeFrame (frame : list Z) : (Z * list Z) + CodecError :=
  match frame with
  | [] => inr (FormatError 3 0)
  | len :: rest =>
      if (len <? 1) || (Z.of_nat (List.length rest) <? len + 1)
      then inr (FormatError (Z.max 3 (len + 2)) (Z.of_nat (List.length frame)))
      else
        let body := firstn (Z.to_nat len) rest in
        if checksum body =? nth (Z.to_nat len) rest 0 then
          match body with
          | opcode :: params => inl (opcode, params)
          | [] => inr (FormatError 3 (Z.of_nat (List.length frame)))
          end
        else inr ChecksumError
  end.

(** The byte sequence of the spec's first testable property. *)
Definition sample_general_status : DataView :=
  [Byte.x64; Byte.x00; Byte.x00; Byte.xe8; Byte.x03; Byte.x00; Byte.x01;
   Byte.x00; Byte.x01; Byte.x01; Byte.x02; Byte.x00; Byte.x00; Byte.x00;
   Byte.x00; Byte.x00; Byte.x00; Byte.x00; Byte.x73].

(** ** More of parsers.js and of the notification handlers *)

(** The [switch] of [parseMultiplexedData]: the record a tag selects. *)
Definition tag_kind (tag : Z) : option RecordKind :=
  if tag =? 0x31 then Some KGeneralStatus
  else if tag =? 0x32 then Some KAdditionalStatus
  else if tag =? 0x35 then Some KStrokeData
  else if tag =? 0x37 then Some KSplitData
  else None.

(** A digit of [Number.prototype.toString(16)]: [0-9a-f]. *)
Definition hex_digit_char (d : Z) : ascii :=
  ascii_of_nat (Z.to_nat (if d <? 10 then 48 + d else 87 + d)).

(** [n.toString(16)] for a [Uint8Array] element [0 <= n < 256]. *)
Definition toString16_byte (n : Z) : list ascii :=
  if n <? 16 then [hex_digit_char n]
  else [hex_digit_char (n / 16); hex_digit_char (n mod 16)].

(** [s.padStart(2, '0')] *)
Definition padStart2 (s : list ascii) : list ascii :=
  repeat "0"%char (2 - List.length s) ++ s.

(** [byte => byte.toString(16).padStart(2, '0')] *)
Definition byteToHex (b : Z) : list ascii := padStart2 (toString16_byte b).

(** [array.join(sep)] on strings *)
Fixpoint join (sep : list ascii) (l : list (list ascii)) : list ascii :=
  match l with
  | [] => []
  | [x] => x
  | x :: rest => x ++ sep ++ join sep rest
  end.

(** [dataViewToHex(dataView)] (parsers.js): the bytes of the view, two
    lower-case hex digits each, separated by single spaces. *)
Definition dataViewToHex (dv : DataView) : string :=
  string_of_list_ascii (join [" "%char] (map (fun b => byteToHex (byte_val b)) dv)).

(** The [hexString] the raw-data handlers of [subscribeToCharacteristic]
    and [startControlRxNotifications] hand on with the [bytes]:
    [Array.from(bytes, b => b.toString(16).padStart(2, '0')).join('')],
    where [bytes] is [new Uint8Array(dataView.buffer)] (a notification's
    view spans its whole buffer). *)
Definition bytesToHexString (dv : DataView) : string :=
  string_of_list_ascii (join [] (map (fun b => byteToHex (byte_val b)) dv)).

(** The two digits of each byte, most significant first. *)
Definition byte_digits (b : Byte.byte) : list ascii :=
  [hex_digit_char (byte_val b / 16); hex_digit_char (byte_val b mod 16)].

(** The four telemetry characteristics of [startRowingDataNotifications]. *)
Definition rowing_chars : list string :=
  [GENERAL_STATUS; ADDITIONAL_STATUS; STROKE_DATA; SPLIT_INTERVAL_DATA].

(** ** [readDeviceInformation]: the [deviceInfo] field names *)

(** [String.prototype.toLowerCase] on one UTF-16 code unit below 256: the
    Basic Latin and Latin-1 capitals (U+0041-U+005A, U+00C0-U+00DE except
    U+00D7) map to the code unit 32 above; every other one is unchanged. *)
Definition toLowerCase_char (c : ascii) : ascii :=
  let n := nat_of_ascii c in
  if (Nat.leb 65 n && Nat.leb n 90)
     || (Nat.leb 192 n && Nat.leb n 222 && negb (Nat.eqb n 215))
  then ascii_of_nat (n + 32) else c.

(** [/[a-z]/] *)
Definition is_lower_az (c : ascii) : bool :=
  let n := nat_of_ascii c in Nat.leb 97 n && Nat.leb n 122.

(** [g[1].toUpperCase()] on a match of [[a-z]]. *)
Definition toUpperCase_az (c : ascii) : ascii := ascii_of_nat (nat_of_ascii c - 32).

(** [s.replace(/_([a-z])/g, (g) => g[1].toUpperCase())]: the matches are
    found left to right, each one resuming the scan after the previous. *)
Fixpoint replace_underscore_lower (l : list ascii) : list ascii :=
  match l with
  | [] => []
  | c :: rest =>
      if Ascii.eqb c "_"%char then
        match rest with
        | d :: rest' =>
            if is_lower_az d then toUpperCase_az d :: replace_underscore_lower rest'
            else c :: replace_underscore_lower rest
        | [] => [c]
        end
      else c :: replace_underscore_lower rest
  end.

(** [key.toLowerCase().replace(/_([a-z])/g, (g) => g[1].toUpperCase())]
    in [readDeviceInformation], the [deviceInfo] field a key is stored
    under. *)
Definition fieldName (key : string) : string :=
  string_of_list_ascii
    (replace_underscore_lower (map toLowerCase_char (list_ascii_of_string key))).

(** Reading a field name back: an underscore before each ASCII capital,
    which is lowered. *)
Fixpoint snake_of_camel (l : list ascii) : list ascii :=
  match l with
  | [] => []
  | c :: rest =>
      let n := nat_of_ascii c in
      if Nat.leb 65 n && Nat.leb n 90
      then "_"%char :: ascii_of_nat (n + 32) :: snake_of_camel rest
      else c :: snake_of_camel rest
  end.

(** [/[A-Z]/] *)
Definition is_upper_az (c : ascii) : bool :=
  let n := nat_of_ascii c in Nat.leb 65 n && Nat.leb n 90.


(** * Proofs about the parsers *)

Lemma byteLength_app (dv extra : DataView) :
  byteLength (dv ++ extra) = byteLength dv + byteLength extra.
Proof. unfold byteLength. rewrite length_app. lia. Qed.

Lemma byteLength_nonneg (dv : DataView) : 0 <= byteLength dv.
Proof. unfold byteLength. lia. Qed.

Lemma getUint8_in (dv : DataView) (o : Z) :
  0 <= o < byteLength dv ->
  exists b, nth_error dv (Z.to_nat o) = Some b /\ getUint8 dv o = Ok (byte_val b).
Proof.
  intros Ho. unfold getUint8.
  destruct (nth_error dv (Z.to_nat o)) as [b|] eqn:E.
  - exists b. split; [reflexivity|].
    replace ((0 <=? o) && (o <? byteLength dv)) with true; [reflexivity|].
    symmetry. apply andb_true_intro. split; apply Z.leb_le || apply Z.ltb_lt; lia.
  - exfalso. apply nth_error_None in E. unfold byteLength in Ho. lia.
Qed.

Lemma getUint8_ok (dv : DataView) (o : Z) :
  0 <= o < byteLength dv -> exists v, getUint8 dv o = Ok v.
Proof.
  intros Ho. destruct (getUint8_in dv o Ho) as [b [_ E]]. eauto.
Qed.

Lemma getUint8_app (dv extra : DataView) (o : Z) :
  0 <= o < byteLength dv -> getUint8 (dv ++ extra) o = getUint8 dv o.
Proof.
  intros Ho. destruct (getUint8_in dv o Ho) as [b [Eb E]]. rewrite E.
  assert (Ho' : 0 <= o < byteLength (dv ++ extra))
    by (rewrite byteLength_app; pose proof (byteLength_nonneg extra); lia).
  destruct (getUint8_in (dv ++ extra) o Ho') as [b' [Eb' E']]. rewrite E'.
  rewrite nth_error_app1 in Eb' by (unfold byteLength in Ho; lia).
  congruence.
Qed.

Lemma getUint16LE_app (dv extra : DataView) (o : Z) :
  0 <= o -> o + 2 <= byteLength dv ->
  getUint16LE (dv ++ extra) o = getUint16LE dv o.
Proof.
  intros H0 H1. unfold getUint16LE.
  pose proof (byteLength_nonneg extra).
  replace ((0 <=? o) && (o + 2 <=? byteLength (dv ++ extra))) with true
    by (symmetry; rewrite byteLength_app; apply andb_true_intro; split;
        apply Z.leb_le; lia).
  replace ((0 <=? o) && (o + 2 <=? byteLength dv)) with true
    by (symmetry; apply andb_true_intro; split; apply Z.leb_le; lia).
  rewrite !getUint8_app by lia. reflexivity.
Qed.

Lemma getUint16LE_ok (dv : DataView) (o : Z) :
  0 <= o -> o + 2 <= byteLength dv -> exists v, getUint16LE dv o = Ok v.
Proof.
  intros H0 H1. unfold getUint16LE.
  replace ((0 <=? o) && (o + 2 <=? byteLength dv)) with true
    by (symmetry; apply andb_true_intro; split; apply Z.leb_le; lia).
  destruct (getUint8_ok dv o) as [v0 E0]; [lia|]. rewrite E0. cbn [bind].
  destruct (getUint8_ok dv (o + 1)) as [v1 E1]; [lia|]. rewrite E1. cbn [bind].
  eauto.
Qed.

Lemma readInt24LE_app (dv extra : DataView) (o : Z) :
  0 <= o -> o + 3 <= byteLength dv ->
  readInt24LE (dv ++ extra) o = readInt24LE dv o.
Proof.
  intros H0 H1. unfold readInt24LE. rewrite !getUint8_app by lia. reflexivity.
Qed.

Lemma readInt24LE_ok (dv : DataView) (o : Z) :
  0 <= o -> o + 3 <= byteLength dv -> exists v, readInt24LE dv o = Ok v.
Proof.
  intros H0 H1. unfold readInt24LE.
  destruct (getUint8_ok dv o) as [v0 E0]; [lia|]. rewrite E0. cbn [bind].
  destruct (getUint8_ok dv (o + 1)) as [v1 E1]; [lia|]. rewrite E1. cbn [bind].
  destruct (getUint8_ok dv (o + 2)) as [v2 E2]; [lia|]. rewrite E2. cbn [bind].
  eauto.
Qed.

Lemma readInt16LE_app (dv extra : DataView) (o : Z) :
  0 <= o -> o + 2 <= byteLength dv ->
  readInt16LE (dv ++ extra) o = readInt16LE dv o.
Proof. apply getUint16LE_app. Qed.

Lemma readInt16LE_ok (dv : DataView) (o : Z) :
  0 <= o -> o + 2 <= byteLength dv -> exists v, readInt16LE dv o = Ok v.
Proof. apply getUint16LE_ok. Qed.

Lemma mux_offset_range (m : bool) : 0 <= mux_offset m <= 1.
Proof. destruct m; cbn; lia. Qed.

(** Every read of a parser below its checked length succeeds. *)
Ltac reads_ok :=
  repeat match goal with
  | |- context [bind (getUint8 ?dv ?o) _] =>
      let v := fresh "v" in let E := fresh "E" in
      destruct (getUint8_ok dv o) as [v E]; [lia | rewrite E; cbn [bind]]
  | |- context [bind (readInt16LE ?dv ?o) _] =>
      let v := fresh "v" in let E := fresh "E" in
      destruct (readInt16LE_ok dv o) as [v E]; [lia | lia | rewrite E; cbn [bind]]
  | |- context [bind (readInt24LE ?dv ?o) _] =>
      let v := fresh "v" in let E := fresh "E" in
      destruct (readInt24LE_ok dv o) as [v E]; [lia | lia | rewrite E; cbn [bind]]
  end.

(** Reads below the checked length do not see trailing bytes. *)
Ltac reads_app :=
  repeat first
    [ rewrite getUint8_app by lia
    | rewrite readInt16LE_app by lia
    | rewrite readInt24LE_app by lia ].

Ltac parser_prelude m dv H :=
  cbv zeta; pose proof (mux_offset_range m); pose proof (byteLength_nonneg dv);
  rewrite (proj2 (Z.ltb_ge _ _) H).

Lemma parseGeneralStatus_ok (dv : DataView) (m : bool) :
  19 + mux_offset m <= byteLength dv -> exists r, parseGeneralStatus dv m = Ok r.
Proof. intros H. unfold parseGeneralStatus. parser_prelude m dv H. reads_ok. eauto. Qed.

Lemma parseAdditionalStatus_ok (dv : DataView) (m : bool) :
  16 + mux_offset m <= byteLength dv -> exists r, parseAdditionalStatus dv m = Ok r.
Proof. intros H. unfold parseAdditionalStatus. parser_prelude m dv H. reads_ok. eauto. Qed.

Lemma parseStrokeData_ok (dv : DataView) (m : bool) :
  20 + mux_offset m <= byteLength dv -> exists r, parseStrokeData dv m = Ok r.
Proof. intros H. unfold parseStrokeData. parser_prelude m dv H. reads_ok. eauto. Qed.

Lemma parseSplitIntervalData_ok (dv : DataView) (m : bool) :
  18 + mux_offset m <= byteLength dv -> exists r, parseSplitIntervalData dv m = Ok r.
Proof. intros H. unfold parseSplitIntervalData. parser_prelude m dv H. reads_ok. eauto. Qed.

Ltac parser_app m dv extra H :=
  pose proof (byteLength_nonneg extra);
  assert (H' : byteLength (dv ++ extra) >= byteLength dv)
    by (rewrite byteLength_app; lia);
  cbv zeta; pose proof (mux_offset_range m); pose proof (byteLength_nonneg dv);
  rewrite (proj2 (Z.ltb_ge _ _) H);
  rewrite (proj2 (Z.ltb_ge _ _) (Z.le_trans _ _ _ H (Z.ge_le _ _ H')));
  reads_app; reflexivity.

Lemma parseGeneralStatus_app (dv extra : DataView) (m : bool) :
  19 + mux_offset m <= byteLength dv ->
  parseGeneralStatus (dv ++ extra) m = parseGeneralStatus dv m.
Proof. intros H. unfold parseGeneralStatus. parser_app m dv extra H. Qed.

Lemma parseAdditionalStatus_app (dv extra : DataView) (m : bool) :
  16 + mux_offset m <= byteLength dv ->
  parseAdditionalStatus (dv ++ extra) m = parseAdditionalStatus dv m.
Proof. intros H. unfold parseAdditionalStatus. parser_app m dv extra H. Qed.

Lemma parseStrokeData_app (dv extra : DataView) (m : bool) :
  20 + mux_offset m <= byteLength dv ->
  parseStrokeData (dv ++ extra) m = parseStrokeData dv m.
Proof. intros H. unfold parseStrokeData. parser_app m dv extra H. Qed.

Lemma parseSplitIntervalData_app (dv extra : DataView) (m : bool) :
  18 + mux_offset m <= byteLength dv ->
  parseSplitIntervalData (dv ++ extra) m = parseSplitIntervalData dv m.
Proof. intros H. unfold parseSplitIntervalData. parser_app m dv extra H. Qed.

Lemma decode_short (k : RecordKind) (dv : DataView) (m : bool) :
  byteLength dv < min_length k + mux_offset m ->
  decode k dv m
  = Throw (LengthError (record_name k) (byteLength dv) (min_length k + mux_offset m)).
Proof.
  intros H. apply Z.ltb_lt in H.
  destruct k; cbn [decode min_length record_name] in *;
    [unfold parseGeneralStatus | unfold parseAdditionalStatus
    | unfold parseStrokeData | unfold parseSplitIntervalData];
    cbv zeta; rewrite H; reflexivity.
Qed.

Lemma decode_long (k : RecordKind) (dv : DataView) (m : bool) :
  min_length k + mux_offset m <= byteLength dv -> exists r, decode k dv m = Ok r.
Proof.
  intros H. destruct k; cbn [decode min_length] in *.
  - destruct (parseGeneralStatus_ok dv m H) as [r ->]. eexists; reflexivity.
  - destruct (parseAdditionalStatus_ok dv m H) as [r ->]. eexists; reflexivity.
  - destruct (parseStrokeData_ok dv m H) as [r ->]. eexists; reflexivity.
  - destruct (parseSplitIntervalData_ok dv m H) as [r ->]. eexists; reflexivity.
Qed.

Lemma decode_app (k : RecordKind) (dv extra : DataView) (m : bool) :
  min_length k + mux_offset m <= byteLength dv ->
  decode k (dv ++ extra) m = decode k dv m.
Proof.
  intros H. destruct k; cbn [decode min_length] in *.
  - rewrite parseGeneralStatus_app by exact H. reflexivity.
  - rewrite parseAdditionalStatus_app by exact H. reflexivity.
  - rewrite parseStrokeData_app by exact H. reflexivity.
  - rewrite parseSplitIntervalData_app by exact H. reflexivity.
Qed.

(** C2: for every record kind, decoding throws the length error, which
    reports the actual length and the expected length (the minimum, plus
    one when multiplexed), exactly when the input is shorter than that
    minimum; any input of at least the minimum decodes, and bytes after
    it do not change the result. *)
Theorem decode_length_contract (k : RecordKind) (dv : DataView) (m : bool) :
  (decode k dv m
     = Throw (LengthError (record_name k) (byteLength dv) (min_length k + mux_offset m))
   <-> byteLength dv < min_length k + mux_offset m)
  /\ (min_length k + mux_offset m <= byteLength dv ->
      is_ok (decode k dv m) = true
      /\ forall extra : DataView, decode k (dv ++ extra) m = decode k dv m).
Proof.
  split; [split|].
  - intros E. destruct (Z.lt_ge_cases (byteLength dv) (min_length k + mux_offset m))
      as [Hl|Hg]; [exact Hl|].
    destruct (decode_long k dv m Hg) as [r Er]. congruence.
  - apply decode_short.
  - intros H. split.
    + destruct (decode_long k dv m H) as [r ->]. reflexivity.
    + intros extra. apply decode_app, H.
Qed.

(** ** Byte assembly *)

Lemma byte_val_range (b : Byte.byte) : 0 <= byte_val b < 256.
Proof.
  unfold byte_val. pose proof (Byte.to_N_bounded b). lia.
Qed.

Lemma ToInt32_small (x : Z) : 0 <= x < 2 ^ 31 -> ToInt32 x = x.
Proof.
  intros H. unfold ToInt32. rewrite Z.mod_small by lia.
  destruct (Z.leb_spec (2 ^ 31) x); lia.
Qed.

Lemma js_shl_byte (x k : Z) :
  0 <= x < 256 -> 0 <= k <= 16 -> js_shl x k = Z.shiftl x k /\ Z.shiftl x k = x * 2 ^ k.
Proof.
  intros Hx Hk. assert (Hs : Z.shiftl x k = x * 2 ^ k) by (apply Z.shiftl_mul_pow2; lia).
  split; [|exact Hs].
  unfold js_shl. rewrite (ToInt32_small x) by lia.
  rewrite Z.mod_small by lia. rewrite Hs. apply ToInt32_small.
  assert (Hp : 0 < 2 ^ k) by (apply Z.pow_pos_nonneg; lia).
  split; [apply Z.mul_nonneg_nonneg; lia|].
  apply Z.lt_le_trans with (256 * 2 ^ k); [apply Z.mul_lt_mono_pos_r; lia|].
  replace (2 ^ 31) with (2 ^ 8 * 2 ^ 23) by reflexivity.
  apply Z.mul_le_mono_nonneg; try lia.
  apply Z.pow_le_mono_r; lia.
Qed.

Lemma land_shiftl_low (a b k : Z) :
  0 <= k -> 0 <= a < 2 ^ k -> Z.land a (Z.shiftl b k) = 0.
Proof.
  intros Hk Ha. apply Z.bits_inj'. intros n Hn.
  rewrite Z.land_spec, Z.bits_0.
  destruct (Z.lt_ge_cases n k) as [Hl|Hg].
  - rewrite Z.shiftl_spec_low by exact Hl. apply andb_false_r.
  - destruct (Z.eq_dec a 0) as [->|Hnz]; [rewrite Z.bits_0; reflexivity|].
    rewrite Z.bits_above_log2; [reflexivity|lia|].
    assert (Z.log2 a < k) by (apply (Z.log2_lt_pow2 a k); lia). lia.
Qed.

Lemma lor_shiftl_add (a b k : Z) :
  0 <= k -> 0 <= a < 2 ^ k -> Z.lor a (Z.shiftl b k) = a + Z.shiftl b k.
Proof.
  intros Hk Ha. pose proof (land_shiftl_low a b k Hk Ha) as H0.
  rewrite <- Z.lxor_lor by exact H0. symmetry. apply Z.add_nocarry_lxor, H0.
Qed.

(** C9: [readInt24LE] reads three bytes in little-endian order and
    assembles them as [b0 | b1<<8 | b2<<16] without sign extension: the
    value is [b0 + 256*b1 + 65536*b2], in [0, 2^24); [readInt16LE] at
    the same place is the little-endian [b0 + 256*b1]. *)
Theorem readInt24LE_little_endian_unsigned (dv : DataView) (o : Z) :
  0 <= o -> o + 3 <= byteLength dv ->
  exists b0 b1 b2 : Byte.byte,
    nth_error dv (Z.to_nat o) = Some b0 /\
    nth_error dv (Z.to_nat (o + 1)) = Some b1 /\
    nth_error dv (Z.to_nat (o + 2)) = Some b2 /\
    readInt24LE dv o
      = Ok (Z.lor (Z.lor (byte_val b0) (Z.shiftl (byte_val b1) 8))
                  (Z.shiftl (byte_val b2) 16)) /\
    readInt24LE dv o = Ok (byte_val b0 + 256 * byte_val b1 + 65536 * byte_val b2) /\
    0 <= byte_val b0 + 256 * byte_val b1 + 65536 * byte_val b2 < 2 ^ 24 /\
    readInt16LE dv o = Ok (byte_val b0 + 256 * byte_val b1).
Proof.
  intros H0 H1.
  destruct (getUint8_in dv o) as [b0 [N0 E0]]; [lia|].
  destruct (getUint8_in dv (o + 1)) as [b1 [N1 E1]]; [lia|].
  destruct (getUint8_in dv (o + 2)) as [b2 [N2 E2]]; [lia|].
  exists b0, b1, b2.
  pose proof (byte_val_range b0). pose proof (byte_val_range b1).
  pose proof (byte_val_range b2).
  destruct (js_shl_byte (byte_val b1) 8) as [S1 M1]; [lia|lia|].
  destruct (js_shl_byte (byte_val b2) 16) as [S2 M2]; [lia|lia|].
  assert (Hsum : readInt24LE dv o
                 = Ok (byte_val b0 + 256 * byte_val b1 + 65536 * byte_val b2)).
  { unfold readInt24LE. rewrite E0, E1, E2. cbn [bind].
    rewrite S1, S2, M1, M2. f_equal.
    change (2 ^ 8) with 256. change (2 ^ 16) with 65536. lia. }
  assert (Hlor : Z.lor (Z.lor (byte_val b0) (Z.shiftl (byte_val b1) 8))
                       (Z.shiftl (byte_val b2) 16)
                 = byte_val b0 + 256 * byte_val b1 + 65536 * byte_val b2).
  { change (2 ^ 8) with 256 in M1. change (2 ^ 16) with 65536 in M2.
    rewrite (lor_shiftl_add (byte_val b0) (byte_val b1) 8)
      by (change (2 ^ 8) with 256; lia).
    rewrite M1.
    rewrite lor_shiftl_add by (change (2 ^ 16) with 65536; lia).
    rewrite M2. lia. }
  split; [exact N0|]. split; [exact N1|]. split; [exact N2|].
  split; [rewrite Hlor; exact Hsum|]. split; [exact Hsum|].
  split; [change (2 ^ 24) with 16777216; lia|].
  unfold readInt16LE, getUint16LE.
  replace ((0 <=? o) && (o + 2 <=? byteLength dv)) with true
    by (symmetry; apply andb_true_intro; split; apply Z.leb_le; lia).
  rewrite E0, E1. cbn [bind]. f_equal. lia.
Qed.

(** ** Reading a multiplexed frame at offset 1 *)

Lemma byteLength_cons (b : Byte.byte) (p : DataView) :
  byteLength (b :: p) = byteLength p + 1.
Proof. unfold byteLength. cbn [List.length]. lia. Qed.

Lemma getUint8_cons (b : Byte.byte) (p : DataView) (o : Z) :
  1 <= o <= byteLength p -> getUint8 (b :: p) o = getUint8 p (o - 1).
Proof.
  intros Ho.
  destruct (getUint8_in (b :: p) o) as [x [Nx Ex]]; [rewrite byteLength_cons; lia|].
  destruct (getUint8_in p (o - 1)) as [y [Ny Ey]]; [lia|].
  rewrite Ex, Ey. replace (Z.to_nat o) with (S (Z.to_nat (o - 1))) in Nx by lia.
  cbn in Nx. congruence.
Qed.

Lemma readInt24LE_cons (b : Byte.byte) (p : DataView) (o : Z) :
  1 <= o -> o + 2 <= byteLength p -> readInt24LE (b :: p) o = readInt24LE p (o - 1).
Proof.
  intros H0 H1. unfold readInt24LE. rewrite !getUint8_cons by lia.
  replace (o + 1 - 1) with (o - 1 + 1) by lia.
  replace (o + 2 - 1) with (o - 1 + 2) by lia. reflexivity.
Qed.

Lemma readInt16LE_cons (b : Byte.byte) (p : DataView) (o : Z) :
  1 <= o -> o + 1 <= byteLength p -> readInt16LE (b :: p) o = readInt16LE p (o - 1).
Proof.
  intros H0 H1. unfold readInt16LE, getUint16LE. rewrite byteLength_cons.
  replace ((0 <=? o) && (o + 2 <=? byteLength p + 1)) with true
    by (symmetry; apply andb_true_intro; split; apply Z.leb_le; lia).
  replace ((0 <=? o - 1) && (o - 1 + 2 <=? byteLength p)) with true
    by (symmetry; apply andb_true_intro; split; apply Z.leb_le; lia).
  rewrite !getUint8_cons by lia.
  replace (o + 1 - 1) with (o - 1 + 1) by lia. reflexivity.
Qed.

Lemma getUint8_in_head (b : Byte.byte) (p : DataView) :
  getUint8 (b :: p) 0 = Ok (byte_val b).
Proof.
  destruct (getUint8_in (b :: p) 0) as [x [Nx Ex]];
    [rewrite byteLength_cons; pose proof (byteLength_nonneg p); lia|].
  cbn in Nx. congruence.
Qed.

Ltac shift_reads :=
  repeat match goal with
  | |- context [getUint8 (?b :: ?p) ?o] => rewrite (getUint8_cons b p o) by lia
  | |- context [readInt16LE (?b :: ?p) ?o] => rewrite (readInt16LE_cons b p o) by lia
  | |- context [readInt24LE (?b :: ?p) ?o] => rewrite (readInt24LE_cons b p o) by lia
  end.

Ltac shifted_parser n b p H :=
  cbv zeta; cbn [mux_offset];
  let H1 := fresh in let H0 := fresh in
  assert (H1 : n + 1 <= byteLength (b :: p)) by (rewrite byteLength_cons; lia);
  assert (H0 : n + 0 <= byteLength p) by lia;
  rewrite (proj2 (Z.ltb_ge _ _) H1), (proj2 (Z.ltb_ge _ _) H0);
  shift_reads; reflexivity.

Lemma parseGeneralStatus_shift (b : Byte.byte) (p : DataView) :
  19 <= byteLength p -> parseGeneralStatus (b :: p) true = parseGeneralStatus p false.
Proof. intros H. unfold parseGeneralStatus. shifted_parser 19 b p H. Qed.

Lemma parseAdditionalStatus_shift (b : Byte.byte) (p : DataView) :
  16 <= byteLength p -> parseAdditionalStatus (b :: p) true = parseAdditionalStatus p false.
Proof. intros H. unfold parseAdditionalStatus. shifted_parser 16 b p H. Qed.

Lemma parseStrokeData_shift (b : Byte.byte) (p : DataView) :
  20 <= byteLength p -> parseStrokeData (b :: p) true = parseStrokeData p false.
Proof. intros H. unfold parseStrokeData. shifted_parser 20 b p H. Qed.

Lemma parseSplitIntervalData_shift (b : Byte.byte) (p : DataView) :
  18 <= byteLength p -> parseSplitIntervalData (b :: p) true = parseSplitIntervalData p false.
Proof. intros H. unfold parseSplitIntervalData. shifted_parser 18 b p H. Qed.

(** ** Claims on the telemetry codec *)

(** C1: decoding [64 00 00 E8 03 00 01 00 01 01 02 00 00 00 00 00 00 00 73]
    as a non-multiplexed general status gives elapsed_time 1.00 s,
    distance 100.0 m, workout_type 1, interval_type 0, workout_state 1,
    rowing_state 1, stroke_state 2 and drag_factor 115; the two scaled
    fields are the double products [100 * 0.01] and [1000 * 0.1]. *)
Theorem parseGeneralStatus_sample :
  exists r : GeneralStatus,
    parseGeneralStatus sample_general_status false = Ok r /\
    gs_elapsed_time r = 1.00%float /\ gs_distance r = 100.0%float /\
    gs_workout_type r = 1 /\ gs_interval_type r = 0 /\ gs_workout_state r = 1 /\
    gs_rowing_state r = 1 /\ gs_stroke_state r = 2 /\ gs_drag_factor r = 115.
Proof.
  eexists. split; [vm_compute; reflexivity|].
  repeat split; vm_compute; reflexivity.
Qed.

(** C3: a multiplexed frame [0x31 :: p] with a 19-byte payload [p] decodes
    to the general status that [p] decodes to on its own; tags 0x32, 0x35
    and 0x37 go to the additional status, stroke data and split data
    parsers in multiplexed mode, which read the payload at offset 1, i.e.
    give what the payload alone gives when it is long enough. *)
Theorem parseMultiplexedData_routing :
  (forall p : DataView, byteLength p = 19 ->
     exists r, parseGeneralStatus p false = Ok r /\
               parseMultiplexedData (Byte.x31 :: p) = Ok (MGeneralStatus r)) /\
  (forall p : DataView,
     parseMultiplexedData (Byte.x32 :: p)
     = map_result MAdditionalStatus (parseAdditionalStatus (Byte.x32 :: p) true)) /\
  (forall p : DataView,
     parseMultiplexedData (Byte.x35 :: p)
     = map_result MStrokeData (parseStrokeData (Byte.x35 :: p) true)) /\
  (forall p : DataView,
     parseMultiplexedData (Byte.x37 :: p)
     = map_result MSplitData (parseSplitIntervalData (Byte.x37 :: p) true)) /\
  (forall (t : Byte.byte) (p : DataView), 16 <= byteLength p ->
     parseAdditionalStatus (t :: p) true = parseAdditionalStatus p false) /\
  (forall (t : Byte.byte) (p : DataView), 20 <= byteLength p ->
     parseStrokeData (t :: p) true = parseStrokeData p false) /\
  (forall (t : Byte.byte) (p : DataView), 18 <= byteLength p ->
     parseSplitIntervalData (t :: p) true = parseSplitIntervalData p false).
Proof.
  split; [|split; [|split; [|split; [|split; [|split]]]]].
  - intros p Hp.
    destruct (parseGeneralStatus_ok p false) as [r Er]; [cbn [mux_offset]; lia|].
    exists r. split; [exact Er|].
    unfold parseMultiplexedData. rewrite getUint8_in_head.
    cbn [bind]. change (byte_val Byte.x31 =? 0x31) with true. cbv iota.
    rewrite parseGeneralStatus_shift, Er by lia. reflexivity.
  - intros p. unfold parseMultiplexedData.
    rewrite (getUint8_in_head Byte.x32 p). reflexivity.
  - intros p. unfold parseMultiplexedData.
    rewrite (getUint8_in_head Byte.x35 p). reflexivity.
  - intros p. unfold parseMultiplexedData.
    rewrite (getUint8_in_head Byte.x37 p). reflexivity.
  - apply parseAdditionalStatus_shift.
  - apply parseStrokeData_shift.
  - apply parseSplitIntervalData_shift.
Qed.

(** C4 (as claimed, refuted): the frame [0x40 0x01] has an unknown tag,
    but its outcome does not carry the remaining byte [0x01]: the
    [unknown] object's [data] is [null]. *)
Lemma parseMultiplexedData_unknown_payload_dropped :
  parseMultiplexedData [Byte.x40; Byte.x01] = Ok (MUnknown 0x40 None) /\
  parseMultiplexedData [Byte.x40; Byte.x01] <> Ok (MUnknown 0x40 (Some [Byte.x01])).
Proof.
  split; [reflexivity|]. cbv. intros H. discriminate H.
Qed.

(** C4 (amended): a non-empty multiplexed frame whose first byte is none
    of 0x31, 0x32, 0x35, 0x37 decodes without error to the [unknown]
    outcome carrying that tag, with [data] null (the payload is not
    returned). *)
Theorem parseMultiplexedData_unknown (t : Byte.byte) (p : DataView) :
  ~ In (byte_val t) [0x31; 0x32; 0x35; 0x37] ->
  parseMultiplexedData (t :: p) = Ok (MUnknown (byte_val t) None).
Proof.
  intros Hn. unfold parseMultiplexedData. rewrite getUint8_in_head. cbn [bind].
  destruct (Z.eqb_spec (byte_val t) 0x31); [exfalso; apply Hn; rewrite e; cbn; tauto|].
  destruct (Z.eqb_spec (byte_val t) 0x32); [exfalso; apply Hn; rewrite e; cbn; tauto|].
  destruct (Z.eqb_spec (byte_val t) 0x35); [exfalso; apply Hn; rewrite e; cbn; tauto|].
  destruct (Z.eqb_spec (byte_val t) 0x37); [exfalso; apply Hn; rewrite e; cbn; tauto|].
  reflexivity.
Qed.

(** ** Witnesses of the codec theorems *)

Lemma decode_length_contract_witness :
  byteLength (firstn 18 sample_general_status) < 19 + mux_offset false /\
  decode KGeneralStatus (firstn 18 sample_general_status) false
    = Throw (LengthError "general status" 18 19) /\
  is_ok (decode KStrokeData (sample_general_status ++ [Byte.x00; Byte.x00]) true) = true.
Proof.
  split; [vm_compute; reflexivity|]. split.
  - apply (proj2 (proj1 (decode_length_contract KGeneralStatus
                           (firstn 18 sample_general_status) false))).
    vm_compute. reflexivity.
  - apply (proj2 (decode_length_contract KStrokeData
                    (sample_general_status ++ [Byte.x00; Byte.x00]) true)).
    vm_compute. discriminate.
Defined.

Lemma parseMultiplexedData_routing_witness :
  byteLength sample_general_status = 19 /\
  exists r, parseGeneralStatus sample_general_status false = Ok r /\
            parseMultiplexedData (Byte.x31 :: sample_general_status) = Ok (MGeneralStatus r).
Proof.
  split; [reflexivity|].
  apply (proj1 parseMultiplexedData_routing). reflexivity.
Defined.

Lemma parseMultiplexedData_unknown_witness :
  ~ In (byte_val Byte.x40) [0x31; 0x32; 0x35; 0x37] /\
  parseMultiplexedData [Byte.x40; Byte.x01] = Ok (MUnknown 0x40 None).
Proof.
  assert (H : ~ In (byte_val Byte.x40) [0x31; 0x32; 0x35; 0x37])
    by (cbn; intros [E|[E|[E|[E|[]]]]]; discriminate E).
  split; [exact H|].
  exact (parseMultiplexedData_unknown Byte.x40 [Byte.x01] H).
Defined.

Lemma readInt24LE_little_endian_unsigned_witness :
  0 <= 3 /\ 3 + 3 <= byteLength sample_general_status /\
  exists b0 b1 b2 : Byte.byte,
    nth_error sample_general_status (Z.to_nat 3) = Some b0 /\
    nth_error sample_general_status (Z.to_nat (3 + 1)) = Some b1 /\
    nth_error sample_general_status (Z.to_nat (3 + 2)) = Some b2 /\
    readInt24LE sample_general_status 3
      = Ok (Z.lor (Z.lor (byte_val b0) (Z.shiftl (byte_val b1) 8))
                  (Z.shiftl (byte_val b2) 16)) /\
    readInt24LE sample_general_status 3
      = Ok (byte_val b0 + 256 * byte_val b1 + 65536 * byte_val b2) /\
    0 <= byte_val b0 + 256 * byte_val b1 + 65536 * byte_val b2 < 2 ^ 24 /\
    readInt16LE sample_general_status 3 = Ok (byte_val b0 + 256 * byte_val b1).
Proof.
  split; [lia|]. split; [vm_compute; discriminate|].
  apply (readInt24LE_little_endian_unsigned sample_general_status 3);
    [lia | vm_compute; discriminate].
Defined.



(** ** Sequential execution of the resumption monad *)

Ltac close_triple H :=
  let E1 := fresh "E" in let E2 := fresh "E" in let E3 := fresh "E" in
  injection H as E1 E2 E3; subst; repeat rewrite <- app_assoc;
  repeat rewrite <- app_assoc in E2; rewrite ?E2; reflexivity.

Lemma finish_bindRes {A B : Type} (k : A -> Async B) (r : Res A) :
  forall w, (let '(w1, o1, r1) := bindRes r k w in
             let '(w2, o2, x) := finish r1 w1 in (w2, o1 ++ o2, x))
            = mbind (finish r) (fun a => exec (k a)) w.
Proof.
  induction r as [x | c IH] using Res_rect'; intros w.
  - destruct x as [a | e]; cbn; [|reflexivity].
    unfold exec. destruct (k a w) as [[w1 o1] r1].
    destruct (finish r1 w1) as [[w2 o2] y]. reflexivity.
  - cbn. unfold mbind. specialize (IH w). destruct (c w) as [[w1 o1] r1]. cbn in IH.
    specialize (IH w1). destruct (bindRes r1 k w1) as [[w2 o2] r2].
    destruct (finish r2 w2) as [[w3 o3] x]. unfold mbind in IH.
    destruct (finish r1 w1) as [[w4 o4] [a | e]].
    + destruct (exec (k a) w4) as [[w5 o5] y]. close_triple IH.
    + close_triple IH.
Qed.

Lemma exec_abind {A B : Type} (m : Async A) (k : A -> Async B) (w : World) :
  exec (abind m k) w = mbind (exec m) (fun a => exec (k a)) w.
Proof.
  unfold exec at 1, abind. unfold mbind, exec at 1. destruct (m w) as [[w1 o1] r1].
  pose proof (finish_bindRes k r1 w1) as H. unfold mbind in H.
  destruct (bindRes r1 k w1) as [[w2 o2] r2]. destruct (finish r2 w2) as [[w3 o3] x].
  destruct (finish r1 w1) as [[w4 o4] [a | e]].
  - destruct (exec (k a) w4) as [[w5 o5] y]. close_triple H.
  - close_triple H.
Qed.

Lemma finish_catchRes {A : Type} (h : JSError -> Async A) (r : Res A) :
  forall w, (let '(w1, o1, r1) := catchRes r h w in
             let '(w2, o2, x) := finish r1 w1 in (w2, o1 ++ o2, x))
            = mcatch (finish r) (fun e => exec (h e)) w.
Proof.
  induction r as [x | c IH] using Res_rect'; intros w.
  - destruct x as [a | e]; cbn; [reflexivity|].
    unfold exec. destruct (h e w) as [[w1 o1] r1].
    destruct (finish r1 w1) as [[w2 o2] y]. reflexivity.
  - cbn. unfold mcatch. specialize (IH w). destruct (c w) as [[w1 o1] r1]. cbn in IH.
    specialize (IH w1). destruct (catchRes r1 h w1) as [[w2 o2] r2].
    destruct (finish r2 w2) as [[w3 o3] x]. unfold mcatch in IH.
    destruct (finish r1 w1) as [[w4 o4] [a | e]].
    + close_triple IH.
    + destruct (exec (h e) w4) as [[w5 o5] y]. close_triple IH.
Qed.

Lemma exec_try_catch {A : Type} (m : Async A) (h : JSError -> Async A) (w : World) :
  exec (try_catch m h) w = mcatch (exec m) (fun e => exec (h e)) w.
Proof.
  unfold exec at 1, try_catch. unfold mcatch, exec at 1. destruct (m w) as [[w1 o1] r1].
  pose proof (finish_catchRes h r1 w1) as H. unfold mcatch in H.
  destruct (catchRes r1 h w1) as [[w2 o2] r2]. destruct (finish r2 w2) as [[w3 o3] x].
  destruct (finish r1 w1) as [[w4 o4] [a | e]].
  - close_triple H.
  - destruct (exec (h e) w4) as [[w5 o5] y]. close_triple H.
Qed.

Lemma finish_tick {A : Type} (r : Res A) : forall w, finish (tick r) w = finish r w.
Proof.
  induction r as [x | c IH] using Res_rect'; intros w; [reflexivity|].
  cbn. specialize (IH w). destruct (c w) as [[w1 o1] r1]. cbn in IH. rewrite IH. reflexivity.
Qed.

Lemma exec_await_call {A : Type} (m : Async A) (w : World) :
  exec (await_call m) w = exec m w.
Proof.
  unfold exec, await_call. destruct (m w) as [[w1 o1] r1]. rewrite finish_tick. reflexivity.
Qed.

Lemma exec_ret {A : Type} (a : A) (w : World) : exec (ret a) w = (w, [], Ok a).
Proof. reflexivity. Qed.

Lemma exec_get (w : World) : exec get w = (w, [], Ok w).
Proof. reflexivity. Qed.

Lemma exec_modify (f : World -> World) (w : World) : exec (modify f) w = (f w, [], Ok tt).
Proof. reflexivity. Qed.

Lemma exec_emit (o : list Output) (w : World) : exec (emit o) w = (w, o, Ok tt).
Proof. unfold exec, emit. cbn. rewrite app_nil_r. reflexivity. Qed.

Lemma exec_throw {A : Type} (e : JSError) (w : World) : exec (throw (A := A) e) w = (w, [], Throw e).
Proof. reflexivity. Qed.

Lemma exec_rejected {A : Type} (e : JSError) (w : World) :
  exec (rejected (A := A) e) w = (w, [], Throw e).
Proof. reflexivity. Qed.

Lemma exec_log_rethrow {A : Type} (e : JSError) (w : World) :
  exec (log_rethrow (A := A) e) w = (w, [ConsoleError e], Throw e).
Proof. reflexivity. Qed.

Lemma exec_gatt_up {A : Type} (g : nat) (complete : World -> World * list Output * result A)
  (w : World) :
  link_up w = true -> g = connection w -> exec (gatt g complete) w = complete w.
Proof.
  intros Hl ->. unfold exec, gatt. rewrite Hl, Nat.eqb_refl. cbn.
  rewrite Hl, Nat.eqb_refl. cbn. destruct (complete w) as [[w1 o1] r]. cbn.
  rewrite app_nil_r. reflexivity.
Qed.

Lemma exec_gatt_down {A : Type} (g : nat) (complete : World -> World * list Output * result A)
  (w : World) :
  link_up w = false ->
  exec (gatt g complete) w = (w, [], Throw (TransportError "NetworkError")).
Proof. intros Hl. unfold exec, gatt. rewrite Hl. reflexivity. Qed.

Lemma exec_gatt_stale {A : Type} (g : nat) (complete : World -> World * list Output * result A)
  (w : World) :
  link_up w = true -> Nat.eqb g (connection w) = false ->
  exec (gatt g complete) w = (w, [], Throw (TransportError "InvalidStateError")).
Proof. intros Hl Hg. unfold exec, gatt. rewrite Hl, Hg. reflexivity. Qed.

(** ** Invariants of segments *)

Section Quiet.
Variable R : World -> World -> Prop.
Variable Po : list Output -> Prop.
Hypothesis R_refl : forall w, R w w.
Hypothesis R_trans : forall w1 w2 w3, R w1 w2 -> R w2 w3 -> R w1 w3.
Hypothesis Po_nil : Po [].
Hypothesis Po_app : forall a b, Po a -> Po b -> Po (a ++ b).

Lemma quiet_inv {A : Type} (k : World -> World * list Output * Res A) (w : World) :
  quiet R Po (Await k) ->
  R w (fst (fst (k w))) /\ Po (snd (fst (k w))) /\ quiet R Po (snd (k w)).
Proof. intros H. inversion H as [|k' Hk]; subst. apply Hk. Qed.

Lemma quiet_settled {A : Type} (r : result A) : quiet R Po (settled r).
Proof. constructor. intros w. cbn. split; [apply R_refl|]. split; [exact Po_nil|constructor]. Qed.

Lemma quietA_ret {A : Type} (a : A) : quietA R Po (ret a).
Proof. intros w. cbn. split; [apply R_refl|]. split; [exact Po_nil|constructor]. Qed.

Lemma quietA_get : quietA R Po get.
Proof. intros w. cbn. split; [apply R_refl|]. split; [exact Po_nil|constructor]. Qed.

Lemma quietA_throw {A : Type} (e : JSError) : quietA R Po (throw (A := A) e).
Proof. intros w. cbn. split; [apply R_refl|]. split; [exact Po_nil|constructor]. Qed.

Lemma quietA_rejected {A : Type} (e : JSError) : quietA R Po (rejected (A := A) e).
Proof. intros w. cbn. split; [apply R_refl|]. split; [exact Po_nil|apply quiet_settled]. Qed.

Lemma quietA_modify (f : World -> World) : (forall w, R w (f w)) -> quietA R Po (modify f).
Proof. intros Hf w. cbn. split; [apply Hf|]. split; [exact Po_nil|constructor]. Qed.

Lemma quietA_emit (o : list Output) : Po o -> quietA R Po (emit o).
Proof. intros Ho w. cbn. split; [apply R_refl|]. split; [exact Ho|constructor]. Qed.

Lemma quiet_bindRes {A B : Type} (k : A -> Async B) (r : Res A) :
  (forall a, quietA R Po (k a)) -> quiet R Po r ->
  forall w, R w (fst (fst (bindRes r k w))) /\ Po (snd (fst (bindRes r k w)))
            /\ quiet R Po (snd (bindRes r k w)).
Proof.
  intros Hk. induction r as [x | c IH] using Res_rect'; intros Hr w.
  - destruct x as [a | e]; [apply Hk|].
    cbn. split; [apply R_refl|]. split; [exact Po_nil|constructor].
  - cbn. split; [apply R_refl|]. split; [exact Po_nil|].
    constructor. intros w'. destruct (quiet_inv c w' Hr) as (H1 & H2 & H3).
    specialize (IH w'). destruct (c w') as [[w1 o1] r1]. cbn in H1, H2, H3, IH |- *.
    destruct (IH H3 w1) as (H4 & H5 & H6).
    destruct (bindRes r1 k w1) as [[w2 o2] r2]. cbn in H4, H5, H6 |- *.
    split; [eapply R_trans; eassumption|]. split; [apply Po_app; assumption|exact H6].
Qed.

Lemma quietA_bind {A B : Type} (m : Async A) (k : A -> Async B) :
  quietA R Po m -> (forall a, quietA R Po (k a)) -> quietA R Po (abind m k).
Proof.
  intros Hm Hk w. unfold abind. destruct (Hm w) as (H1 & H2 & H3).
  destruct (m w) as [[w1 o1] r1]. cbn in H1, H2, H3.
  destruct (quiet_bindRes k r1 Hk H3 w1) as (H4 & H5 & H6).
  destruct (bindRes r1 k w1) as [[w2 o2] r2]. cbn in H4, H5, H6 |- *.
  split; [eapply R_trans; eassumption|]. split; [apply Po_app; assumption|exact H6].
Qed.

Lemma quiet_catchRes {A : Type} (h : JSError -> Async A) (r : Res A) :
  (forall e, quietA R Po (h e)) -> quiet R Po r ->
  forall w, R w (fst (fst (catchRes r h w))) /\ Po (snd (fst (catchRes r h w)))
            /\ quiet R Po (snd (catchRes r h w)).
Proof.
  intros Hh. induction r as [x | c IH] using Res_rect'; intros Hr w.
  - destruct x as [a | e]; [|apply Hh].
    cbn. split; [apply R_refl|]. split; [exact Po_nil|constructor].
  - cbn. split; [apply R_refl|]. split; [exact Po_nil|].
    constructor. intros w'. destruct (quiet_inv c w' Hr) as (H1 & H2 & H3).
    specialize (IH w'). destruct (c w') as [[w1 o1] r1]. cbn in H1, H2, H3, IH |- *.
    destruct (IH H3 w1) as (H4 & H5 & H6).
    destruct (catchRes r1 h w1) as [[w2 o2] r2]. cbn in H4, H5, H6 |- *.
    split; [eapply R_trans; eassumption|]. split; [apply Po_app; assumption|exact H6].
Qed.

Lemma quietA_try_catch {A : Type} (m : Async A) (h : JSError -> Async A) :
  quietA R Po m -> (forall e, quietA R Po (h e)) -> quietA R Po (try_catch m h).
Proof.
  intros Hm Hh w. unfold try_catch. destruct (Hm w) as (H1 & H2 & H3).
  destruct (m w) as [[w1 o1] r1]. cbn in H1, H2, H3.
  destruct (quiet_catchRes h r1 Hh H3 w1) as (H4 & H5 & H6).
  destruct (catchRes r1 h w1) as [[w2 o2] r2]. cbn in H4, H5, H6 |- *.
  split; [eapply R_trans; eassumption|]. split; [apply Po_app; assumption|exact H6].
Qed.

Lemma quiet_tick {A : Type} (r : Res A) : quiet R Po r -> quiet R Po (tick r).
Proof.
  induction r as [x | c IH] using Res_rect'; intros Hr; [apply quiet_settled|].
  cbn. constructor. intros w. destruct (quiet_inv c w Hr) as (H1 & H2 & H3).
  specialize (IH w). destruct (c w) as [[w1 o1] r1]. cbn in *.
  split; [exact H1|]. split; [exact H2|]. apply IH, H3.
Qed.

Lemma quietA_await_call {A : Type} (m : Async A) :
  quietA R Po m -> quietA R Po (await_call m).
Proof.
  intros Hm w. unfold await_call. destruct (Hm w) as (H1 & H2 & H3).
  destruct (m w) as [[w1 o1] r1]. cbn in *. split; [exact H1|]. split; [exact H2|].
  apply quiet_tick, H3.
Qed.

Lemma quietA_gatt {A : Type} (g : nat) (complete : World -> World * list Output * result A) :
  (forall w, R w (fst (fst (complete w))) /\ Po (snd (fst (complete w)))) ->
  quietA R Po (gatt g complete).
Proof.
  intros Hc w. unfold gatt.
  destruct (negb (link_up w)); [|destruct (negb (Nat.eqb g (connection w)))];
    (split; [apply R_refl|]; split; [exact Po_nil|]); cbn; [apply quiet_settled..|].
  constructor. intros w'. destruct (link_up w' && Nat.eqb (connection w') g).
  - destruct (Hc w') as [H1 H2]. destruct (complete w') as [[w1 o1] r]. cbn in *.
    split; [exact H1|]. split; [exact H2|constructor].
  - cbn. split; [apply R_refl|]. split; [exact Po_nil|constructor].
Qed.

Lemma quietA_stopNotifications (ch : Characteristic) :
  (forall w ns, R w (set_notifying w ns)) -> quietA R Po (stopNotifications ch).
Proof.
  intros Hn w. unfold stopNotifications. destruct (live w ch); cbn;
    (split; [first [apply Hn | apply R_refl]|]); (split; [exact Po_nil|apply quiet_settled]).
Qed.

Lemma quietA_addListener (ch : Characteristic) (h : Handler) :
  (forall w, R w (fst (addEventListener w ch h))) -> quietA R Po (addListener ch h).
Proof.
  intros Ha w. unfold addListener. specialize (Ha w).
  destruct (addEventListener w ch h) as [w1 id]. cbn in *.
  split; [exact Ha|]. split; [exact Po_nil|constructor].
Qed.

Lemma quietA_exec {A : Type} (m : Async A) :
  quietA R Po m -> forall w, R w (fst (fst (exec m w))) /\ Po (snd (fst (exec m w))).
Proof.
  intros Hm w. unfold exec. destruct (Hm w) as (H1 & H2 & H3).
  destruct (m w) as [[w1 o1] r1]. cbn in H1, H2, H3.
  assert (Hf : forall r : Res A, quiet R Po r -> forall w, R w (fst (fst (finish r w)))
                                               /\ Po (snd (fst (finish r w)))).
  { intros r. induction r as [x | c IH] using Res_rect'; intros Hr w0.
    - cbn. split; [apply R_refl|exact Po_nil].
    - cbn. destruct (quiet_inv c w0 Hr) as (G1 & G2 & G3).
      specialize (IH w0). destruct (c w0) as [[w2 o2] r2]. cbn in *.
      destruct (IH G3 w2) as [G4 G5]. destruct (finish r2 w2) as [[w3 o3] x]. cbn in *.
      split; [eapply R_trans; eassumption|apply Po_app; assumption]. }
  destruct (Hf r1 H3 w1) as [H4 H5]. destruct (finish r1 w1) as [[w2 o2] x]. cbn in *.
  split; [eapply R_trans; eassumption|apply Po_app; assumption].
Qed.

End Quiet.

(** ** Segments that keep the link *)

Ltac quiet_side refl trans nil app :=
  first [exact refl | exact trans | exact nil | exact app].

Ltac quiet_auto refl trans nil app :=
  repeat (match goal with
    | |- forall _ : _, quietA _ _ _ => intro
    | |- quietA _ _ (abind _ _) => apply quietA_bind
    | |- quietA _ _ (try_catch _ _) => apply quietA_try_catch
    | |- quietA _ _ (await_call _) => apply quietA_await_call
    | |- quietA _ _ (ret _) => apply quietA_ret
    | |- quietA _ _ get => apply quietA_get
    | |- quietA _ _ (throw _) => apply quietA_throw
    | |- quietA _ _ (rejected _) => apply quietA_rejected
    | |- quietA _ _ (emit _) => apply quietA_emit
    | |- quietA _ _ (modify _) => apply quietA_modify
    | |- quietA _ _ (gatt _ _) => apply quietA_gatt
    | |- quietA _ _ (stopNotifications _) => apply quietA_stopNotifications
    | |- quietA _ _ (addListener _ _) => apply quietA_addListener
    | |- quietA _ _ (log_rethrow _) => unfold log_rethrow
    | |- quietA _ _ (getCharacteristic _ _) => unfold getCharacteristic
    | |- quietA _ _ (getPrimaryService _ _) => unfold getPrimaryService
    | |- quietA _ _ (startNotifications _) => unfold startNotifications
    | |- quietA _ _ (readValue _ _) => unfold readValue
    | |- quietA _ _ (writeValue _ _) => unfold writeValue
    | |- quietA _ _ (start_one _ _) => unfold start_one
    | |- quietA _ _ (stop_one _) => unfold stop_one
    | |- quietA _ _ (read_info _ _) => unfold read_info
    | |- quietA _ _ (if ?b then _ else _) => destruct b
    | |- quietA _ _ (match ?x with _ => _ end) => destruct x
    end; try quiet_side refl trans nil app).




Lemma consumer_events_app (a b : list Output) :
  consumer_events (a ++ b) = consumer_events a ++ consumer_events b.
Proof. unfold consumer_events. apply flat_map_app. Qed.





Ltac split_ifs :=
  repeat match goal with
  | |- context [if ?b then _ else _] => destruct b
  | |- context [match ?x with Ok _ => _ | Throw _ => _ end] => destruct x
  end.








Lemma method_linkLost cb w : method cb OpLinkLost w =
  if link_up w then (set_fields (drop_link w) false false [] [], if onDisconnected cb then [Emit Disconnected] else [], Done (Ok RetUndefined)) else (w, [], Done (Ok RetUndefined)).
Proof. unfold method, linkLost, handleDisconnected, abind, get, modify, emit, ret. cbn.
destruct (link_up w), (onDisconnected cb); reflexivity. Qed.
Lemma method_disconnect cb w : method cb OpDisconnect w =
  if server w && link_up w then (set_fields (drop_link w) false false [] [], if onDisconnected cb then [Emit Disconnected] else [], Done (Ok RetUndefined)) else (w, [], Done (Ok RetUndefined)).
Proof. unfold method, disconnect, linkLost, handleDisconnected, abind, get, modify, emit, ret. cbn.
destruct (server w) eqn:Hs, (link_up w) eqn:Hl, (onDisconnected cb); cbn; rewrite ?Hl; reflexivity. Qed.
Lemma method_notify cb c bytes w : method cb (OpNotify c bytes) w = (w, notify_outputs cb w c bytes, Done (Ok RetUndefined)).
Proof. unfold method, notify, notify_outputs, abind, get, modify, emit, ret. cbn.
destruct (link_up w && mem c (notifying w)); cbn; rewrite ?app_nil_r; reflexivity. Qed.
Lemma connect_first w : fst (connect w) = (w, []).
Proof. reflexivity. Qed.














(** ** Sequential runs of the methods *)

Ltac unfold_session :=
  unfold step, exec, method, connect, gatt_connect, getServices, readDeviceInformation,
    read_info, disconnect, linkLost, handleDisconnected,
    startRowingDataNotifications, start_one, stopRowingDataNotifications, stop_one,
    startControlRxNotifications, stopControlRxNotifications,
    discoverNotifyCapableCharacteristics, subscribeToCharacteristic,
    unsubscribeFromCharacteristic, sendControlBytes, notify, log_rethrow, try_catch,
    abind, get, modify, emit, throw, ret, rejected, settled, await_call,
    getCharacteristic, getPrimaryService, startNotifications, stopNotifications,
    writeValue, readValue, addListener, addEventListener, removeEventListener, gatt,
    set_listeners, set_notifying, set_active, set_fields, set_notifyCapable,
    set_link_up, drop_link, live.

Lemma mem_filter_neq (c d : string) (l : list string) :
  mem c (filter (fun x => negb (String.eqb d x)) l) = mem c l && negb (String.eqb c d).
Proof.
  unfold mem. induction l as [|x l IH]; cbn; [reflexivity|].
  destruct (String.eqb_spec d x) as [<- | Hne]; cbn.
  - rewrite IH. destruct (String.eqb c d); cbn; rewrite ?Bool.andb_false_r; reflexivity.
  - rewrite IH. destruct (String.eqb_spec c x) as [-> | Hcx]; cbn.
    + destruct (String.eqb_spec x d); [congruence | reflexivity].
    + reflexivity.
Qed.

Lemma mem_start (c d : string) (l : list string) :
  mem c (if mem d l then l else d :: l) = mem c l || String.eqb c d.
Proof.
  destruct (mem d l) eqn:E.
  - destruct (String.eqb_spec c d) as [-> | _]; [rewrite E; reflexivity|].
    rewrite Bool.orb_false_r. reflexivity.
  - unfold mem at 1. cbn [existsb]. fold (mem c l). apply Bool.orb_comm.
Qed.

Lemma mem_rowing_chars (c : string) :
  mem c rowing_chars
  = String.eqb c GENERAL_STATUS || String.eqb c ADDITIONAL_STATUS
    || String.eqb c STROKE_DATA || String.eqb c SPLIT_INTERVAL_DATA.
Proof.
  unfold mem, rowing_chars. cbn [existsb]. rewrite Bool.orb_false_r, !Bool.orb_assoc.
  reflexivity.
Qed.

Lemma start_rowing_ok (cb : Callbacks) (w : World) :
  mem "rowing" (services w) = true -> link_up w = true ->
  exists w', step cb OpStartRowing w = (w', [], Ok RetUndefined) /\
    char_listeners w' = char_listeners w ++
      [(GENERAL_STATUS, {| l_id := next_id w; l_handler := HGeneralStatus |});
       (ADDITIONAL_STATUS, {| l_id := S (next_id w); l_handler := HAdditionalStatus |});
       (STROKE_DATA, {| l_id := S (S (next_id w)); l_handler := HStrokeData |});
       (SPLIT_INTERVAL_DATA, {| l_id := S (S (S (next_id w))); l_handler := HSplitData |})] /\
    next_id w' = (next_id w + 4)%nat /\
    services w' = services w /\ link_up w' = true /\ server w' = server w /\
    activeCharacteristicSubscription w' = activeCharacteristicSubscription w /\
    notifyCapableCharacteristics w' = notifyCapableCharacteristics w /\
    connection w' = connection w /\
    (forall c, mem c (notifying w') = mem c (notifying w) || mem c rowing_chars).
Proof.
  intros Hr Hl. eexists. split.
  - unfold_session. repeat progress (cbn -[mem]; rewrite ?Hr, ?Hl, ?Nat.eqb_refl).
    reflexivity.
  - cbn -[mem]. rewrite <- !app_assoc. cbn -[mem].
    repeat split; try lia.
    intros c. rewrite !mem_start, mem_rowing_chars, !Bool.orb_assoc. reflexivity.
Qed.

Lemma start_rowing_no_service (cb : Callbacks) (w : World) :
  mem "rowing" (services w) = false ->
  step cb OpStartRowing w
  = (w, [ConsoleError (TypeError "this.services.rowing is undefined")],
     Throw (TypeError "this.services.rowing is undefined")).
Proof. intros Hr. unfold_session. cbn -[mem]. rewrite Hr. reflexivity. Qed.

Lemma start_rowing_link_down (cb : Callbacks) (w : World) :
  mem "rowing" (services w) = true -> link_up w = false ->
  step cb OpStartRowing w
  = (w, [ConsoleError (TransportError "NetworkError")], Throw (TransportError "NetworkError")).
Proof. intros Hr Hl. unfold_session. cbn -[mem]. rewrite Hr, Hl. reflexivity. Qed.

Lemma stop_rowing_ok (cb : Callbacks) (w : World) :
  mem "rowing" (services w) = true -> link_up w = true ->
  exists w', step cb OpStopRowing w = (w', [], Ok RetUndefined) /\
    char_listeners w' = char_listeners w /\ next_id w' = next_id w /\
    services w' = services w /\ link_up w' = true /\ server w' = server w /\
    activeCharacteristicSubscription w' = activeCharacteristicSubscription w /\
    notifyCapableCharacteristics w' = notifyCapableCharacteristics w /\
    connection w' = connection w /\
    (forall c, mem c (notifying w') = mem c (notifying w) && negb (mem c rowing_chars)).
Proof.
  intros Hr Hl. eexists. split.
  - unfold_session.
    repeat progress (cbn -[mem filter String.eqb]; rewrite ?Hr, ?Hl, ?Nat.eqb_refl).
    reflexivity.
  - cbn -[mem filter String.eqb]. repeat split.
    intros c. rewrite !mem_filter_neq, mem_rowing_chars.
    destruct (mem c (notifying w)), (String.eqb c GENERAL_STATUS),
      (String.eqb c ADDITIONAL_STATUS), (String.eqb c STROKE_DATA),
      (String.eqb c SPLIT_INTERVAL_DATA); reflexivity.
Qed.

Lemma stop_rowing_failing (cb : Callbacks) (w : World) (e : JSError) :
  (mem "rowing" (services w) = false /\ e = TypeError "this.services.rowing is undefined") \/
  (mem "rowing" (services w) = true /\ link_up w = false /\
   e = TransportError "NetworkError") ->
  step cb OpStopRowing w = (w, repeat (ConsoleError e) 4, Ok RetUndefined).
Proof.
  intros [[Hr ->] | [Hr [Hl ->]]]; unfold_session;
    repeat progress (cbn -[mem]; rewrite ?Hr, ?Hl); reflexivity.
Qed.

Lemma step_notify (cb : Callbacks) (w : World) (c : string) (bytes : DataView) :
  step cb (OpNotify c bytes) w = (w, notify_outputs cb w c bytes, Ok RetUndefined).
Proof. unfold step, exec. rewrite method_notify. cbn. rewrite app_nil_r. reflexivity. Qed.

Lemma run_handler_failure (cb : Callbacks) (h : Handler) (k : RecordKind)
  (bytes : DataView) (e : JSError) :
  handler_kind h = Some k -> decode k bytes false = Throw e ->
  run_handler cb h bytes = [ConsoleError e].
Proof.
  intros Hk He. destruct h; cbn in Hk; inversion Hk; subst k; cbn in He |- *;
    [ destruct (parseGeneralStatus bytes false)
    | destruct (parseAdditionalStatus bytes false)
    | destruct (parseStrokeData bytes false)
    | destruct (parseSplitIntervalData bytes false) ];
    cbn in He; congruence.
Qed.

(** C7 (as claimed, refuted): a general-status notification of one byte,
    once notifications are started, only reaches [console.error]; the
    consumer receives no parse-error event. *)
Lemma notification_decode_failure_no_event :
  let w := fst (run demo_callbacks [OpConnect; OpStartRowing] initial_world) in
  step demo_callbacks (OpNotify GENERAL_STATUS [Byte.x01]) w
    = (w, [ConsoleError (LengthError "general status" 1 19)], Ok RetUndefined) /\
  consumer_events [ConsoleError (LengthError "general status" 1 19)] = [].
Proof. vm_compute. split; reflexivity. Qed.

(** C7 (amended): dispatching a notification never throws and leaves the
    session (and every other stream) as it was; a listener whose decode
    fails outputs only its [console.error] line, with no event for the
    consumer; the operations that follow run exactly as they would have
    without that notification. *)
Theorem notification_decode_failure_contained (cb : Callbacks) (w : World)
  (c : string) (bytes : DataView) (ops : list Op) :
  step cb (OpNotify c bytes) w = (w, notify_outputs cb w c bytes, Ok RetUndefined) /\
  (forall (h : Handler) (k : RecordKind) (e : JSError),
     handler_kind h = Some k -> decode k bytes false = Throw e ->
     run_handler cb h bytes = [ConsoleError e]) /\
  run cb (OpNotify c bytes :: ops) w
  = (fst (run cb ops w), notify_outputs cb w c bytes ++ snd (run cb ops w)).
Proof.
  split; [apply step_notify|]. split.
  - intros h k e. apply run_handler_failure.
  - cbn [run]. rewrite step_notify. destruct (run cb ops w). reflexivity.
Qed.

Lemma notification_decode_failure_contained_witness :
  handler_kind HStrokeData = Some KStrokeData /\
  decode KStrokeData [Byte.x01] false = Throw (LengthError "stroke data" 1 20) /\
  run_handler demo_callbacks HStrokeData [Byte.x01]
    = [ConsoleError (LengthError "stroke data" 1 20)].
Proof.
  split; [reflexivity|]. split; [reflexivity|].
  apply (proj1 (proj2 (notification_decode_failure_contained demo_callbacks
                         initial_world STROKE_DATA [Byte.x01] []))
           HStrokeData KStrokeData); reflexivity.
Defined.

(** [stopRowingDataNotifications] never rejects and reports nothing to
    the consumer. It removes no listener: the listeners, the next function
    identity and the active subscription are left as they are. With the
    rowing service present and the link up it turns notifications off on
    exactly the four telemetry characteristics. Otherwise it changes
    nothing and logs one warning per characteristic, four in all. *)
Theorem stopRowingDataNotifications_contract (cb : Callbacks) (w : World) :
  let '(w', os, r) := step cb OpStopRowing w in
  r = Ok RetUndefined /\ consumer_events os = [] /\
  List.length os = (if mem "rowing" (services w) && link_up w then 0 else 4)%nat /\
  char_listeners w' = char_listeners w /\ next_id w' = next_id w /\
  activeCharacteristicSubscription w' = activeCharacteristicSubscription w /\
  (forall c, mem c (notifying w')
             = mem c (notifying w)
               && negb (mem "rowing" (services w) && link_up w && mem c rowing_chars)).
Proof.
  destruct (mem "rowing" (services w)) eqn:Hr; [destruct (link_up w) eqn:Hl|].
  - destruct (stop_rowing_ok cb w Hr Hl) as (w' & E & L & N & _ & _ & _ & A & _ & _ & Hn).
    rewrite E. repeat split; assumption.
  - rewrite (stop_rowing_failing cb w (TransportError "NetworkError")) by (right; auto).
    repeat split. intros c. cbn. rewrite Bool.andb_true_r. reflexivity.
  - rewrite (stop_rowing_failing cb w (TypeError "this.services.rowing is undefined"))
      by (left; auto).
    repeat split. intros c. cbn. rewrite Bool.andb_true_r. reflexivity.
Qed.

(** [startRowingDataNotifications]: with the rowing service present and
    the link up it resolves silently, turns notifications on for the four
    telemetry characteristics and appends four listeners with fresh
    identities, one per characteristic, after the existing ones (which it
    never removes). Without the rowing service it rejects with the
    [TypeError] of reading [getCharacteristic] of [undefined], and with
    the link down with the transport's error; in both cases it changes
    nothing and logs the error once. *)
Theorem startRowingDataNotifications_contract (cb : Callbacks) (w : World) :
  (mem "rowing" (services w) = true -> link_up w = true ->
   exists w', step cb OpStartRowing w = (w', [], Ok RetUndefined) /\
     char_listeners w' = char_listeners w ++
       [(GENERAL_STATUS, {| l_id := next_id w; l_handler := HGeneralStatus |});
        (ADDITIONAL_STATUS, {| l_id := S (next_id w); l_handler := HAdditionalStatus |});
        (STROKE_DATA, {| l_id := S (S (next_id w)); l_handler := HStrokeData |});
        (SPLIT_INTERVAL_DATA, {| l_id := S (S (S (next_id w))); l_handler := HSplitData |})] /\
     next_id w' = (next_id w + 4)%nat /\
     activeCharacteristicSubscription w' = activeCharacteristicSubscription w /\
     (forall c, mem c (notifying w') = mem c (notifying w) || mem c rowing_chars)) /\
  (mem "rowing" (services w) = false ->
   step cb OpStartRowing w
   = (w, [ConsoleError (TypeError "this.services.rowing is undefined")],
      Throw (TypeError "this.services.rowing is undefined"))) /\
  (mem "rowing" (services w) = true -> link_up w = false ->
   step cb OpStartRowing w
   = (w, [ConsoleError (TransportError "NetworkError")], Throw (TransportError "NetworkError"))).
Proof.
  split; [|split].
  - intros Hr Hl.
    destruct (start_rowing_ok cb w Hr Hl) as (w' & E & L & N & _ & _ & _ & A & _ & _ & Hn).
    exists w'. repeat split; assumption.
  - apply start_rowing_no_service.
  - apply start_rowing_link_down.
Qed.

(** Starting the telemetry streams again after stopping them adds a
    second listener per characteristic, since the stop removed none. One
    general-status notification is then decoded and handed to
    [onWorkoutData] twice, after whatever the listeners present before
    the first start produce. The three calls themselves report nothing. *)
Theorem restart_duplicates_workout_data (cb : Callbacks) (w : World) (bytes : DataView)
  (d : GeneralStatus) :
  mem "rowing" (services w) = true -> link_up w = true -> onWorkoutData cb = true ->
  parseGeneralStatus bytes false = Ok d ->
  let '(w3, os) := run cb [OpStartRowing; OpStopRowing; OpStartRowing] w in
  os = [] /\
  notify_outputs cb w3 GENERAL_STATUS bytes
  = List.concat (map (fun l => run_handler cb (l_handler l) bytes)
                     (listeners_on w GENERAL_STATUS))
    ++ [Emit (WorkoutData (RGeneralStatus d)); Emit (WorkoutData (RGeneralStatus d))].
Proof.
  intros Hr Hl Hw Hp.
  destruct (start_rowing_ok cb w Hr Hl) as (w1 & E1 & L1 & _ & S1 & K1 & _).
  rewrite <- S1 in Hr.
  destruct (stop_rowing_ok cb w1 Hr K1) as (w2 & E2 & L2 & _ & S2 & K2 & _).
  rewrite <- S2 in Hr.
  destruct (start_rowing_ok cb w2 Hr K2) as (w3 & E3 & L3 & _ & _ & K3 & _ & _ & _ & _ & M3).
  cbn [run]. rewrite E1, E2, E3. cbn [app]. split; [reflexivity|].
  unfold notify_outputs. rewrite K3, M3, mem_rowing_chars.
  replace (String.eqb GENERAL_STATUS GENERAL_STATUS) with true
    by (symmetry; apply String.eqb_refl).
  rewrite !Bool.orb_true_r. cbn [andb].
  unfold listeners_on. rewrite L3, L2, L1, !filter_app, !map_app. cbn -[run_handler].
  rewrite !List.concat_app. cbn. rewrite Hp, Hw, <- app_assoc. reflexivity.
Qed.

Lemma startRowingDataNotifications_contract_witness :
  let w := fst (run demo_callbacks [OpConnect] initial_world) in
  mem "rowing" (services w) = true /\ link_up w = true /\
  exists w', step demo_callbacks OpStartRowing w = (w', [], Ok RetUndefined) /\
    next_id w' = (next_id w + 4)%nat.
Proof.
  cbv zeta. split; [reflexivity|]. split; [reflexivity|].
  destruct (proj1 (startRowingDataNotifications_contract demo_callbacks
              (fst (run demo_callbacks [OpConnect] initial_world))) eq_refl eq_refl)
    as (w' & E & _ & N & _).
  exists w'. split; assumption.
Defined.

Lemma restart_duplicates_workout_data_witness :
  let w := fst (run demo_callbacks [OpConnect] initial_world) in
  mem "rowing" (services w) = true /\ link_up w = true /\
  onWorkoutData demo_callbacks = true /\
  exists d, parseGeneralStatus sample_general_status false = Ok d /\
    notify_outputs demo_callbacks
      (fst (run demo_callbacks [OpStartRowing; OpStopRowing; OpStartRowing] w))
      GENERAL_STATUS sample_general_status
    = [Emit (WorkoutData (RGeneralStatus d)); Emit (WorkoutData (RGeneralStatus d))].
Proof.
  cbv zeta. split; [reflexivity|]. split; [reflexivity|]. split; [reflexivity|].
  destruct (parseGeneralStatus sample_general_status false) as [d|e] eqn:E;
    [|vm_compute in E; discriminate E].
  exists d. split; [reflexivity|].
  pose proof (restart_duplicates_workout_data demo_callbacks
    (fst (run demo_callbacks [OpConnect] initial_world)) sample_general_status d
    eq_refl eq_refl eq_refl E) as H.
  destruct (run demo_callbacks [OpStartRowing; OpStopRowing; OpStartRowing]
              (fst (run demo_callbacks [OpConnect] initial_world))) as [w3 os].
  destruct H as [_ H]. exact H.
Defined.

Lemma hex_digit_value_range (c : ascii) :
  is_hex_digit c = true -> 0 <= hex_digit_value c < 16.
Proof.
  intros H. unfold is_hex_digit in H. unfold hex_digit_value.
  remember (nat_of_ascii c) as n eqn:En. clear En.
  repeat rewrite ?Bool.orb_true_iff, ?Bool.andb_true_iff, ?Nat.leb_le in H.
  destruct (Z.of_nat n <=? 57) eqn:E1;
    [apply Z.leb_le in E1 | apply Z.leb_gt in E1;
     destruct (Z.of_nat n <=? 70) eqn:E2;
     [apply Z.leb_le in E2 | apply Z.leb_gt in E2]]; lia.
Qed.

Lemma cleanHex_digits (s : string) :
  Forall (fun c => is_hex_digit c = true) (cleanHex s).
Proof.
  apply Forall_forall. intros x Hx. unfold cleanHex in Hx.
  apply filter_In in Hx. tauto.
Qed.

Lemma hexLoop_length_gen (l : list ascii) :
  List.length (hexLoop l) = ((List.length l + 1) / 2)%nat /\
  (forall c, List.length (hexLoop (c :: l)) = ((List.length l + 2) / 2)%nat).
Proof.
  induction l as [|a l [IH1 IH2]]; split.
  - reflexivity.
  - reflexivity.
  - rewrite IH2. cbn [List.length]. f_equal. lia.
  - intros c. cbn [hexLoop List.length]. rewrite IH1.
    replace (S (List.length l) + 2)%nat with ((List.length l + 1) + 1 * 2)%nat by lia.
    rewrite Nat.div_add by lia. lia.
Qed.

Lemma hexLoop_length (l : list ascii) :
  Nat.odd (List.length l) = false ->
  List.length (hexLoop l) = (List.length l / 2)%nat.
Proof.
  intros Hodd. rewrite (proj1 (hexLoop_length_gen l)).
  assert (Nat.even (List.length l) = true) as He
    by (rewrite <- Nat.negb_odd, Hodd; reflexivity).
  apply Nat.even_spec in He. destruct He as [k Hk]. rewrite Hk.
  rewrite (Nat.mul_comm 2 k), Nat.div_mul by lia.
  replace (k * 2 + 1)%nat with (1 + k * 2)%nat by lia.
  rewrite Nat.div_add by lia. reflexivity.
Qed.

Lemma hexLoop_nth (i : nat) (l : list ascii) :
  Forall (fun c => is_hex_digit c = true) l ->
  (2 * i + 1 < List.length l)%nat ->
  nth_error (hexLoop l) i
  = Some (16 * hex_digit_value (nth (2 * i) l "0"%char)
          + hex_digit_value (nth (2 * i + 1) l "0"%char)).
Proof.
  revert l. induction i as [|i IH]; intros [|c1 [|c2 rest]] HF Hlen;
    cbn [List.length] in Hlen; try lia.
  - inversion HF as [|? ? H1 HF1]; subst. inversion HF1 as [|? ? H2 _]; subst.
    apply hex_digit_value_range in H1. apply hex_digit_value_range in H2.
    cbn [hexLoop nth_error nth Nat.mul Nat.add]. f_equal.
    unfold ToUint8, parseInt16. cbn [fold_left].
    rewrite Z.mod_small; lia.
  - inversion HF as [|? ? _ HF1]; subst. inversion HF1 as [|? ? _ HF2]; subst.
    replace (2 * S i)%nat with (S (S (2 * i))) by lia.
    replace (S (S (2 * i)) + 1)%nat with (S (S (2 * i + 1))) by lia.
    cbn [hexLoop nth_error nth]. apply IH; [exact HF2 | lia].
Qed.

(** C10 (as claimed, refuted): once the link has dropped, sending the even
    hex string "00" still raises, since [this.services.control] is gone. *)
Lemma sendControlBytes_even_still_throws :
  let w := fst (run demo_callbacks [OpConnect; OpLinkLost] initial_world) in
  Nat.odd (List.length (cleanHex "00")) = false /\
  step demo_callbacks (OpSendControlBytes "00") w
  = (w, [ConsoleError (TypeError "this.services.control is undefined")],
     Throw (TypeError "this.services.control is undefined")).
Proof. vm_compute. split; reflexivity. Qed.

Lemma hexLoop_small (s : string) :
  Nat.odd (List.length (cleanHex s)) = false ->
  Nat.ltb 512 (List.length (hexLoop (cleanHex s)))
  = Nat.ltb 1024 (List.length (cleanHex s)).
Proof.
  intros Hodd. rewrite (hexLoop_length _ Hodd).
  assert (Nat.even (List.length (cleanHex s)) = true) as He
    by (rewrite <- Nat.negb_odd, Hodd; reflexivity).
  apply Nat.even_spec in He. destruct He as [k Hk]. rewrite Hk.
  rewrite (Nat.mul_comm 2 k), Nat.div_mul by lia.
  destruct (Nat.ltb_spec 512 k), (Nat.ltb_spec 1024 (k * 2)); lia.
Qed.

(** C10 (amended): the non-hex characters are stripped first. An odd number
    of remaining digits raises [OddHexError] (logged, then rethrown) and
    writes nothing. With an even number n of digits, the control service
    present, the link up, at most 512 bytes to write and the PM5
    accepting the write, exactly n/2 bytes are written, byte i being the
    value of the i-th pair of digits, and the call returns [true]. With an
    even number the call still raises (logging the error first, writing
    nothing) when there are more than 512 bytes ([writeValue] rejects
    them), when the PM5 rejects the write, when the link is down, and
    when the control service is absent. The call depends on the input
    only through its hex digits. *)
Theorem sendControlBytes_spec (cb : Callbacks) (w : World) (s s' : string) :
  (Nat.odd (List.length (cleanHex s)) = true ->
   step cb (OpSendControlBytes s) w = (w, [ConsoleError OddHexError], Throw OddHexError)) /\
  (Nat.odd (List.length (cleanHex s)) = false ->
   mem "control" (services w) = true -> link_up w = true ->
   (List.length (cleanHex s) <= 1024)%nat -> write_reply (peripheral w) = Ok tt ->
   step cb (OpSendControlBytes s) w = (w, [TxWrite (hexLoop (cleanHex s))], Ok RetTrue) /\
   List.length (hexLoop (cleanHex s)) = (List.length (cleanHex s) / 2)%nat /\
   (forall i, (2 * i + 1 < List.length (cleanHex s))%nat ->
      nth_error (hexLoop (cleanHex s)) i
      = Some (16 * hex_digit_value (nth (2 * i) (cleanHex s) "0"%char)
              + hex_digit_value (nth (2 * i + 1) (cleanHex s) "0"%char)))) /\
  (Nat.odd (List.length (cleanHex s)) = false ->
   mem "control" (services w) = true -> link_up w = true ->
   (1024 < List.length (cleanHex s))%nat ->
   step cb (OpSendControlBytes s) w
   = (w, [ConsoleError (TransportError "InvalidModificationError")],
      Throw (TransportError "InvalidModificationError"))) /\
  (forall e, Nat.odd (List.length (cleanHex s)) = false ->
   mem "control" (services w) = true -> link_up w = true ->
   (List.length (cleanHex s) <= 1024)%nat -> write_reply (peripheral w) = Throw e ->
   step cb (OpSendControlBytes s) w = (w, [ConsoleError e], Throw e)) /\
  (Nat.odd (List.length (cleanHex s)) = false ->
   mem "control" (services w) = true -> link_up w = false ->
   step cb (OpSendControlBytes s) w
   = (w, [ConsoleError (TransportError "NetworkError")], Throw (TransportError "NetworkError"))) /\
  (Nat.odd (List.length (cleanHex s)) = false ->
   mem "control" (services w) = false ->
   step cb (OpSendControlBytes s) w
   = (w, [ConsoleError (TypeError "this.services.control is undefined")],
      Throw (TypeError "this.services.control is undefined"))) /\
  (cleanHex s = cleanHex s' ->
   step cb (OpSendControlBytes s) w = step cb (OpSendControlBytes s') w).
Proof.
  split; [|split; [|split; [|split; [|split; [|split]]]]].
  - intros Hodd. unfold_session. cbv zeta. rewrite Hodd. reflexivity.
  - intros Hodd Hc Hl Hn Hw. split; [|split].
    + pose proof (hexLoop_small s Hodd) as Hs.
      replace (Nat.ltb 1024 (List.length (cleanHex s))) with false in Hs
        by (symmetry; apply Nat.ltb_ge; exact Hn).
      unfold_session. cbv zeta. rewrite Hodd.
      repeat progress (cbn -[mem hexLoop cleanHex Nat.ltb];
                       rewrite ?Hc, ?Hs, ?Hl, ?Nat.eqb_refl, ?Hw).
      reflexivity.
    + apply hexLoop_length, Hodd.
    + intros i Hi. apply hexLoop_nth; [apply cleanHex_digits | exact Hi].
  - intros Hodd Hc Hl Hn.
    pose proof (hexLoop_small s Hodd) as Hs.
    replace (Nat.ltb 1024 (List.length (cleanHex s))) with true in Hs
      by (symmetry; apply Nat.ltb_lt; exact Hn).
    unfold_session. cbv zeta. rewrite Hodd.
    repeat progress (cbn -[mem hexLoop cleanHex Nat.ltb]; rewrite ?Hc, ?Hs, ?Hl, ?Nat.eqb_refl).
    reflexivity.
  - intros e Hodd Hc Hl Hn Hw.
    pose proof (hexLoop_small s Hodd) as Hs.
    replace (Nat.ltb 1024 (List.length (cleanHex s))) with false in Hs
      by (symmetry; apply Nat.ltb_ge; exact Hn).
    unfold_session. cbv zeta. rewrite Hodd.
    repeat progress (cbn -[mem hexLoop cleanHex Nat.ltb];
                     rewrite ?Hc, ?Hs, ?Hl, ?Nat.eqb_refl, ?Hw).
    reflexivity.
  - intros Hodd Hc Hl.
    unfold_session. cbv zeta. rewrite Hodd.
    repeat progress (cbn -[mem hexLoop cleanHex Nat.ltb]; rewrite ?Hc, ?Hl).
    reflexivity.
  - intros Hodd Hc.
    unfold_session. cbv zeta. rewrite Hodd.
    repeat progress (cbn -[mem hexLoop cleanHex Nat.ltb]; rewrite ?Hc).
    reflexivity.
  - intros Heq. unfold step, method, sendControlBytes. rewrite Heq. reflexivity.
Qed.

Lemma sendControlBytes_spec_witness :
  let w := fst (run demo_callbacks [OpConnect] initial_world) in
  Nat.odd (List.length (cleanHex "0a:FF")) = false /\
  mem "control" (services w) = true /\ link_up w = true /\
  (List.length (cleanHex "0a:FF") <= 1024)%nat /\ write_reply (peripheral w) = Ok tt /\
  step demo_callbacks (OpSendControlBytes "0a:FF") w
  = (w, [TxWrite (hexLoop (cleanHex "0a:FF"))], Ok RetTrue).
Proof.
  cbv zeta. split; [reflexivity|]. split; [reflexivity|]. split; [reflexivity|].
  split; [apply Nat.leb_le; reflexivity|]. split; [reflexivity|].
  refine (proj1 (proj1 (proj2 (sendControlBytes_spec demo_callbacks
           (fst (run demo_callbacks [OpConnect] initial_world)) "0a:FF" "0a:FF"))
           _ _ _ _ _)); try reflexivity. apply Nat.leb_le; reflexivity.
Defined.

Lemma exec_stopNotifications (ch : Characteristic) (w : World) :
  exec (stopNotifications ch) w
  = if live w ch
    then (set_notifying w (filter (fun x => negb (String.eqb (ch_uuid ch) x)) (notifying w)),
          [], Ok tt)
    else (w, [], Throw (TransportError "InvalidStateError")).
Proof. unfold exec, stopNotifications. destruct (live w ch); reflexivity. Qed.

Lemma exec_addListener (ch : Characteristic) (h : Handler) (w : World) :
  exec (addListener ch h) w = (fst (addEventListener w ch h), [], Ok (snd (addEventListener w ch h))).
Proof. unfold exec, addListener. destruct (addEventListener w ch h). reflexivity. Qed.

Lemma exec_startNotifications (ch : Characteristic) (w : World) :
  link_up w = true -> live w ch = true ->
  exec (startNotifications ch) w
  = (set_notifying w (if mem (ch_uuid ch) (notifying w) then notifying w
                      else ch_uuid ch :: notifying w), [], Ok tt).
Proof.
  intros Hl Hc. unfold startNotifications. unfold live in Hc. apply Nat.eqb_eq in Hc.
  rewrite exec_gatt_up by auto. reflexivity.
Qed.

Lemma live_removeEventListener (w : World) (c ch : Characteristic) (id : nat) :
  live (removeEventListener w c id) ch = live w ch.
Proof. unfold removeEventListener. destruct (live w c); reflexivity. Qed.

Lemma notifying_removeEventListener (w : World) (c : Characteristic) (id : nat) :
  notifying (removeEventListener w c id) = notifying w.
Proof. unfold removeEventListener. destruct (live w c); reflexivity. Qed.

Ltac exec_simp :=
  repeat (rewrite ?exec_abind, ?exec_try_catch, ?exec_get, ?exec_modify, ?exec_emit,
            ?exec_ret, ?exec_throw, ?exec_await_call, ?exec_log_rethrow, ?exec_rejected,
            ?exec_stopNotifications, ?exec_addListener;
          unfold mbind, mcatch; cbn beta iota zeta; cbn [app]).

Lemma exec_unsubscribe_none (w : World) :
  activeCharacteristicSubscription w = None ->
  exec unsubscribeFromCharacteristic w = (w, [], Ok RetUndefined).
Proof. intros Ha. unfold unsubscribeFromCharacteristic. exec_simp. rewrite Ha. exec_simp. reflexivity. Qed.

Lemma exec_unsubscribe_live (w : World) (c : Characteristic) (id : nat) :
  activeCharacteristicSubscription w = Some (c, id) -> live w c = true ->
  exec unsubscribeFromCharacteristic w
  = (set_active (set_notifying (removeEventListener w c id)
                   (filter (fun x => negb (String.eqb (ch_uuid c) x)) (notifying w))) None,
     [], Ok RetUndefined).
Proof.
  intros Ha Hl. unfold unsubscribeFromCharacteristic. exec_simp. rewrite Ha. exec_simp.
  rewrite live_removeEventListener, Hl. exec_simp. rewrite notifying_removeEventListener.
  reflexivity.
Qed.

Lemma exec_unsubscribe_stale (w : World) (c : Characteristic) (id : nat) :
  activeCharacteristicSubscription w = Some (c, id) -> live w c = false ->
  exec unsubscribeFromCharacteristic w
  = (w, [ConsoleError (TransportError "InvalidStateError")],
     Throw (TransportError "InvalidStateError")).
Proof.
  intros Ha Hl. unfold unsubscribeFromCharacteristic. exec_simp. rewrite Ha. exec_simp.
  rewrite live_removeEventListener, Hl. exec_simp.
  unfold removeEventListener. rewrite Hl. reflexivity.
Qed.

Lemma find_char_uuid (uuid : string) (cs : list Characteristic) (ch : Characteristic) :
  find_char uuid cs = Some ch -> ch_uuid ch = uuid.
Proof.
  unfold find_char. intros H. apply find_some in H. destruct H as [_ H].
  apply String.eqb_eq, H.
Qed.

Lemma subscribe_live (cb : Callbacks) (w : World) (uuid : string) (ch : Characteristic) :
  link_up w = true ->
  (forall c id, activeCharacteristicSubscription w = Some (c, id) -> live w c = true) ->
  find_char uuid (notifyCapableCharacteristics w) = Some ch -> live w ch = true ->
  exists w', step cb (OpSubscribe uuid) w = (w', [], Ok RetTrue) /\
    activeCharacteristicSubscription w' = Some (ch, next_id w) /\
    next_id w' = S (next_id w) /\ link_up w' = true /\ connection w' = connection w /\
    notifyCapableCharacteristics w' = notifyCapableCharacteristics w /\
    mem uuid (notifying w') = true /\
    char_listeners w'
    = match activeCharacteristicSubscription w with
      | Some (c, id) =>
          filter (fun p => negb (String.eqb (fst p) (ch_uuid c) && Nat.eqb (l_id (snd p)) id))
            (char_listeners w)
      | None => char_listeners w
      end ++ [(uuid, {| l_id := next_id w; l_handler := HCharacteristic uuid |})].
Proof.
  intros Hl Hact Hf Hch. pose proof (find_char_uuid _ _ _ Hf) as Hu.
  unfold step, method, subscribeToCharacteristic. exec_simp.
  destruct (activeCharacteristicSubscription w) as [[c id]|] eqn:Ha.
  - pose proof (Hact c id eq_refl) as Hc. exec_simp.
    rewrite (exec_unsubscribe_live w c id Ha Hc). exec_simp.
    unfold removeEventListener. rewrite Hc. cbn [set_active set_notifying set_listeners
      notifyCapableCharacteristics]. rewrite Hf. exec_simp.
    rewrite exec_startNotifications
      by (cbn [set_active set_notifying set_listeners link_up]; first [exact Hl | exact Hch]).
    exec_simp.
    eexists. split; [reflexivity|].
    unfold addEventListener, live in *. cbn -[mem filter].
    rewrite Hch. cbn -[mem filter].
    rewrite mem_start, Hu, String.eqb_refl, Bool.orb_true_r.
    repeat split; auto.
  - exec_simp. rewrite Hf. exec_simp.
    rewrite exec_startNotifications by assumption. exec_simp.
    eexists. split; [reflexivity|].
    unfold addEventListener, live in *. cbn -[mem filter].
    rewrite Hch. cbn -[mem filter].
    rewrite mem_start, Hu, String.eqb_refl, Bool.orb_true_r.
    repeat split; auto.
Qed.

Lemma subscribe_stale_active (cb : Callbacks) (w : World) (uuid : string)
  (c : Characteristic) (id : nat) :
  activeCharacteristicSubscription w = Some (c, id) -> live w c = false ->
  step cb (OpSubscribe uuid) w
  = (w, [ConsoleError (TransportError "InvalidStateError");
         ConsoleError (TransportError "InvalidStateError")],
     Throw (TransportError "InvalidStateError")).
Proof.
  intros Ha Hc. unfold step, method, subscribeToCharacteristic. exec_simp. rewrite Ha.
  exec_simp. rewrite (exec_unsubscribe_stale w c id Ha Hc). exec_simp. reflexivity.
Qed.

Lemma subscribe_stale_found (cb : Callbacks) (w : World) (uuid : string) (ch : Characteristic) :
  link_up w = true -> activeCharacteristicSubscription w = None ->
  find_char uuid (notifyCapableCharacteristics w) = Some ch -> live w ch = false ->
  step cb (OpSubscribe uuid) w
  = (w, [ConsoleError (TransportError "InvalidStateError")],
     Throw (TransportError "InvalidStateError")).
Proof.
  intros Hl Ha Hf Hc. unfold step, method, subscribeToCharacteristic. exec_simp. rewrite Ha.
  exec_simp. rewrite Hf. exec_simp. unfold startNotifications.
  rewrite exec_gatt_stale; [exec_simp; reflexivity | exact Hl |].
  exact Hc.
Qed.

Lemma filter_comm {A : Type} (f g : A -> bool) (l : list A) :
  filter f (filter g l) = filter g (filter f l).
Proof.
  induction l as [|a l IH]; cbn; [reflexivity|].
  destruct (g a) eqn:Eg, (f a) eqn:Ef; cbn; rewrite ?Eg, ?Ef, IH; reflexivity.
Qed.

Lemma unsubscribe_world_tracked (w : World) (c : Characteristic) (id : nat) (ns : list string) :
  subscription_tracked w -> activeCharacteristicSubscription w = Some (c, id) ->
  live w c = true ->
  let w0 := set_active (set_notifying (removeEventListener w c id) ns) None in
  subscription_tracked w0 /\ activeCharacteristicSubscription w0 = None /\ char_handlers w0 = [].
Proof.
  intros [Hh Hle] Ha Hc. cbv zeta.
  assert (E : char_handlers (set_active (set_notifying (removeEventListener w c id) ns) None) = []).
  { unfold char_handlers, removeEventListener. rewrite Hc. cbn [set_active set_notifying
      set_listeners char_listeners]. rewrite filter_comm.
    change (filter (fun p => is_char_handler (l_handler (snd p))) (char_listeners w))
      with (char_handlers w).
    rewrite Hh. unfold recorded_handlers. rewrite Ha, Hc. cbn.
    rewrite String.eqb_refl, Nat.eqb_refl. reflexivity. }
  split; [|split; [reflexivity|exact E]].
  split; [rewrite E; reflexivity|]. intros ch id' H. discriminate H.
Qed.

Lemma find_phase_tracked (uuid : string) (w : World) :
  activeCharacteristicSubscription w = None -> char_handlers w = [] ->
  subscription_tracked
    (fst (fst (exec
      (match find_char uuid (notifyCapableCharacteristics w) with
       | None =>
           throw (ErrorMsg ("Characteristic " ++ uuid ++ " not found in discovered characteristics"))
       | Some ch =>
           startNotifications ch ;;;
           id <- addListener ch (HCharacteristic uuid) ;;
           modify (fun w => set_active w (Some (ch, id))) ;;;
           ret RetTrue
       end) w))).
Proof.
  intros Ha Hh.
  assert (Ht : subscription_tracked w).
  { split; [rewrite Hh; unfold recorded_handlers; rewrite Ha; reflexivity|].
    intros ch id H. rewrite Ha in H. discriminate H. }
  destruct (find_char uuid (notifyCapableCharacteristics w)) as [ch|] eqn:Hf;
    [|exec_simp; exact Ht].
  pose proof (find_char_uuid _ _ _ Hf) as Hu.
  exec_simp. unfold startNotifications.
  destruct (link_up w) eqn:Hl; [|rewrite exec_gatt_down by exact Hl; exec_simp; exact Ht].
  destruct (Nat.eqb (ch_conn ch) (connection w)) eqn:Hc;
    [|rewrite exec_gatt_stale by assumption; exec_simp; exact Ht].
  rewrite exec_gatt_up by (auto; apply Nat.eqb_eq; exact Hc). exec_simp.
  unfold addEventListener, live. cbn [set_notifying connection]. rewrite Hc.
  cbn. split.
  - unfold char_handlers, recorded_handlers, live. cbn. rewrite Hc.
    rewrite filter_app. change (filter (fun p => is_char_handler (l_handler (snd p)))
      (char_listeners w)) with (char_handlers w). rewrite Hh, Hu. reflexivity.
  - intros ch' id' H. injection H as <- _. apply Nat.eqb_eq in Hc. cbn [connection set_active set_listeners set_notifying]. lia.
Qed.


Lemma keep_sub_refl : forall w, keeps_subscription w w.
Proof. intros w. repeat split. Qed.

Lemma keep_sub_trans : forall w1 w2 w3, keeps_subscription w1 w2 -> keeps_subscription w2 w3 -> keeps_subscription w1 w3.
Proof. intros w1 w2 w3 (A1 & B1 & C1) (A2 & B2 & C2). repeat split; congruence. Qed.

Lemma any_outputs_nil : any_outputs [].
Proof. exact I. Qed.

Lemma any_outputs_app : forall a b, any_outputs a -> any_outputs b -> any_outputs (a ++ b).
Proof. intros. exact I. Qed.

Lemma keep_sub_tracked (w w' : World) :
  keeps_subscription w w' -> subscription_tracked w -> subscription_tracked w'.
Proof.
  intros (Ec & Ea & Eh) [Hh Hle]. split.
  - rewrite Eh, Hh. unfold recorded_handlers, live. rewrite Ea, Ec. reflexivity.
  - intros ch id H. rewrite Ec. apply (Hle ch id). rewrite <- Ea. exact H.
Qed.

Ltac keep_sub_side :=
  intros; unfold keeps_subscription, addEventListener, removeEventListener, char_handlers; split_ifs;
  cbn [fst snd set_fields set_notifying set_notifyCapable set_link_up set_listeners
       connection activeCharacteristicSubscription char_listeners];
  rewrite ?filter_app; cbn; rewrite ?app_nil_r;
  repeat match goal with |- _ /\ _ => split end;
  first [reflexivity | exact I].

Ltac quiet_keep_sub := quiet_auto keep_sub_refl keep_sub_trans any_outputs_nil any_outputs_app.

Lemma discover_services_keep_sub (g : nat) (svcs : list (string * result (list (string * bool)))) :
  quietA keeps_subscription any_outputs (discover_services g svcs).
Proof.
  induction svcs as [|[s r] rest IH]; cbn [discover_services]; quiet_keep_sub;
    first [exact IH | keep_sub_side].
Qed.

Lemma read_all_keep_sub (l : list (string * result unit)) :
  quietA keeps_subscription any_outputs (read_all l).
Proof.
  induction l as [|[u r] rest IH]; cbn [read_all]; quiet_keep_sub;
    first [exact IH | keep_sub_side].
Qed.

Lemma gatt_connect_keep_sub : quietA keeps_subscription any_outputs gatt_connect.
Proof.
  intros w. unfold gatt_connect. cbn [fst snd].
  split; [apply keep_sub_refl|]. split; [exact I|].
  constructor. intros w'. split_ifs; cbn [fst snd];
    (split; [|split; [exact I|constructor]]); first [apply keep_sub_refl | keep_sub_side].
Qed.

Lemma method_keep_sub (cb : Callbacks) (op : Op) :
  match op with
  | OpDisconnect | OpLinkLost | OpNotify _ _ | OpSubscribe _ | OpUnsubscribe => False
  | _ => True
  end ->
  quietA keeps_subscription any_outputs (method cb op).
Proof.
  intros Hop. destruct op; cbn [method]; try contradiction.
  - unfold connect, getServices, readDeviceInformation. quiet_keep_sub;
      first [apply gatt_connect_keep_sub | apply read_all_keep_sub | keep_sub_side].
  - unfold startRowingDataNotifications. quiet_keep_sub. all: keep_sub_side.
  - unfold stopRowingDataNotifications. quiet_keep_sub. all: keep_sub_side.
  - unfold startControlRxNotifications. quiet_keep_sub. all: keep_sub_side.
  - unfold stopControlRxNotifications. quiet_keep_sub. all: keep_sub_side.
  - unfold discoverNotifyCapableCharacteristics. quiet_keep_sub;
      first [apply discover_services_keep_sub | keep_sub_side].
  - unfold sendControlBytes. cbv zeta. quiet_keep_sub. all: keep_sub_side.
Qed.

Lemma step_keep_sub (cb : Callbacks) (op : Op) (w : World) :
  match op with
  | OpDisconnect | OpLinkLost | OpNotify _ _ | OpSubscribe _ | OpUnsubscribe => False
  | _ => True
  end ->
  keeps_subscription w (fst (fst (step cb op w))).
Proof.
  intros Hop. unfold step.
  exact (proj1 (quietA_exec keeps_subscription any_outputs keep_sub_refl keep_sub_trans any_outputs_nil any_outputs_app
                  _ (method_keep_sub cb op Hop) w)).
Qed.

Lemma drop_tracked (w : World) :
  subscription_tracked w -> subscription_tracked (set_fields (drop_link w) false false [] []).
Proof.
  intros [Hh Hle]. split.
  - unfold char_handlers, recorded_handlers, live. cbn.
    destruct (activeCharacteristicSubscription w) as [[ch id]|] eqn:Ha; [|reflexivity].
    specialize (Hle ch id eq_refl).
    replace (Nat.eqb (ch_conn ch) (S (connection w))) with false; [reflexivity|].
    symmetry. apply Nat.eqb_neq. lia.
  - intros ch id H. cbn in *. specialize (Hle ch id H). lia.
Qed.

Lemma step_tracked (cb : Callbacks) (op : Op) (w : World) :
  subscription_tracked w -> subscription_tracked (fst (fst (step cb op w))).
Proof.
  intros Ht.
  destruct op eqn:Eop;
    try (apply (keep_sub_tracked w); [apply step_keep_sub; exact I | exact Ht]).
  - unfold step, exec. rewrite method_disconnect.
    destruct (server w && link_up w); cbn; [apply drop_tracked|]; exact Ht.
  - unfold step, exec. rewrite method_linkLost.
    destruct (link_up w); cbn; [apply drop_tracked|]; exact Ht.
  - (* subscribe *)
    unfold step, method, subscribeToCharacteristic. exec_simp.
    destruct (activeCharacteristicSubscription w) as [[c id]|] eqn:Ha.
    + destruct (live w c) eqn:Hc.
      * exec_simp. rewrite (exec_unsubscribe_live w c id Ha Hc). exec_simp.
        destruct (unsubscribe_world_tracked w c id
                    (filter (fun x => negb (String.eqb (ch_uuid c) x)) (notifying w)) Ht Ha Hc)
          as (_ & Ha0 & Hh0).
        pose proof (find_phase_tracked uuid _ Ha0 Hh0) as Hf.
        destruct (exec _ _) as [[w1 o1] [r|e]]; cbn in *; [exact Hf|].
        exec_simp. exact Hf.
      * exec_simp. rewrite (exec_unsubscribe_stale w c id Ha Hc). exec_simp. exact Ht.
    + exec_simp.
      assert (Hh0 : char_handlers w = []).
      { destruct Ht as [Hh _]. rewrite Hh. unfold recorded_handlers. rewrite Ha. reflexivity. }
      pose proof (find_phase_tracked uuid _ Ha Hh0) as Hf.
      destruct (exec _ _) as [[w1 o1] [r|e]]; cbn in *; [exact Hf|].
      exec_simp. exact Hf.
  - (* unsubscribe *)
    unfold step, method.
    destruct (activeCharacteristicSubscription w) as [[c id]|] eqn:Ha.
    + destruct (live w c) eqn:Hc.
      * rewrite (exec_unsubscribe_live w c id Ha Hc). cbn [fst].
        exact (proj1 (unsubscribe_world_tracked w c id _ Ht Ha Hc)).
      * rewrite (exec_unsubscribe_stale w c id Ha Hc). exact Ht.
    + rewrite (exec_unsubscribe_none w Ha). exact Ht.
  - unfold step, exec. rewrite method_notify. cbn. exact Ht.
Qed.

Lemma initial_tracked (p : Peripheral) : subscription_tracked (initial_world_of p).
Proof. split; [reflexivity|]. intros ch id H. discriminate H. Qed.

Lemma run_fst_tracked (cb : Callbacks) (ops : list Op) :
  forall w, subscription_tracked w -> subscription_tracked (fst (run cb ops w)).
Proof.
  induction ops as [|op rest IH]; intros w Ht; [exact Ht|].
  cbn [run]. pose proof (step_tracked cb op w Ht) as H1.
  destruct (step cb op w) as [[w1 o1] r1]. cbn in H1.
  specialize (IH w1 H1). destruct (run cb rest w1) as [w2 o2]. exact IH.
Qed.

Lemma reachable_tracked (cb : Callbacks) (ops : list Op) (p : Peripheral) :
  subscription_tracked (fst (run cb ops (initial_world_of p))).
Proof. apply run_fst_tracked, initial_tracked. Qed.

Lemma subscribe_live_stale_found (cb : Callbacks) (w : World) (uuid : string)
  (c ch : Characteristic) (id : nat) :
  link_up w = true -> activeCharacteristicSubscription w = Some (c, id) -> live w c = true ->
  find_char uuid (notifyCapableCharacteristics w) = Some ch -> live w ch = false ->
  step cb (OpSubscribe uuid) w
  = (set_active (set_notifying (removeEventListener w c id)
                   (filter (fun x => negb (String.eqb (ch_uuid c) x)) (notifying w))) None,
     [ConsoleError (TransportError "InvalidStateError")],
     Throw (TransportError "InvalidStateError")).
Proof.
  intros Hl Ha Hc Hf Hch. unfold step, method, subscribeToCharacteristic. exec_simp.
  rewrite Ha. exec_simp. rewrite (exec_unsubscribe_live w c id Ha Hc). exec_simp.
  assert (Hf' : notifyCapableCharacteristics (set_active (set_notifying
     (removeEventListener w c id) (filter (fun x => negb (String.eqb (ch_uuid c) x))
     (notifying w))) None) = notifyCapableCharacteristics w)
    by (unfold removeEventListener; rewrite Hc; reflexivity).
  rewrite Hf', Hf. exec_simp. unfold startNotifications.
  rewrite exec_gatt_stale.
  - exec_simp. reflexivity.
  - unfold removeEventListener. rewrite Hc. exact Hl.
  - unfold removeEventListener. rewrite Hc. exact Hch.
Qed.

Lemma tracked_live_handlers (w : World) (c : Characteristic) (id : nat) :
  subscription_tracked w -> activeCharacteristicSubscription w = Some (c, id) ->
  live w c = true ->
  char_handlers w = [(ch_uuid c, {| l_id := id; l_handler := HCharacteristic (ch_uuid c) |})].
Proof.
  intros [Hh _] Ha Hc. rewrite Hh. unfold recorded_handlers. rewrite Ha, Hc. reflexivity.
Qed.

Lemma tracked_no_live_handlers (w : World) :
  subscription_tracked w ->
  (forall c id, activeCharacteristicSubscription w = Some (c, id) -> live w c = false) ->
  char_handlers w = [].
Proof.
  intros [Hh _] H. rewrite Hh. unfold recorded_handlers.
  destruct (activeCharacteristicSubscription w) as [[c id]|]; [|reflexivity].
  rewrite (H c id eq_refl). reflexivity.
Qed.

Lemma char_deliveries_app (a b : list Output) :
  char_deliveries (a ++ b) = (char_deliveries a + char_deliveries b)%nat.
Proof. unfold char_deliveries. rewrite filter_app, length_app. reflexivity. Qed.

Lemma char_deliveries_handler (cb : Callbacks) (h : Handler) (bytes : DataView) :
  onCharacteristicData cb = true ->
  char_deliveries (run_handler cb h bytes) = if is_char_handler h then 1%nat else 0%nat.
Proof.
  intros H. unfold char_deliveries. destruct h; cbn [run_handler is_char_handler];
    rewrite ?H;
    repeat match goal with
    | |- context [match ?x with Ok _ => _ | Throw _ => _ end] => destruct x
    | |- context [if ?b then _ else _] => destruct b
    end; reflexivity.
Qed.

Lemma char_deliveries_listeners (cb : Callbacks) (bytes : DataView) (ls : list Listener) :
  onCharacteristicData cb = true ->
  char_deliveries (List.concat (map (fun l => run_handler cb (l_handler l) bytes) ls))
  = List.length (filter (fun l => is_char_handler (l_handler l)) ls).
Proof.
  intros H. induction ls as [|l ls IH]; [reflexivity|].
  cbn [map List.concat filter]. rewrite char_deliveries_app, IH,
    (char_deliveries_handler cb (l_handler l) bytes H).
  destruct (is_char_handler (l_handler l)); reflexivity.
Qed.

Lemma listeners_on_char_handlers (w : World) (c : string) :
  List.length (filter (fun l => is_char_handler (l_handler l)) (listeners_on w c))
  = List.length (filter (fun p => String.eqb (fst p) c) (char_handlers w)).
Proof.
  unfold listeners_on, char_handlers. induction (char_listeners w) as [|p l IH];
    [reflexivity|].
  destruct (String.eqb (fst p) c) eqn:E1, (is_char_handler (l_handler (snd p))) eqn:E2;
    cbn [filter map]; rewrite ?E1, ?E2; cbn [filter map List.length];
    rewrite ?E1, ?E2; cbn [List.length]; rewrite ?IH; reflexivity.
Qed.

Lemma char_deliveries_single (cb : Callbacks) (w : World) (uuid : string) (id : nat)
  (bytes : DataView) :
  onCharacteristicData cb = true -> link_up w = true -> mem uuid (notifying w) = true ->
  char_handlers w = [(uuid, {| l_id := id; l_handler := HCharacteristic uuid |})] ->
  char_deliveries (notify_outputs cb w uuid bytes) = 1%nat.
Proof.
  intros Hcb Hl Hn Hh. unfold notify_outputs. rewrite Hl, Hn. cbn [andb].
  rewrite char_deliveries_listeners by exact Hcb.
  rewrite listeners_on_char_handlers, Hh. cbn. rewrite String.eqb_refl. reflexivity.
Qed.

(** C5 (as claimed, refuted): a second [subscribeToCharacteristic] on the
    same characteristic is no no-op, it replaces the handler by a new one;
    and [startRowingDataNotifications] run twice delivers one notification
    twice. *)
Lemma subscribe_not_idempotent :
  let w1 := fst (run demo_callbacks [OpConnect; OpDiscover; OpSubscribe GENERAL_STATUS]
                   initial_world) in
  activeCharacteristicSubscription w1
  <> activeCharacteristicSubscription
       (fst (fst (step demo_callbacks (OpSubscribe GENERAL_STATUS) w1))) /\
  List.length (consumer_events (snd (run demo_callbacks
    [OpConnect; OpStartRowing; OpStartRowing; OpNotify GENERAL_STATUS sample_general_status]
    initial_world))) = 2%nat.
Proof. vm_compute. split; [discriminate | reflexivity]. Qed.

(** C5 (amended). In every world reached by a sequential run from a fresh
    [PM5Device], with the link up and [uuid] found among the discovered
    characteristics as the object [ch]:
    - when [ch] and the recorded subscription (if any) belong to the
      current connection, subscribing twice raises nothing and returns
      [true] both times; the second call does not return the first handle
      but unsubscribes it and installs a fresh handler, so exactly one
      raw-data handler is installed and one notification on [uuid] gives
      exactly one delivery;
    - when the recorded subscription belongs to a lost connection, the
      call rejects with an [InvalidStateError] (logged twice) and changes
      nothing;
    - when [ch] belongs to a lost connection, the call rejects with an
      [InvalidStateError] and no raw-data handler is left installed;
    - [startRowingDataNotifications] has no such guard: called twice, it
      reports nothing and one general-status notification is handed to
      [onWorkoutData] twice more than before. *)
Theorem subscribe_twice_single_delivery (cb : Callbacks) (p : Peripheral) (ops : list Op)
  (uuid : string) (ch : Characteristic) (bytes : DataView) :
  let w := fst (run cb ops (initial_world_of p)) in
  link_up w = true ->
  find_char uuid (notifyCapableCharacteristics w) = Some ch ->
  (live w ch = true ->
   (forall c id, activeCharacteristicSubscription w = Some (c, id) -> live w c = true) ->
   onCharacteristicData cb = true ->
   exists w1 w2,
     step cb (OpSubscribe uuid) w = (w1, [], Ok RetTrue) /\
     step cb (OpSubscribe uuid) w1 = (w2, [], Ok RetTrue) /\
     activeCharacteristicSubscription w1 = Some (ch, next_id w) /\
     activeCharacteristicSubscription w2 = Some (ch, S (next_id w)) /\
     char_handlers w2
     = [(uuid, {| l_id := S (next_id w); l_handler := HCharacteristic uuid |})] /\
     char_deliveries (notify_outputs cb w2 uuid bytes) = 1%nat) /\
  (forall c id, activeCharacteristicSubscription w = Some (c, id) -> live w c = false ->
   step cb (OpSubscribe uuid) w
   = (w, [ConsoleError (TransportError "InvalidStateError");
          ConsoleError (TransportError "InvalidStateError")],
      Throw (TransportError "InvalidStateError"))) /\
  (live w ch = false ->
   exists w' os, step cb (OpSubscribe uuid) w
                 = (w', os, Throw (TransportError "InvalidStateError")) /\
                 char_handlers w' = []) /\
  (forall d, mem "rowing" (services w) = true -> onWorkoutData cb = true ->
   parseGeneralStatus bytes false = Ok d ->
   let '(w2, os) := run cb [OpStartRowing; OpStartRowing] w in
   os = [] /\
   notify_outputs cb w2 GENERAL_STATUS bytes
   = List.concat (map (fun l => run_handler cb (l_handler l) bytes)
                      (listeners_on w GENERAL_STATUS))
     ++ [Emit (WorkoutData (RGeneralStatus d)); Emit (WorkoutData (RGeneralStatus d))]).
Proof.
  cbv zeta. intros Hl Hf.
  set (w := fst (run cb ops (initial_world_of p))) in *.
  pose proof (reachable_tracked cb ops p) as Ht. fold w in Ht.
  pose proof (find_char_uuid _ _ _ Hf) as Hu.
  split; [|split; [|split]].
  - intros Hch Hact Hcb.
    destruct (subscribe_live cb w uuid ch Hl Hact Hf Hch)
      as (w1 & E1 & Ha1 & Hn1 & Hl1 & Hc1 & Hf1 & _ & _).
    assert (Ht1 : subscription_tracked w1).
    { pose proof (step_tracked cb (OpSubscribe uuid) w Ht) as H. rewrite E1 in H. exact H. }
    assert (Hch1 : live w1 ch = true) by (unfold live in *; rewrite Hc1; exact Hch).
    rewrite <- Hf1 in Hf.
    destruct (subscribe_live cb w1 uuid ch Hl1
                (fun c id H => ltac:(rewrite Ha1 in H; injection H as <- _; exact Hch1))
                Hf Hch1)
      as (w2 & E2 & Ha2 & Hn2 & Hl2 & Hc2 & _ & Hm2 & _).
    assert (Ht2 : subscription_tracked w2).
    { pose proof (step_tracked cb (OpSubscribe uuid) w1 Ht1) as H. rewrite E2 in H. exact H. }
    rewrite Hn1 in Ha2.
    assert (Hch2 : live w2 ch = true) by (unfold live in *; rewrite Hc2; exact Hch1).
    pose proof (tracked_live_handlers w2 ch _ Ht2 Ha2 Hch2) as Hh2. rewrite Hu in Hh2.
    exists w1, w2. repeat split; try assumption.
    apply (char_deliveries_single cb w2 uuid (S (next_id w)) bytes Hcb Hl2 Hm2 Hh2).
  - intros c id Ha Hc. exact (subscribe_stale_active cb w uuid c id Ha Hc).
  - intros Hch.
    destruct (activeCharacteristicSubscription w) as [[c id]|] eqn:Ha.
    + destruct (live w c) eqn:Hc.
      * rewrite (subscribe_live_stale_found cb w uuid c ch id Hl Ha Hc Hf Hch).
        do 2 eexists. split; [reflexivity|].
        exact (proj2 (proj2 (unsubscribe_world_tracked w c id _ Ht Ha Hc))).
      * rewrite (subscribe_stale_active cb w uuid c id Ha Hc).
        do 2 eexists. split; [reflexivity|].
        apply tracked_no_live_handlers; [exact Ht|].
        intros c' id' H. rewrite Ha in H. injection H as <- <-. exact Hc.
    + rewrite (subscribe_stale_found cb w uuid ch Hl Ha Hf Hch).
      do 2 eexists. split; [reflexivity|].
      apply tracked_no_live_handlers; [exact Ht|].
      intros c' id' H. rewrite Ha in H. discriminate H.
  - intros d Hr Hw Hp.
    destruct (start_rowing_ok cb w Hr Hl) as (w1 & E1 & L1 & _ & S1 & K1 & _).
    rewrite <- S1 in Hr.
    destruct (start_rowing_ok cb w1 Hr K1) as (w2 & E2 & L2 & _ & _ & K2 & _ & _ & _ & _ & M2).
    cbn [run]. rewrite E1, E2. cbn [app]. split; [reflexivity|].
    unfold notify_outputs. rewrite K2, M2, mem_rowing_chars.
    replace (String.eqb GENERAL_STATUS GENERAL_STATUS) with true
      by (symmetry; apply String.eqb_refl).
    rewrite !Bool.orb_true_r. cbn [andb].
    unfold listeners_on. rewrite L2, L1, !filter_app, !map_app. cbn -[run_handler].
    rewrite !List.concat_app. cbn. rewrite Hp, Hw, <- app_assoc. reflexivity.
Qed.

Lemma subscribe_twice_single_delivery_witness :
  let w := fst (run demo_callbacks [OpConnect; OpDiscover] (initial_world_of pm5)) in
  let ch := {| ch_uuid := GENERAL_STATUS; ch_conn := 0 |} in
  link_up w = true /\
  find_char GENERAL_STATUS (notifyCapableCharacteristics w) = Some ch /\
  live w ch = true /\ activeCharacteristicSubscription w = None /\
  onCharacteristicData demo_callbacks = true /\
  exists w1 w2,
    step demo_callbacks (OpSubscribe GENERAL_STATUS) w = (w1, [], Ok RetTrue) /\
    step demo_callbacks (OpSubscribe GENERAL_STATUS) w1 = (w2, [], Ok RetTrue) /\
    char_deliveries (notify_outputs demo_callbacks w2 GENERAL_STATUS sample_general_status)
    = 1%nat.
Proof.
  cbv zeta. split; [reflexivity|]. split; [reflexivity|]. split; [reflexivity|].
  split; [reflexivity|]. split; [reflexivity|].
  destruct (proj1 (subscribe_twice_single_delivery demo_callbacks pm5 [OpConnect; OpDiscover]
              GENERAL_STATUS {| ch_uuid := GENERAL_STATUS; ch_conn := 0 |}
              sample_general_status eq_refl eq_refl) eq_refl
              (fun c id H => ltac:(vm_compute in H; discriminate H)) eq_refl)
    as (w1 & w2 & E1 & E2 & _ & _ & _ & D).
  exists w1, w2. split; [exact E1|]. split; [exact E2|exact D].
Defined.

(** * Proofs about the command codec *)

Lemma decodeFrame_body (body : list Z) :
  (1 <= List.length body)%nat ->
  decodeFrame (Z.of_nat (List.length body) :: body ++ [checksum body])
  = match body with
    | opcode :: params => inl (opcode, params)
    | [] => inr (FormatError 3 (Z.of_nat (List.length body + 2)))
    end.
Proof.
  intros Hpos. unfold decodeFrame.
  rewrite length_app. cbn [List.length].
  replace (Z.of_nat (List.length body) <? 1) with false by (symmetry; apply Z.ltb_ge; lia).
  replace (Z.of_nat (List.length body + 1) <? Z.of_nat (List.length body) + 1) with false
    by (symmetry; apply Z.ltb_ge; lia).
  cbn [orb]. rewrite Nat2Z.id.
  rewrite firstn_app, Nat.sub_diag, firstn_O, app_nil_r, firstn_all.
  rewrite app_nth2 by lia. rewrite Nat.sub_diag. cbn [nth].
  rewrite Z.eqb_refl. destruct body; [cbn in Hpos; lia | reflexivity].
Qed.

(** C8: every command the encoder accepts decodes, from the exact bytes of
    its frame, to the opcode and parameter bytes it was built from. *)
Theorem command_codec_roundtrip (opcode : Z) (params frame : list Z) :
  encodeCommand opcode params = inl frame ->
  decodeFrame frame = inl (opcode, params).
Proof.
  unfold encodeCommand. intros H.
  destruct (find (fun b => negb (is_byte b)) (opcode :: params)); [discriminate|].
  destruct (Z.of_nat (List.length (opcode :: params)) <? 256); [|discriminate].
  injection H as <-. apply (decodeFrame_body (opcode :: params)). cbn [List.length]. lia.
Qed.

Lemma command_codec_roundtrip_witness :
  encodeCommand 0x80 [0x01; 0xFF] = inl [3; 0x80; 0x01; 0xFF; 0x7E] /\
  decodeFrame [3; 0x80; 0x01; 0xFF; 0x7E] = inl (0x80, [0x01; 0xFF]).
Proof.
  split; [reflexivity|].
  apply (command_codec_roundtrip 0x80 [0x01; 0xFF]). reflexivity.
Defined.

(** * More properties of the parsers *)

Lemma getUint8_range (dv : DataView) (o v : Z) :
  getUint8 dv o = Ok v -> 0 <= v < 256.
Proof.
  unfold getUint8. destruct ((0 <=? o) && (o <? byteLength dv)); [|discriminate].
  destruct (nth_error dv (Z.to_nat o)); [|discriminate].
  intros H. injection H as <-. apply byte_val_range.
Qed.

Lemma readInt16LE_range (dv : DataView) (o v : Z) :
  readInt16LE dv o = Ok v -> 0 <= v < 65536.
Proof.
  unfold readInt16LE, getUint16LE.
  destruct ((0 <=? o) && (o + 2 <=? byteLength dv)); [|discriminate].
  destruct (getUint8 dv o) as [lo|] eqn:E0; cbn [bind]; [|discriminate].
  destruct (getUint8 dv (o + 1)) as [hi|] eqn:E1; cbn [bind]; [|discriminate].
  apply getUint8_range in E0. apply getUint8_range in E1.
  intros H. injection H as <-. lia.
Qed.

Lemma readInt24LE_range (dv : DataView) (o v : Z) :
  readInt24LE dv o = Ok v -> 0 <= v < 2 ^ 24.
Proof.
  unfold readInt24LE.
  destruct (getUint8 dv o) as [b0|] eqn:E0; cbn [bind]; [|discriminate].
  destruct (getUint8 dv (o + 1)) as [b1|] eqn:E1; cbn [bind]; [|discriminate].
  destruct (getUint8 dv (o + 2)) as [b2|] eqn:E2; cbn [bind]; [|discriminate].
  apply getUint8_range in E0. apply getUint8_range in E1. apply getUint8_range in E2.
  intros H. injection H as <-.
  destruct (js_shl_byte b1 8) as [-> ->]; [lia | lia|].
  destruct (js_shl_byte b2 16) as [-> ->]; [lia | lia|].
  change (2 ^ 8) with 256. change (2 ^ 16) with 65536. change (2 ^ 24) with 16777216.
  lia.
Qed.

(** Walks the chain of reads of a parser that returned [Ok]: each read's
    result is named and bounded. *)
Ltac parsed_fields H :=
  cbv zeta in H;
  match type of H with
  | (if ?c then _ else _) = _ => destruct c; [discriminate|]
  end;
  repeat match type of H with
  | bind ?x _ = _ =>
      let E := fresh "E" in
      destruct x eqn:E; cbn [bind] in H; [|discriminate];
      first [ apply getUint8_range in E
            | apply readInt16LE_range in E
            | apply readInt24LE_range in E ]
  end;
  injection H as <-; cbn.

Lemma parseMultiplexedData_throw (b : Byte.byte) (rest : DataView) (e : JSError) :
  parseMultiplexedData (b :: rest) = Throw e <->
  exists k, tag_kind (byte_val b) = Some k /\ decode k (b :: rest) true = Throw e.
Proof.
  unfold parseMultiplexedData, tag_kind. rewrite getUint8_in_head. cbn [bind].
  destruct (byte_val b =? 0x31); [|destruct (byte_val b =? 0x32);
    [|destruct (byte_val b =? 0x35); [|destruct (byte_val b =? 0x37)]]].
  all: split; [intros H | intros (k & Hk & Hd)].
  all: try discriminate.
  all: try (injection Hk as <-; cbn [decode] in Hd).
  all: try (eexists; split; [reflexivity|]; cbn [decode]).
  all: unfold map_result in *;
    repeat match goal with
    | |- context [bind ?x _] => destruct x; cbn [bind] in *
    end; congruence.
Qed.

(** [parseMultiplexedData] raises exactly in two cases: on an empty frame,
    where reading the tag at offset 0 raises a [RangeError]; and on a
    known tag whose frame is shorter than its record plus the tag byte,
    where the record's length error reports the frame length and that
    required length. *)
Theorem parseMultiplexedData_failure (dv : DataView) (e : JSError) :
  parseMultiplexedData dv = Throw e <->
  (dv = [] /\ e = RangeError 0) \/
  (exists (b : Byte.byte) (rest : DataView) (k : RecordKind),
     dv = b :: rest /\ tag_kind (byte_val b) = Some k /\
     byteLength dv < min_length k + 1 /\
     e = LengthError (record_name k) (byteLength dv) (min_length k + 1)).
Proof.
  destruct dv as [|b rest].
  - split.
    + intros H. left. split; [reflexivity|]. cbn in H. congruence.
    + intros [[_ ->] | (b & rest & k & Hd & _)]; [reflexivity | discriminate].
  - rewrite parseMultiplexedData_throw. split.
    + intros (k & Hk & Hd). right. exists b, rest, k.
      destruct (Z.lt_ge_cases (byteLength (b :: rest)) (min_length k + mux_offset true))
        as [Hl | Hg].
      * rewrite decode_short in Hd by exact Hl. injection Hd as <-.
        cbn [mux_offset] in *. repeat split; assumption.
      * destruct (decode_long k (b :: rest) true Hg) as [r Hr]. congruence.
    + intros [[Hd _] | (b' & rest' & k & Hd & Hk & Hl & ->)]; [discriminate|].
      injection Hd as <- <-. exists k. split; [exact Hk|].
      apply (decode_short k (b :: rest) true). exact Hl.
Qed.

Lemma parseMultiplexedData_failure_witness :
  parseMultiplexedData [Byte.x31; Byte.x00] = Throw (LengthError "general status" 2 20) /\
  ((exists (b : Byte.byte) (rest : DataView) (k : RecordKind),
     [Byte.x31; Byte.x00] = b :: rest /\ tag_kind (byte_val b) = Some k /\
     byteLength [Byte.x31; Byte.x00] < min_length k + 1 /\
     LengthError "general status" 2 20
     = LengthError (record_name k) (byteLength [Byte.x31; Byte.x00]) (min_length k + 1))).
Proof.
  split.
  - apply (parseMultiplexedData_failure [Byte.x31; Byte.x00]). right.
    exists Byte.x31, [Byte.x00], KGeneralStatus. vm_compute. repeat split; reflexivity.
  - exists Byte.x31, [Byte.x00], KGeneralStatus. vm_compute. repeat split; reflexivity.
Defined.

(** Every integer field a parser returns is an unsigned value of its width:
    one-byte fields in [0, 256), 16-bit fields in [0, 2^16), 24-bit fields
    in [0, 2^24); this holds with or without the multiplex tag. *)
Theorem parsed_integer_fields_in_range (dv : DataView) (m : bool) :
  (forall r, parseGeneralStatus dv m = Ok r ->
     0 <= gs_workout_type r < 256 /\ 0 <= gs_interval_type r < 256 /\
     0 <= gs_workout_state r < 256 /\ 0 <= gs_rowing_state r < 256 /\
     0 <= gs_stroke_state r < 256 /\ 0 <= gs_total_work_distance r < 2 ^ 24 /\
     0 <= gs_workout_duration r < 2 ^ 24 /\ 0 <= gs_workout_duration_type r < 256 /\
     0 <= gs_drag_factor r < 256) /\
  (forall r, parseAdditionalStatus dv m = Ok r ->
     0 <= as_stroke_rate r < 256 /\ 0 <= as_heart_rate r < 256 /\
     0 <= as_rest_distance r < 65536) /\
  (forall r, parseStrokeData dv m = Ok r -> 0 <= sd_stroke_count r < 65536) /\
  (forall r, parseSplitIntervalData dv m = Ok r ->
     0 <= sp_rest_time r < 65536 /\ 0 <= sp_rest_distance r < 65536 /\
     0 <= sp_split_type r < 256 /\ 0 <= sp_split_number r < 256).
Proof.
  split; [|split; [|split]]; intros r H.
  - unfold parseGeneralStatus in H. parsed_fields H. tauto.
  - unfold parseAdditionalStatus in H. parsed_fields H. tauto.
  - unfold parseStrokeData in H. parsed_fields H. tauto.
  - unfold parseSplitIntervalData in H. parsed_fields H. tauto.
Qed.

(** * Hex formatting of byte buffers *)

Lemma hex_digit_char_ok (d : Z) :
  0 <= d < 16 ->
  is_hex_digit (hex_digit_char d) = true /\ hex_digit_value (hex_digit_char d) = d.
Proof.
  intros H.
  assert (d = 0 \/ d = 1 \/ d = 2 \/ d = 3 \/ d = 4 \/ d = 5 \/ d = 6 \/ d = 7 \/
          d = 8 \/ d = 9 \/ d = 10 \/ d = 11 \/ d = 12 \/ d = 13 \/ d = 14 \/ d = 15)
    as Hd by lia.
  repeat destruct Hd as [-> | Hd]; [..| subst]; split; reflexivity.
Qed.

Lemma byteToHex_pair (v : Z) :
  0 <= v < 256 ->
  byteToHex v = [hex_digit_char (v / 16); hex_digit_char (v mod 16)].
Proof.
  intros H. unfold byteToHex, toString16_byte.
  destruct (v <? 16) eqn:E.
  - apply Z.ltb_lt in E.
    rewrite (Z.div_small v 16), (Z.mod_small v 16) by lia. reflexivity.
  - reflexivity.
Qed.

Lemma string_length_of_list_ascii (l : list ascii) :
  String.length (string_of_list_ascii l) = List.length l.
Proof. induction l as [|c l IH]; cbn; [reflexivity | now rewrite IH]. Qed.

Lemma byteToHex_digits (b : Byte.byte) : byteToHex (byte_val b) = byte_digits b.
Proof. apply byteToHex_pair, byte_val_range. Qed.

Lemma byte_digits_hex (b : Byte.byte) :
  filter is_hex_digit (byte_digits b) = byte_digits b.
Proof.
  pose proof (byte_val_range b).
  destruct (hex_digit_char_ok (byte_val b / 16)) as [H1 _];
    [split; [apply Z.div_pos | apply Z.div_lt_upper_bound]; lia|].
  destruct (hex_digit_char_ok (byte_val b mod 16)) as [H2 _]; [apply Z.mod_pos_bound; lia|].
  unfold byte_digits. cbn. rewrite H1, H2. reflexivity.
Qed.

Lemma filter_join (sep : list ascii) (dv : DataView) :
  filter is_hex_digit sep = [] ->
  filter is_hex_digit (join sep (map byte_digits dv)) = List.concat (map byte_digits dv).
Proof.
  intros Hs. induction dv as [|b dv IH]; [reflexivity|].
  destruct dv as [|b' dv].
  - cbn [map join List.concat]. rewrite ?app_nil_r. apply byte_digits_hex.
  - change (join sep (map byte_digits (b :: b' :: dv)))
      with (byte_digits b ++ sep ++ join sep (map byte_digits (b' :: dv))).
    rewrite !filter_app, byte_digits_hex, Hs, IH. reflexivity.
Qed.

Lemma hexLoop_digits (dv : DataView) :
  hexLoop (List.concat (map byte_digits dv)) = map byte_val dv.
Proof.
  induction dv as [|b dv IH]; [reflexivity|].
  cbn [map List.concat]. unfold byte_digits at 1. cbn [app hexLoop]. rewrite IH.
  f_equal. pose proof (byte_val_range b).
  destruct (hex_digit_char_ok (byte_val b / 16)) as [_ H1];
    [split; [apply Z.div_pos | apply Z.div_lt_upper_bound]; lia|].
  destruct (hex_digit_char_ok (byte_val b mod 16)) as [_ H2]; [apply Z.mod_pos_bound; lia|].
  cbn [ToUint8 parseInt16 fold_left]. rewrite H1, H2.
  assert (E : 16 * (byte_val b / 16) + byte_val b mod 16 = byte_val b)
    by (rewrite <- Z.div_mod; lia).
  rewrite ?Z.mul_0_r, ?Z.add_0_l, E. apply Z.mod_small, H.
Qed.

Lemma length_concat_digits (dv : DataView) :
  List.length (List.concat (map byte_digits dv)) = (2 * List.length dv)%nat.
Proof. induction dv as [|b dv IH]; cbn; [reflexivity | rewrite IH; lia]. Qed.

Lemma length_join_digits (sep : list ascii) (dv : DataView) :
  List.length (join sep (map byte_digits dv))
  = (2 * List.length dv + (List.length dv - 1) * List.length sep)%nat.
Proof.
  induction dv as [|b dv IH]; [reflexivity|].
  destruct dv as [|b' dv]; [reflexivity|].
  change (join sep (map byte_digits (b :: b' :: dv)))
    with (byte_digits b ++ sep ++ join sep (map byte_digits (b' :: dv))).
  rewrite !length_app, IH. change (List.length (byte_digits b)) with 2%nat.
  cbn [List.length]. rewrite !Nat.sub_succ, !Nat.sub_0_r. nia.
Qed.

Lemma join_nil (l : list (list ascii)) : join [] l = List.concat l.
Proof.
  induction l as [|x l IH]; [reflexivity|].
  destruct l as [|y l]; [cbn; now rewrite app_nil_r|].
  change (join [] (x :: y :: l)) with (x ++ [] ++ join [] (y :: l)).
  rewrite IH. reflexivity.
Qed.

Lemma map_byteToHex (dv : DataView) :
  map (fun b => byteToHex (byte_val b)) dv = map byte_digits dv.
Proof. apply map_ext, byteToHex_digits. Qed.

Lemma send_clean_even (cb : Callbacks) (w : World) (s : string) (dv : DataView) :
  cleanHex s = List.concat (map byte_digits dv) ->
  mem "control" (services w) = true -> link_up w = true ->
  (List.length dv <= 512)%nat -> write_reply (peripheral w) = Ok tt ->
  step cb (OpSendControlBytes s) w = (w, [TxWrite (map byte_val dv)], Ok RetTrue).
Proof.
  intros Hs Hc Hl Hn Hw.
  assert (Hodd : Nat.odd (List.length (cleanHex s)) = false)
    by (rewrite Hs, length_concat_digits, Nat.odd_mul; reflexivity).
  assert (Hs' : Nat.ltb 512 (List.length (hexLoop (cleanHex s))) = false)
    by (rewrite Hs, hexLoop_digits, length_map; apply Nat.ltb_ge; exact Hn).
  unfold_session. cbv zeta. rewrite Hodd.
  repeat progress (cbn -[mem hexLoop cleanHex Nat.ltb];
                   rewrite ?Hc, ?Hs', ?Hl, ?Nat.eqb_refl, ?Hw).
  rewrite Hs, hexLoop_digits. reflexivity.
Qed.

(** [dataViewToHex] writes each byte as two lowercase digits separated by
    single spaces (3n - 1 characters for n bytes); the digits of the text
    are those pairs, so passing the text to [sendControlBytes] (which drops
    the spaces) writes back exactly the original bytes, when the control
    service is present, the link is up, there are at most 512 bytes and
    the PM5 accepts the write. *)
Theorem dataViewToHex_roundtrip (cb : Callbacks) (w : World) (dv : DataView) :
  String.length (dataViewToHex dv) = (3 * List.length dv - 1)%nat /\
  cleanHex (dataViewToHex dv) = List.concat (map byte_digits dv) /\
  hexLoop (cleanHex (dataViewToHex dv)) = map byte_val dv /\
  (mem "control" (services w) = true -> link_up w = true ->
   (List.length dv <= 512)%nat -> write_reply (peripheral w) = Ok tt ->
   step cb (OpSendControlBytes (dataViewToHex dv)) w
   = (w, [TxWrite (map byte_val dv)], Ok RetTrue)).
Proof.
  assert (Hc : cleanHex (dataViewToHex dv) = List.concat (map byte_digits dv)).
  { unfold cleanHex, dataViewToHex. rewrite list_ascii_of_string_of_list_ascii, map_byteToHex.
    apply filter_join. reflexivity. }
  split; [|split; [exact Hc | split]].
  - unfold dataViewToHex. rewrite string_length_of_list_ascii, map_byteToHex,
      length_join_digits. cbn [List.length]. lia.
  - rewrite Hc. apply hexLoop_digits.
  - apply send_clean_even, Hc.
Qed.

(** [bytesToHexString] (the hex text handed to [onCharacteristicData] and
    to [onControlRxData]) is 2n hex digits for n bytes, with no separator;
    [sendControlBytes] of that text writes exactly the same bytes, under
    the same conditions. *)
Theorem bytesToHexString_roundtrip (cb : Callbacks) (w : World) (dv : DataView) :
  String.length (bytesToHexString dv) = (2 * List.length dv)%nat /\
  cleanHex (bytesToHexString dv) = list_ascii_of_string (bytesToHexString dv) /\
  hexLoop (list_ascii_of_string (bytesToHexString dv)) = map byte_val dv /\
  (mem "control" (services w) = true -> link_up w = true ->
   (List.length dv <= 512)%nat -> write_reply (peripheral w) = Ok tt ->
   step cb (OpSendControlBytes (bytesToHexString dv)) w
   = (w, [TxWrite (map byte_val dv)], Ok RetTrue)).
Proof.
  assert (Hl : list_ascii_of_string (bytesToHexString dv) = join [] (map byte_digits dv)).
  { unfold bytesToHexString. rewrite list_ascii_of_string_of_list_ascii, map_byteToHex.
    reflexivity. }
  assert (Hc : cleanHex (bytesToHexString dv) = List.concat (map byte_digits dv)).
  { unfold cleanHex. rewrite Hl. apply filter_join. reflexivity. }
  assert (Hj : join [] (map byte_digits dv) = List.concat (map byte_digits dv))
    by apply join_nil.
  split; [|split; [|split]].
  - unfold bytesToHexString. rewrite string_length_of_list_ascii, map_byteToHex,
      length_join_digits. cbn [List.length]. lia.
  - rewrite Hc, Hl, Hj. reflexivity.
  - rewrite Hl, Hj. apply hexLoop_digits.
  - apply send_clean_even, Hc.
Qed.


Lemma parsed_integer_fields_in_range_witness :
  exists r, parseGeneralStatus sample_general_status false = Ok r /\
    0 <= gs_total_work_distance r < 2 ^ 24 /\ 0 <= gs_drag_factor r < 256.
Proof.
  destruct (parseGeneralStatus sample_general_status false) as [r|e] eqn:E;
    [|vm_compute in E; discriminate E].
  exists r. split; [reflexivity|].
  pose proof (proj1 (parsed_integer_fields_in_range sample_general_status false) r E) as H.
  tauto.
Defined.

Lemma dataViewToHex_roundtrip_witness :
  let w := fst (run demo_callbacks [OpConnect] initial_world) in
  mem "control" (services w) = true /\ link_up w = true /\
  (List.length [Byte.x0a; Byte.xff] <= 512)%nat /\ write_reply (peripheral w) = Ok tt /\
  step demo_callbacks (OpSendControlBytes (dataViewToHex [Byte.x0a; Byte.xff])) w
  = (w, [TxWrite (map byte_val [Byte.x0a; Byte.xff])], Ok RetTrue).
Proof.
  cbv zeta. split; [reflexivity|]. split; [reflexivity|].
  split; [apply Nat.leb_le; reflexivity|]. split; [reflexivity|].
  apply (proj2 (proj2 (proj2 (dataViewToHex_roundtrip demo_callbacks
           (fst (run demo_callbacks [OpConnect] initial_world)) [Byte.x0a; Byte.xff]))));
    try reflexivity. apply Nat.leb_le; reflexivity.
Defined.

Lemma bytesToHexString_roundtrip_witness :
  let w := fst (run demo_callbacks [OpConnect] initial_world) in
  mem "control" (services w) = true /\ link_up w = true /\
  (List.length [Byte.x00; Byte.x7f] <= 512)%nat /\ write_reply (peripheral w) = Ok tt /\
  step demo_callbacks (OpSendControlBytes (bytesToHexString [Byte.x00; Byte.x7f])) w
  = (w, [TxWrite (map byte_val [Byte.x00; Byte.x7f])], Ok RetTrue).
Proof.
  cbv zeta. split; [reflexivity|]. split; [reflexivity|].
  split; [apply Nat.leb_le; reflexivity|]. split; [reflexivity|].
  apply (proj2 (proj2 (proj2 (bytesToHexString_roundtrip demo_callbacks
           (fst (run demo_callbacks [OpConnect] initial_world)) [Byte.x00; Byte.x7f]))));
    try reflexivity. apply Nat.leb_le; reflexivity.
Defined.
Lemma char_deliveries_handler_other (cb : Callbacks) (h : Handler) (bytes : DataView) :
  is_char_handler h = false -> char_deliveries (run_handler cb h bytes) = 0%nat.
Proof.
  intros H. unfold char_deliveries. destruct h; cbn [run_handler is_char_handler] in *;
    try discriminate;
    repeat match goal with
    | |- context [match ?x with Ok _ => _ | Throw _ => _ end] => destruct x
    | |- context [if ?b then _ else _] => destruct b
    end; reflexivity.
Qed.

Lemma no_char_handlers_no_delivery (cb : Callbacks) (w : World) (c : string)
  (bytes : DataView) :
  char_handlers w = [] -> char_deliveries (notify_outputs cb w c bytes) = 0%nat.
Proof.
  unfold notify_outputs, char_handlers, listeners_on. intros H.
  destruct (link_up w && mem c (notifying w)); [|reflexivity].
  induction (char_listeners w) as [|p l IH]; [reflexivity|].
  cbn [filter] in H |- *.
  destruct (is_char_handler (l_handler (snd p))) eqn:Ep; [discriminate|].
  destruct (String.eqb (fst p) c); cbn [map List.concat]; [|exact (IH H)].
  rewrite char_deliveries_app, char_deliveries_handler_other by exact Ep.
  exact (IH H).
Qed.


Lemma mem_filter_self (u : string) (l : list string) :
  mem u (filter (fun x => negb (String.eqb u x)) l) = false.
Proof.
  induction l as [|x l IH]; [reflexivity|]. cbn [filter].
  destruct (String.eqb u x) eqn:E; cbn; [exact IH|]. rewrite E. exact IH.
Qed.

(** [unsubscribeFromCharacteristic] in a world reached by a sequential
    run: with no active subscription it does nothing and resolves. With
    one whose characteristic object belongs to the current connection, it
    detaches the handler, turns notifications off on that characteristic
    and clears the record, and no raw characteristic data reaches the
    consumer afterwards. With one left from a lost connection,
    [stopNotifications] rejects with an [InvalidStateError], which is
    logged and rethrown; nothing changes, the record stays, and no
    raw-data handler is attached. *)
Theorem unsubscribeFromCharacteristic_contract (cb : Callbacks) (p : Peripheral)
  (ops : list Op) :
  let w := fst (run cb ops (initial_world_of p)) in
  (activeCharacteristicSubscription w = None ->
   step cb OpUnsubscribe w = (w, [], Ok RetUndefined)) /\
  (forall c id, activeCharacteristicSubscription w = Some (c, id) -> live w c = true ->
   exists w', step cb OpUnsubscribe w = (w', [], Ok RetUndefined) /\
     activeCharacteristicSubscription w' = None /\ char_handlers w' = [] /\
     mem (ch_uuid c) (notifying w') = false /\
     (forall u bytes, char_deliveries (notify_outputs cb w' u bytes) = 0%nat)) /\
  (forall c id, activeCharacteristicSubscription w = Some (c, id) -> live w c = false ->
   step cb OpUnsubscribe w
   = (w, [ConsoleError (TransportError "InvalidStateError")],
      Throw (TransportError "InvalidStateError")) /\
   char_handlers w = []).
Proof.
  cbv zeta. set (w := fst (run cb ops (initial_world_of p))).
  pose proof (reachable_tracked cb ops p) as Ht. fold w in Ht.
  split; [|split].
  - intros Ha. exact (exec_unsubscribe_none w Ha).
  - intros c id Ha Hc.
    destruct (unsubscribe_world_tracked w c id
                (filter (fun x => negb (String.eqb (ch_uuid c) x)) (notifying w)) Ht Ha Hc)
      as (_ & A & H).
    eexists. split; [exact (exec_unsubscribe_live w c id Ha Hc)|].
    split; [exact A|]. split; [exact H|]. split.
    + apply mem_filter_self.
    + intros u bytes. apply no_char_handlers_no_delivery, H.
  - intros c id Ha Hc. split; [exact (exec_unsubscribe_stale w c id Ha Hc)|].
    apply tracked_no_live_handlers; [exact Ht|].
    intros c' id' H. rewrite Ha in H. injection H as <- <-. exact Hc.
Qed.

Lemma unsubscribeFromCharacteristic_contract_witness :
  let w := fst (run demo_callbacks [OpConnect; OpDiscover; OpSubscribe GENERAL_STATUS]
                  (initial_world_of pm5)) in
  let c := {| ch_uuid := GENERAL_STATUS; ch_conn := 0 |} in
  activeCharacteristicSubscription w = Some (c, 0%nat) /\ live w c = true /\
  exists w', step demo_callbacks OpUnsubscribe w = (w', [], Ok RetUndefined) /\
    activeCharacteristicSubscription w' = None.
Proof.
  cbv zeta. split; [reflexivity|]. split; [reflexivity|].
  destruct (proj1 (proj2 (unsubscribeFromCharacteristic_contract demo_callbacks pm5
              [OpConnect; OpDiscover; OpSubscribe GENERAL_STATUS]))
              {| ch_uuid := GENERAL_STATUS; ch_conn := 0 |} 0%nat eq_refl eq_refl)
    as (w' & E & A & _).
  exists w'. split; assumption.
Defined.

(** [subscribeToCharacteristic(uuid)] in a world reached by a sequential
    run, for a [uuid] the last discovery did not report, with no
    subscription left from a lost connection: it rejects with the
    "not found" error (logged, then rethrown), but only after cancelling
    the active subscription, so the call leaves no subscription and no
    raw-data handler at all. *)
Theorem subscribe_undiscovered_loses_subscription (cb : Callbacks) (p : Peripheral)
  (ops : list Op) (uuid : string) :
  let w := fst (run cb ops (initial_world_of p)) in
  let e := ErrorMsg ("Characteristic " ++ uuid ++ " not found in discovered characteristics") in
  find_char uuid (notifyCapableCharacteristics w) = None ->
  (forall c id, activeCharacteristicSubscription w = Some (c, id) -> live w c = true) ->
  exists w', step cb (OpSubscribe uuid) w = (w', [ConsoleError e], Throw e) /\
    activeCharacteristicSubscription w' = None /\ char_handlers w' = [] /\
    (forall u bytes, char_deliveries (notify_outputs cb w' u bytes) = 0%nat).
Proof.
  cbv zeta. set (w := fst (run cb ops (initial_world_of p))).
  pose proof (reachable_tracked cb ops p) as Ht. fold w in Ht.
  intros Hf Hact. unfold step, method, subscribeToCharacteristic. exec_simp.
  destruct (activeCharacteristicSubscription w) as [[c id]|] eqn:Ha.
  - pose proof (Hact c id eq_refl) as Hc. exec_simp.
    rewrite (exec_unsubscribe_live w c id Ha Hc). exec_simp.
    destruct (unsubscribe_world_tracked w c id
                (filter (fun x => negb (String.eqb (ch_uuid c) x)) (notifying w)) Ht Ha Hc)
      as (_ & A & H).
    assert (Hf' : notifyCapableCharacteristics (set_active (set_notifying
       (removeEventListener w c id) (filter (fun x => negb (String.eqb (ch_uuid c) x))
       (notifying w))) None) = notifyCapableCharacteristics w)
      by (unfold removeEventListener; rewrite Hc; reflexivity).
    rewrite Hf', Hf. exec_simp.
    eexists. split; [reflexivity|]. split; [exact A|]. split; [exact H|].
    intros u bytes. apply no_char_handlers_no_delivery, H.
  - exec_simp. rewrite Hf. exec_simp.
    assert (H : char_handlers w = []).
    { apply tracked_no_live_handlers; [exact Ht|]. intros c id H. rewrite Ha in H.
      discriminate H. }
    eexists. split; [reflexivity|]. split; [exact Ha|]. split; [exact H|].
    intros u bytes. apply no_char_handlers_no_delivery, H.
Qed.

Lemma subscribe_undiscovered_loses_subscription_witness :
  let w := fst (run demo_callbacks [OpConnect; OpDiscover; OpSubscribe GENERAL_STATUS]
                  (initial_world_of pm5)) in
  find_char "heart_rate" (notifyCapableCharacteristics w) = None /\
  activeCharacteristicSubscription w <> None /\
  exists w', fst (fst (step demo_callbacks (OpSubscribe "heart_rate") w)) = w' /\
    activeCharacteristicSubscription w' = None.
Proof.
  cbv zeta. split; [reflexivity|]. split; [discriminate|].
  destruct (subscribe_undiscovered_loses_subscription demo_callbacks pm5
              [OpConnect; OpDiscover; OpSubscribe GENERAL_STATUS] "heart_rate" eq_refl
              (fun c id H => ltac:(vm_compute in H; injection H as <- _; reflexivity)))
    as (w' & E & A & _).
  exists w'. rewrite E. split; [reflexivity | exact A].
Defined.

Lemma exec_discover_services (g : nat) (svcs : list (string * result (list (string * bool))))
  (w : World) :
  link_up w = true -> g = connection w ->
  exec (discover_services g svcs) w
  = (w, flat_map (fun sr => match snd sr with Ok _ => [] | Throw e => [ConsoleError e] end) svcs,
     Ok (flat_map (fun sr => match snd sr with Ok l => notify_chars g l | Throw _ => [] end)
           svcs)).
Proof.
  intros Hl Hg. induction svcs as [|[s r] rest IH]; cbn [discover_services].
  - exec_simp. reflexivity.
  - exec_simp. rewrite exec_gatt_up by auto. cbv beta.
    destruct r as [l|e]; exec_simp; rewrite IH; exec_simp.
    all: cbn [flat_map snd app]; rewrite ?app_nil_r; reflexivity.
Qed.

Lemma subscribe_not_found (cb : Callbacks) (w : World) (uuid : string) :
  find_char uuid (notifyCapableCharacteristics w) = None ->
  (forall c id, activeCharacteristicSubscription w = Some (c, id) -> live w c = true) ->
  snd (step cb (OpSubscribe uuid) w)
  = Throw (ErrorMsg ("Characteristic " ++ uuid ++ " not found in discovered characteristics")).
Proof.
  intros Hf Hact. unfold step, method, subscribeToCharacteristic. exec_simp.
  destruct (activeCharacteristicSubscription w) as [[c id]|] eqn:Ha.
  - pose proof (Hact c id eq_refl) as Hc. exec_simp.
    rewrite (exec_unsubscribe_live w c id Ha Hc). exec_simp.
    unfold removeEventListener. rewrite Hc. cbn [set_active set_notifying set_listeners
      notifyCapableCharacteristics]. rewrite Hf. exec_simp. reflexivity.
  - exec_simp. rewrite Hf. exec_simp. reflexivity.
Qed.

Lemma find_char_conn (uuid : string) (g : nat) (svcs : list (string * result (list (string * bool))))
  (ch : Characteristic) :
  find_char uuid
    (flat_map (fun sr => match snd sr with Ok l => notify_chars g l | Throw _ => [] end) svcs)
  = Some ch -> ch_conn ch = g.
Proof.
  unfold find_char. intros H. apply find_some in H. destruct H as [H _].
  apply in_flat_map in H. destruct H as [[s r] [_ H]]. cbn in H.
  destruct r as [l|e]; [|contradiction].
  induction l as [|[u b] l IH]; cbn in H; [contradiction|].
  destruct b; [destruct H as [<-|H]; [reflexivity|]|]; exact (IH H).
Qed.

(** [discoverNotifyCapableCharacteristics()] rejects, logging the error
    and changing nothing, when [this.server] is [null] and when the link
    is down. Otherwise it asks every service of the PM5 for its
    characteristics; a service whose answer is a rejection is only logged
    and contributes nothing, the others contribute their notify-capable
    characteristics, in service order. The call resolves to that list and
    stores it in [notifyCapableCharacteristics]. A following
    [subscribeToCharacteristic(uuid)], with no subscription left from a
    lost connection, then resolves to [true] exactly when [uuid] is in
    that list. *)
Theorem discover_then_subscribe (cb : Callbacks) (w : World) (uuid : string) :
  let found :=
    flat_map (fun sr => match snd sr with Ok l => notify_chars (connection w) l | Throw _ => [] end)
      (gatt_table (peripheral w)) in
  let warnings :=
    flat_map (fun sr => match snd sr with Ok _ => [] | Throw e => [ConsoleError e] end)
      (gatt_table (peripheral w)) in
  (server w = false ->
   step cb OpDiscover w
   = (w, [ConsoleError (TypeError "this.server is null")],
      Throw (TypeError "this.server is null"))) /\
  (server w = true -> link_up w = false ->
   step cb OpDiscover w
   = (w, [ConsoleError (TransportError "NetworkError")], Throw (TransportError "NetworkError"))) /\
  (server w = true -> link_up w = true ->
   step cb OpDiscover w = (set_notifyCapable w found, warnings, Ok (RetChars found)) /\
   ((forall c id, activeCharacteristicSubscription w = Some (c, id) -> live w c = true) ->
    (snd (step cb (OpSubscribe uuid) (set_notifyCapable w found)) = Ok RetTrue <->
     find_char uuid found <> None))).
Proof.
  cbv zeta. split; [|split].
  - intros Hs. unfold step, method, discoverNotifyCapableCharacteristics. exec_simp.
    rewrite Hs. exec_simp. reflexivity.
  - intros Hs Hl. unfold step, method, discoverNotifyCapableCharacteristics. exec_simp.
    rewrite Hs. exec_simp. rewrite exec_gatt_down by exact Hl. exec_simp. reflexivity.
  - intros Hs Hl. split.
    + unfold step, method, discoverNotifyCapableCharacteristics. exec_simp.
      rewrite Hs. exec_simp. rewrite exec_gatt_up by auto. cbv beta. exec_simp.
      cbn [fst snd]. rewrite exec_discover_services by auto. exec_simp.
      rewrite app_nil_r. reflexivity.
    + intros Hact.
      set (found := flat_map (fun sr => match snd sr with
                      Ok l => notify_chars (connection w) l | Throw _ => [] end)
                      (gatt_table (peripheral w))).
      destruct (find_char uuid found) as [ch|] eqn:Hf.
      * split; [intros _; discriminate|intros _].
        assert (Hc : ch_conn ch = connection w) by exact (find_char_conn _ _ _ _ Hf).
        destruct (subscribe_live cb (set_notifyCapable w found) uuid ch Hl Hact Hf
                    ltac:(unfold live; cbn; rewrite Hc; apply Nat.eqb_refl))
          as (w2 & E & _).
        rewrite E. reflexivity.
      * rewrite (subscribe_not_found cb (set_notifyCapable w found) uuid Hf Hact).
        split; [discriminate|]. intros H. contradiction H. reflexivity.
Qed.

Lemma discover_then_subscribe_witness :
  let p := {| in_range := true;
              gatt_table :=
                [(INFORMATION_SERVICE, Ok [("model_number"%string, false)]);
                 (CONTROL_SERVICE, Throw (TransportError "NotSupportedError"));
                 (ROWING_SERVICE, Ok [(GENERAL_STATUS, true); (STROKE_DATA, false)])];
              info_replies := [("model_number"%string, Ok tt)];
              write_reply := Ok tt |} in
  let w := fst (run demo_callbacks [OpConnect] (initial_world_of p)) in
  server w = true /\ link_up w = true /\
  snd (fst (step demo_callbacks OpDiscover w))
  = [ConsoleError (TransportError "NotSupportedError")] /\
  snd (step demo_callbacks (OpSubscribe GENERAL_STATUS) (fst (fst (step demo_callbacks OpDiscover w))))
  = Ok RetTrue.
Proof.
  cbv zeta. split; [reflexivity|]. split; [reflexivity|].
  destruct (proj2 (proj2 (discover_then_subscribe demo_callbacks
    (fst (run demo_callbacks [OpConnect] (initial_world_of {| in_range := true;
              gatt_table :=
                [(INFORMATION_SERVICE, Ok [("model_number"%string, false)]);
                 (CONTROL_SERVICE, Throw (TransportError "NotSupportedError"));
                 (ROWING_SERVICE, Ok [(GENERAL_STATUS, true); (STROKE_DATA, false)])];
              info_replies := [("model_number"%string, Ok tt)];
              write_reply := Ok tt |}))) GENERAL_STATUS)) eq_refl eq_refl) as [E H].
  rewrite E. split; [reflexivity|]. apply H.
  - intros c id Ha. vm_compute in Ha. discriminate Ha.
  - vm_compute. discriminate.
Defined.


Lemma keeps_refl : forall w, keeps_gatt_state w w.
Proof. intros w. repeat split. Qed.

Lemma keeps_trans :
  forall w1 w2 w3, keeps_gatt_state w1 w2 -> keeps_gatt_state w2 w3 -> keeps_gatt_state w1 w3.
Proof. intros w1 w2 w3 (A1 & B1 & C1 & D1) (A2 & B2 & C2 & D2). repeat split; congruence. Qed.

Lemma no_consumer_events_nil : no_consumer_events [].
Proof. reflexivity. Qed.

Lemma no_consumer_events_app :
  forall a b, no_consumer_events a -> no_consumer_events b -> no_consumer_events (a ++ b).
Proof.
  unfold no_consumer_events. intros a b Ha Hb. rewrite consumer_events_app, Ha, Hb. reflexivity.
Qed.

Ltac keeps_side :=
  intros; unfold keeps_gatt_state, no_consumer_events; split_ifs;
  cbn [fst snd set_fields set_link_up char_listeners notifying
       activeCharacteristicSubscription connection];
  repeat match goal with |- _ /\ _ => split end; reflexivity.

Ltac quiet_keeps :=
  quiet_auto keeps_refl keeps_trans no_consumer_events_nil no_consumer_events_app.

Lemma read_all_keeps (l : list (string * result unit)) :
  quietA keeps_gatt_state no_consumer_events (read_all l).
Proof.
  induction l as [|[u r] rest IH]; cbn [read_all]; quiet_keeps; first [exact IH | keeps_side].
Qed.

Lemma gatt_connect_keeps : quietA keeps_gatt_state no_consumer_events gatt_connect.
Proof.
  intros w. unfold gatt_connect. cbn [fst snd].
  split; [apply keeps_refl|]. split; [reflexivity|].
  constructor. intros w'. split_ifs; cbn [fst snd];
    (split; [|split; [reflexivity|constructor]]); first [apply keeps_refl | keeps_side].
Qed.

Lemma connect_keeps : quietA keeps_gatt_state no_consumer_events connect.
Proof.
  unfold connect, getServices, readDeviceInformation. quiet_keeps;
    first [apply gatt_connect_keeps | apply read_all_keeps | keeps_side].
Qed.

(** [disconnect()] then [connect()], from a world reached by a sequential
    run with the link up, whatever [connect()] meets (the PM5 out of
    range, a missing service, a failed read): the consumer receives the
    one [Disconnected] event and nothing else; the connection that
    follows starts with no listener attached and no notification on, so
    notifications deliver nothing until the streams are started again.
    [activeCharacteristicSubscription] survives, and a subscription it
    records names an object of the lost connection. *)
Theorem reconnect_starts_clean (cb : Callbacks) (p : Peripheral) (ops : list Op) :
  let w := fst (run cb ops (initial_world_of p)) in
  server w = true -> link_up w = true ->
  let '(w2, os) := run cb [OpDisconnect; OpConnect] w in
  consumer_events os = (if onDisconnected cb then [Disconnected] else []) /\
  char_listeners w2 = [] /\ notifying w2 = [] /\
  activeCharacteristicSubscription w2 = activeCharacteristicSubscription w /\
  (forall c id, activeCharacteristicSubscription w2 = Some (c, id) -> live w2 c = false) /\
  (forall c bytes, notify_outputs cb w2 c bytes = []).
Proof.
  cbv zeta. set (w := fst (run cb ops (initial_world_of p))).
  pose proof (reachable_tracked cb ops p) as [_ Hle]. fold w in Hle.
  intros Hs Hl. cbn [run].
  replace (step cb OpDisconnect w)
    with (set_fields (drop_link w) false false [] [],
          if onDisconnected cb then [Emit Disconnected] else [], @Ok Ret RetUndefined)
    by (unfold step, exec; rewrite method_disconnect, Hs, Hl; cbn; rewrite app_nil_r;
        reflexivity).
  set (w1 := set_fields (drop_link w) false false [] []).
  destruct (quietA_exec keeps_gatt_state no_consumer_events keeps_refl keeps_trans
              no_consumer_events_nil no_consumer_events_app connect connect_keeps w1)
    as [(A & B & C & D) E].
  unfold step, method. destruct (exec connect w1) as [[w2 o2] r2]. cbn in A, B, C, D, E.
  rewrite app_nil_r. unfold no_consumer_events in E.
  split; [|split; [|split; [|split; [|split]]]].
  - rewrite consumer_events_app, E, app_nil_r. destruct (onDisconnected cb); reflexivity.
  - rewrite A. reflexivity.
  - rewrite B. reflexivity.
  - rewrite C. reflexivity.
  - intros c id H. rewrite C in H. cbn in H. specialize (Hle c id H).
    unfold live. rewrite D. cbn. apply Nat.eqb_neq. lia.
  - intros c bytes. unfold notify_outputs. rewrite B. cbn. destruct (link_up w2); reflexivity.
Qed.

Lemma reconnect_starts_clean_witness :
  let w := fst (run demo_callbacks [OpConnect; OpDiscover; OpSubscribe GENERAL_STATUS]
                  (initial_world_of pm5)) in
  server w = true /\ link_up w = true /\
  consumer_events (snd (run demo_callbacks [OpDisconnect; OpConnect] w)) = [Disconnected] /\
  activeCharacteristicSubscription (fst (run demo_callbacks [OpDisconnect; OpConnect] w))
  <> None.
Proof.
  cbv zeta. split; [reflexivity|]. split; [reflexivity|].
  pose proof (reconnect_starts_clean demo_callbacks pm5
                [OpConnect; OpDiscover; OpSubscribe GENERAL_STATUS] eq_refl eq_refl) as H.
  cbv zeta in H.
  destruct (run demo_callbacks [OpDisconnect; OpConnect]
              (fst (run demo_callbacks [OpConnect; OpDiscover; OpSubscribe GENERAL_STATUS]
                      (initial_world_of pm5)))) as [w2 os] eqn:E.
  destruct H as (H1 & _ & _ & H4 & _). cbn [fst snd]. split; [exact H1|].
  rewrite H4. vm_compute. discriminate.
Defined.

(** * Field names of [readDeviceInformation] *)

Lemma nat_of_ascii_lt (c : ascii) : (nat_of_ascii c < 256)%nat.
Proof.
  destruct c as [[] [] [] [] [] [] [] []]; cbv; lia.
Qed.

Lemma toLowerCase_not_upper (c : ascii) : is_upper_az (toLowerCase_char c) = false.
Proof.
  unfold toLowerCase_char, is_upper_az.
  pose proof (nat_of_ascii_lt c) as Hc.
  destruct (Nat.leb_spec 65 (nat_of_ascii c)), (Nat.leb_spec (nat_of_ascii c) 90);
    destruct (Nat.leb_spec 192 (nat_of_ascii c)), (Nat.leb_spec (nat_of_ascii c) 222);
    destruct (Nat.eqb_spec (nat_of_ascii c) 215); cbn [andb orb negb];
    try rewrite Ascii.nat_ascii_embedding by lia;
    repeat match goal with
    | |- context [Nat.leb ?a ?b] => destruct (Nat.leb_spec a b)
    end; cbn [andb]; try reflexivity; lia.
Qed.

Lemma snake_replace (l : list ascii) :
  (Forall (fun c => is_upper_az c = false) l ->
   snake_of_camel (replace_underscore_lower l) = l) /\
  (forall c, Forall (fun c => is_upper_az c = false) (c :: l) ->
   snake_of_camel (replace_underscore_lower (c :: l)) = c :: l).
Proof.
  induction l as [|a l [IH1 IH2]].
  - split; [reflexivity|]. intros c Hc. inversion Hc as [|? ? Hc1 _]; subst.
    unfold is_upper_az in Hc1. cbn [replace_underscore_lower].
    destruct (Ascii.eqb c "_"); cbn [snake_of_camel]; rewrite Hc1; reflexivity.
  - split; [apply IH2|].
    intros c Hc. inversion Hc as [|? ? Hc1 Hl]; subst.
    unfold is_upper_az in Hc1.
    cbn [replace_underscore_lower].
    destruct (Ascii.eqb c "_") eqn:Eu.
    + destruct (is_lower_az a) eqn:Ea.
      * cbn [snake_of_camel]. inversion Hl as [|? ? Ha Hl']; subst.
        unfold is_lower_az, toUpperCase_az in *.
        pose proof (nat_of_ascii_lt a).
        apply Bool.andb_true_iff in Ea as [Ea1 Ea2].
        apply Nat.leb_le in Ea1, Ea2.
        rewrite Ascii.nat_ascii_embedding by lia.
        destruct (Nat.leb_spec 65 (nat_of_ascii a - 32)); [|lia].
        destruct (Nat.leb_spec (nat_of_ascii a - 32) 90); [|lia]. cbn [andb].
        replace (nat_of_ascii a - 32 + 32)%nat with (nat_of_ascii a) by lia.
        rewrite Ascii.ascii_nat_embedding, (IH1 Hl').
        apply Ascii.eqb_eq in Eu. subst. reflexivity.
      * cbn [snake_of_camel]. rewrite Hc1. f_equal. apply IH2, Hl.
    + cbn [snake_of_camel]. rewrite Hc1. f_equal. apply IH2, Hl.
Qed.

(** The [deviceInfo] field name determines [key.toLowerCase()]: reading
    the name back (an underscore before each capital, lowered) gives the
    lowered key. Two keys that differ after lowering are therefore never
    stored under the same field. *)
Theorem fieldName_determines_lowered_key (key key' : string) :
  snake_of_camel (list_ascii_of_string (fieldName key))
  = map toLowerCase_char (list_ascii_of_string key) /\
  (fieldName key = fieldName key' ->
   map toLowerCase_char (list_ascii_of_string key)
   = map toLowerCase_char (list_ascii_of_string key')).
Proof.
  assert (R : forall k, snake_of_camel (list_ascii_of_string (fieldName k))
                        = map toLowerCase_char (list_ascii_of_string k)).
  { intros k. unfold fieldName. rewrite list_ascii_of_string_of_list_ascii.
    apply (proj1 (snake_replace _)).
    apply Forall_forall. intros x Hx. apply in_map_iff in Hx as (y & <- & _).
    apply toLowerCase_not_upper. }
  split; [apply R|].
  intros H. rewrite <- R, <- R, H. reflexivity.
Qed.

Lemma fieldName_determines_lowered_key_witness :
  fieldName "SERIAL_NUMBER" = "serialNumber"%string /\
  fieldName "SERIAL_NUMBER" = fieldName "serial_number" /\
  map toLowerCase_char (list_ascii_of_string "SERIAL_NUMBER")
  = map toLowerCase_char (list_ascii_of_string "serial_number").
Proof.
  split; [reflexivity|]. split; [reflexivity|].
  apply (proj2 (fieldName_determines_lowered_key "SERIAL_NUMBER" "serial_number")).
  reflexivity.
Defined.
